(** * NewsTrace scraper (Backend/scrapper.py): a shallow embedding

    Python strings are modelled as lists of Unicode code points ([list N]).
    Character classes and case mappings follow CPython 3.11 and its Unicode
    14.0 data: whitespace as [str.isspace] / regex [\s], regex [\d] and
    [int()] on all decimal digits, and [str.lower], [str.title] and
    [str.capitalize] with the full case mappings and the final sigma rule.
    HTML parsing (BeautifulSoup) and HTTP are not embedded: a fetched page is
    represented by what the extraction helpers read from it, and the network
    by oracles. *)

From Stdlib Require Import List String Ascii NArith ZArith Bool Lia Sorted Permutation.
Import ListNotations.
Open Scope N_scope.

(* ------------------------------------------------------------------ *)
(** ** Strings *)

Definition str := list N.

(** ASCII string literal to code points. *)
Definition u (x : string) : str := map N_of_ascii (list_ascii_of_string x).

Fixpoint str_eqb (a b : str) : bool :=
  match a, b with
  | [], [] => true
  | x :: a', y :: b' => N.eqb x y && str_eqb a' b'
  | _, _ => false
  end.

(** Python's [str] ordering: lexicographic on code points. *)
Fixpoint str_ltb (a b : str) : bool :=
  match a, b with
  | [], [] => false
  | [], _ :: _ => true
  | _ :: _, [] => false
  | x :: a', y :: b' => if N.ltb x y then true else if N.eqb x y then str_ltb a' b' else false
  end.

Definition str_leb (a b : str) : bool := str_eqb a b || str_ltb a b.

(** [needle in hay] for strings. *)
Fixpoint prefixb (p s : str) : bool :=
  match p, s with
  | [], _ => true
  | x :: p', y :: s' => N.eqb x y && prefixb p' s'
  | _ :: _, [] => false
  end.

Fixpoint containsb (hay needle : str) : bool :=
  match hay with
  | [] => prefixb needle []
  | _ :: hay' => prefixb needle hay || containsb hay' needle
  end.

(** Python [str.isspace] (and regex [\s] on [str] patterns). *)
Definition is_space (c : N) : bool :=
  ((9 <=? c) && (c <=? 13)) || ((28 <=? c) && (c <=? 32)) || (c =? 133) || (c =? 160)
  || (c =? 5760) || ((8192 <=? c) && (c <=? 8202)) || (c =? 8232) || (c =? 8233)
  || (c =? 8239) || (c =? 8287) || (c =? 12288).

Fixpoint lstrip (s : str) : str :=
  match s with
  | c :: r => if is_space c then lstrip r else s
  | [] => []
  end.

(** [s.strip()] *)
Definition strip (s : str) : str := rev (lstrip (rev (lstrip s))).

(** The ASCII classes [[A-Z]] and [[a-z]], and the case change of an ASCII
    letter. *)
Definition is_upper (c : N) : bool := (65 <=? c) && (c <=? 90).
Definition is_lower (c : N) : bool := (97 <=? c) && (c <=? 122).
Definition lower_c (c : N) : N := if is_upper c then c + 32 else c.
Definition upper_c (c : N) : N := if is_lower c then c - 32 else c.

(* ------------------------------------------------------------------ *)
(** ** Unicode character data (Unicode 14.0, as in CPython 3.11) *)

(** The first code point of each run of ten decimal digits (category Nd,
    the characters regex [\d] and [int()] accept); each run holds the
    digits 0 to 9 in order. *)
Definition decimal_zeros : list N :=
[
   48; 1632; 1776; 1984; 2406; 2534; 2662; 2790; 2918; 3046;
   3174; 3302; 3430; 3558; 3664; 3792; 3872; 4160; 4240; 6112;
   6160; 6470; 6608; 6784; 6800; 6992; 7088; 7232; 7248; 42528;
   43216; 43264; 43472; 43504; 43600; 44016; 65296; 66720; 68912; 69734;
   69872; 69942; 70096; 70384; 70736; 70864; 71248; 71360; 71472; 71904;
   72016; 72784; 73040; 73120; 92768; 92864; 93008; 120782; 120792; 120802;
   120812; 120822; 123200; 123632; 125264; 130032].

(** The characters with the property Cased. *)
Definition cased_ranges : list (N * N) :=
[
   (65, 90); (97, 122); (170, 170); (181, 181); (186, 186); (192, 214);
   (216, 246); (248, 442); (444, 447); (452, 659); (661, 696); (704, 705);
   (736, 740); (837, 837); (880, 883); (886, 887); (890, 893); (895, 895);
   (902, 902); (904, 906); (908, 908); (910, 929); (931, 1013); (1015, 1153);
   (1162, 1327); (1329, 1366); (1376, 1416); (4256, 4293); (4295, 4295); (4301, 4301);
   (4304, 4346); (4349, 4351); (5024, 5109); (5112, 5117); (7296, 7304); (7312, 7354);
   (7357, 7359); (7424, 7615); (7680, 7957); (7960, 7965); (7968, 8005); (8008, 8013);
   (8016, 8023); (8025, 8025); (8027, 8027); (8029, 8029); (8031, 8061); (8064, 8116);
   (8118, 8124); (8126, 8126); (8130, 8132); (8134, 8140); (8144, 8147); (8150, 8155);
   (8160, 8172); (8178, 8180); (8182, 8188); (8305, 8305); (8319, 8319); (8336, 8348);
   (8450, 8450); (8455, 8455); (8458, 8467); (8469, 8469); (8473, 8477); (8484, 8484);
   (8486, 8486); (8488, 8488); (8490, 8493); (8495, 8500); (8505, 8505); (8508, 8511);
   (8517, 8521); (8526, 8526); (8544, 8575); (8579, 8580); (9398, 9449); (11264, 11492);
   (11499, 11502); (11506, 11507); (11520, 11557); (11559, 11559); (11565, 11565); (42560, 42605);
   (42624, 42653); (42786, 42887); (42891, 42894); (42896, 42954); (42960, 42961); (42963, 42963);
   (42965, 42969); (42997, 42998); (43000, 43002); (43824, 43866); (43868, 43880); (43888, 43967);
   (64256, 64262); (64275, 64279); (65313, 65338); (65345, 65370); (66560, 66639); (66736, 66771);
   (66776, 66811); (66928, 66938); (66940, 66954); (66956, 66962); (66964, 66965); (66967, 66977);
   (66979, 66993); (66995, 67001); (67003, 67004); (67456, 67456); (67459, 67461); (67463, 67504);
   (67506, 67514); (68736, 68786); (68800, 68850); (71840, 71903); (93760, 93823); (119808, 119892);
   (119894, 119964); (119966, 119967); (119970, 119970); (119973, 119974); (119977, 119980); (119982, 119993);
   (119995, 119995); (119997, 120003); (120005, 120069); (120071, 120074); (120077, 120084); (120086, 120092);
   (120094, 120121); (120123, 120126); (120128, 120132); (120134, 120134); (120138, 120144); (120146, 120485);
   (120488, 120512); (120514, 120538); (120540, 120570); (120572, 120596); (120598, 120628); (120630, 120654);
   (120656, 120686); (120688, 120712); (120714, 120744); (120746, 120770); (120772, 120779); (122624, 122633);
   (122635, 122654); (125184, 125251); (127280, 127305); (127312, 127337); (127344, 127369)].

(** The characters with the property Case_Ignorable. *)
Definition case_ignorable_ranges : list (N * N) :=
[
   (39, 39); (46, 46); (58, 58); (94, 94); (96, 96); (168, 168);
   (173, 173); (175, 175); (180, 180); (183, 184); (688, 879); (884, 885);
   (890, 890); (900, 901); (903, 903); (1155, 1161); (1369, 1369); (1375, 1375);
   (1425, 1469); (1471, 1471); (1473, 1474); (1476, 1477); (1479, 1479); (1524, 1524);
   (1536, 1541); (1552, 1562); (1564, 1564); (1600, 1600); (1611, 1631); (1648, 1648);
   (1750, 1757); (1759, 1768); (1770, 1773); (1807, 1807); (1809, 1809); (1840, 1866);
   (1958, 1968); (2027, 2037); (2042, 2042); (2045, 2045); (2070, 2093); (2137, 2139);
   (2184, 2184); (2192, 2193); (2200, 2207); (2249, 2306); (2362, 2362); (2364, 2364);
   (2369, 2376); (2381, 2381); (2385, 2391); (2402, 2403); (2417, 2417); (2433, 2433);
   (2492, 2492); (2497, 2500); (2509, 2509); (2530, 2531); (2558, 2558); (2561, 2562);
   (2620, 2620); (2625, 2626); (2631, 2632); (2635, 2637); (2641, 2641); (2672, 2673);
   (2677, 2677); (2689, 2690); (2748, 2748); (2753, 2757); (2759, 2760); (2765, 2765);
   (2786, 2787); (2810, 2815); (2817, 2817); (2876, 2876); (2879, 2879); (2881, 2884);
   (2893, 2893); (2901, 2902); (2914, 2915); (2946, 2946); (3008, 3008); (3021, 3021);
   (3072, 3072); (3076, 3076); (3132, 3132); (3134, 3136); (3142, 3144); (3146, 3149);
   (3157, 3158); (3170, 3171); (3201, 3201); (3260, 3260); (3263, 3263); (3270, 3270);
   (3276, 3277); (3298, 3299); (3328, 3329); (3387, 3388); (3393, 3396); (3405, 3405);
   (3426, 3427); (3457, 3457); (3530, 3530); (3538, 3540); (3542, 3542); (3633, 3633);
   (3636, 3642); (3654, 3662); (3761, 3761); (3764, 3772); (3782, 3782); (3784, 3789);
   (3864, 3865); (3893, 3893); (3895, 3895); (3897, 3897); (3953, 3966); (3968, 3972);
   (3974, 3975); (3981, 3991); (3993, 4028); (4038, 4038); (4141, 4144); (4146, 4151);
   (4153, 4154); (4157, 4158); (4184, 4185); (4190, 4192); (4209, 4212); (4226, 4226);
   (4229, 4230); (4237, 4237); (4253, 4253); (4348, 4348); (4957, 4959); (5906, 5908);
   (5938, 5939); (5970, 5971); (6002, 6003); (6068, 6069); (6071, 6077); (6086, 6086);
   (6089, 6099); (6103, 6103); (6109, 6109); (6155, 6159); (6211, 6211); (6277, 6278);
   (6313, 6313); (6432, 6434); (6439, 6440); (6450, 6450); (6457, 6459); (6679, 6680);
   (6683, 6683); (6742, 6742); (6744, 6750); (6752, 6752); (6754, 6754); (6757, 6764);
   (6771, 6780); (6783, 6783); (6823, 6823); (6832, 6862); (6912, 6915); (6964, 6964);
   (6966, 6970); (6972, 6972); (6978, 6978); (7019, 7027); (7040, 7041); (7074, 7077);
   (7080, 7081); (7083, 7085); (7142, 7142); (7144, 7145); (7149, 7149); (7151, 7153);
   (7212, 7219); (7222, 7223); (7288, 7293); (7376, 7378); (7380, 7392); (7394, 7400);
   (7405, 7405); (7412, 7412); (7416, 7417); (7468, 7530); (7544, 7544); (7579, 7679);
   (8125, 8125); (8127, 8129); (8141, 8143); (8157, 8159); (8173, 8175); (8189, 8190);
   (8203, 8207); (8216, 8217); (8228, 8228); (8231, 8231); (8234, 8238); (8288, 8292);
   (8294, 8303); (8305, 8305); (8319, 8319); (8336, 8348); (8400, 8432); (11388, 11389);
   (11503, 11505); (11631, 11631); (11647, 11647); (11744, 11775); (11823, 11823); (12293, 12293);
   (12330, 12333); (12337, 12341); (12347, 12347); (12441, 12446); (12540, 12542); (40981, 40981);
   (42232, 42237); (42508, 42508); (42607, 42610); (42612, 42621); (42623, 42623); (42652, 42655);
   (42736, 42737); (42752, 42785); (42864, 42864); (42888, 42890); (42994, 42996); (43000, 43001);
   (43010, 43010); (43014, 43014); (43019, 43019); (43045, 43046); (43052, 43052); (43204, 43205);
   (43232, 43249); (43263, 43263); (43302, 43309); (43335, 43345); (43392, 43394); (43443, 43443);
   (43446, 43449); (43452, 43453); (43471, 43471); (43493, 43494); (43561, 43566); (43569, 43570);
   (43573, 43574); (43587, 43587); (43596, 43596); (43632, 43632); (43644, 43644); (43696, 43696);
   (43698, 43700); (43703, 43704); (43710, 43711); (43713, 43713); (43741, 43741); (43756, 43757);
   (43763, 43764); (43766, 43766); (43867, 43871); (43881, 43883); (44005, 44005); (44008, 44008);
   (44013, 44013); (64286, 64286); (64434, 64450); (65024, 65039); (65043, 65043); (65056, 65071);
   (65106, 65106); (65109, 65109); (65279, 65279); (65287, 65287); (65294, 65294); (65306, 65306);
   (65342, 65342); (65344, 65344); (65392, 65392); (65438, 65439); (65507, 65507); (65529, 65531);
   (66045, 66045); (66272, 66272); (66422, 66426); (67456, 67461); (67463, 67504); (67506, 67514);
   (68097, 68099); (68101, 68102); (68108, 68111); (68152, 68154); (68159, 68159); (68325, 68326);
   (68900, 68903); (69291, 69292); (69446, 69456); (69506, 69509); (69633, 69633); (69688, 69702);
   (69744, 69744); (69747, 69748); (69759, 69761); (69811, 69814); (69817, 69818); (69821, 69821);
   (69826, 69826); (69837, 69837); (69888, 69890); (69927, 69931); (69933, 69940); (70003, 70003);
   (70016, 70017); (70070, 70078); (70089, 70092); (70095, 70095); (70191, 70193); (70196, 70196);
   (70198, 70199); (70206, 70206); (70367, 70367); (70371, 70378); (70400, 70401); (70459, 70460);
   (70464, 70464); (70502, 70508); (70512, 70516); (70712, 70719); (70722, 70724); (70726, 70726);
   (70750, 70750); (70835, 70840); (70842, 70842); (70847, 70848); (70850, 70851); (71090, 71093);
   (71100, 71101); (71103, 71104); (71132, 71133); (71219, 71226); (71229, 71229); (71231, 71232);
   (71339, 71339); (71341, 71341); (71344, 71349); (71351, 71351); (71453, 71455); (71458, 71461);
   (71463, 71467); (71727, 71735); (71737, 71738); (71995, 71996); (71998, 71998); (72003, 72003);
   (72148, 72151); (72154, 72155); (72160, 72160); (72193, 72202); (72243, 72248); (72251, 72254);
   (72263, 72263); (72273, 72278); (72281, 72283); (72330, 72342); (72344, 72345); (72752, 72758);
   (72760, 72765); (72767, 72767); (72850, 72871); (72874, 72880); (72882, 72883); (72885, 72886);
   (73009, 73014); (73018, 73018); (73020, 73021); (73023, 73029); (73031, 73031); (73104, 73105);
   (73109, 73109); (73111, 73111); (73459, 73460); (78896, 78904); (92912, 92916); (92976, 92982);
   (92992, 92995); (94031, 94031); (94095, 94111); (94176, 94177); (94179, 94180); (110576, 110579);
   (110581, 110587); (110589, 110590); (113821, 113822); (113824, 113827); (118528, 118573); (118576, 118598);
   (119143, 119145); (119155, 119170); (119173, 119179); (119210, 119213); (119362, 119364); (121344, 121398);
   (121403, 121452); (121461, 121461); (121476, 121476); (121499, 121503); (121505, 121519); (122880, 122886);
   (122888, 122904); (122907, 122913); (122915, 122916); (122918, 122922); (123184, 123197); (123566, 123566);
   (123628, 123631); (125136, 125142); (125252, 125259); (127995, 127999); (917505, 917505); (917536, 917631);
   (917760, 917999)].

(** One-to-one lower-case mappings, as runs [(lo, hi, step, target)]:
    [lo + k * step] maps to [target + k * step] for [lo + k * step <= hi]. *)
Definition lower_runs : list (N * N * N * N) :=
[
   (65, 90, 1, 97); (192, 214, 1, 224); (216, 222, 1, 248); (256, 302, 2, 257);
   (306, 310, 2, 307); (313, 327, 2, 314); (330, 374, 2, 331); (376, 376, 1, 255);
   (377, 381, 2, 378); (385, 385, 1, 595); (386, 388, 2, 387); (390, 390, 1, 596);
   (391, 391, 1, 392); (393, 394, 1, 598); (395, 395, 1, 396); (398, 398, 1, 477);
   (399, 399, 1, 601); (400, 400, 1, 603); (401, 401, 1, 402); (403, 403, 1, 608);
   (404, 404, 1, 611); (406, 406, 1, 617); (407, 407, 1, 616); (408, 408, 1, 409);
   (412, 412, 1, 623); (413, 413, 1, 626); (415, 415, 1, 629); (416, 420, 2, 417);
   (422, 422, 1, 640); (423, 423, 1, 424); (425, 425, 1, 643); (428, 428, 1, 429);
   (430, 430, 1, 648); (431, 431, 1, 432); (433, 434, 1, 650); (435, 437, 2, 436);
   (439, 439, 1, 658); (440, 440, 1, 441); (444, 444, 1, 445); (452, 452, 1, 454);
   (453, 453, 1, 454); (455, 455, 1, 457); (456, 456, 1, 457); (458, 458, 1, 460);
   (459, 475, 2, 460); (478, 494, 2, 479); (497, 497, 1, 499); (498, 500, 2, 499);
   (502, 502, 1, 405); (503, 503, 1, 447); (504, 542, 2, 505); (544, 544, 1, 414);
   (546, 562, 2, 547); (570, 570, 1, 11365); (571, 571, 1, 572); (573, 573, 1, 410);
   (574, 574, 1, 11366); (577, 577, 1, 578); (579, 579, 1, 384); (580, 580, 1, 649);
   (581, 581, 1, 652); (582, 590, 2, 583); (880, 882, 2, 881); (886, 886, 1, 887);
   (895, 895, 1, 1011); (902, 902, 1, 940); (904, 906, 1, 941); (908, 908, 1, 972);
   (910, 911, 1, 973); (913, 929, 1, 945); (931, 939, 1, 963); (975, 975, 1, 983);
   (984, 1006, 2, 985); (1012, 1012, 1, 952); (1015, 1015, 1, 1016); (1017, 1017, 1, 1010);
   (1018, 1018, 1, 1019); (1021, 1023, 1, 891); (1024, 1039, 1, 1104); (1040, 1071, 1, 1072);
   (1120, 1152, 2, 1121); (1162, 1214, 2, 1163); (1216, 1216, 1, 1231); (1217, 1229, 2, 1218);
   (1232, 1326, 2, 1233); (1329, 1366, 1, 1377); (4256, 4293, 1, 11520); (4295, 4295, 1, 11559);
   (4301, 4301, 1, 11565); (5024, 5103, 1, 43888); (5104, 5109, 1, 5112); (7312, 7354, 1, 4304);
   (7357, 7359, 1, 4349); (7680, 7828, 2, 7681); (7838, 7838, 1, 223); (7840, 7934, 2, 7841);
   (7944, 7951, 1, 7936); (7960, 7965, 1, 7952); (7976, 7983, 1, 7968); (7992, 7999, 1, 7984);
   (8008, 8013, 1, 8000); (8025, 8031, 2, 8017); (8040, 8047, 1, 8032); (8072, 8079, 1, 8064);
   (8088, 8095, 1, 8080); (8104, 8111, 1, 8096); (8120, 8121, 1, 8112); (8122, 8123, 1, 8048);
   (8124, 8124, 1, 8115); (8136, 8139, 1, 8050); (8140, 8140, 1, 8131); (8152, 8153, 1, 8144);
   (8154, 8155, 1, 8054); (8168, 8169, 1, 8160); (8170, 8171, 1, 8058); (8172, 8172, 1, 8165);
   (8184, 8185, 1, 8056); (8186, 8187, 1, 8060); (8188, 8188, 1, 8179); (8486, 8486, 1, 969);
   (8490, 8490, 1, 107); (8491, 8491, 1, 229); (8498, 8498, 1, 8526); (8544, 8559, 1, 8560);
   (8579, 8579, 1, 8580); (9398, 9423, 1, 9424); (11264, 11311, 1, 11312); (11360, 11360, 1, 11361);
   (11362, 11362, 1, 619); (11363, 11363, 1, 7549); (11364, 11364, 1, 637); (11367, 11371, 2, 11368);
   (11373, 11373, 1, 593); (11374, 11374, 1, 625); (11375, 11375, 1, 592); (11376, 11376, 1, 594);
   (11378, 11378, 1, 11379); (11381, 11381, 1, 11382); (11390, 11391, 1, 575); (11392, 11490, 2, 11393);
   (11499, 11501, 2, 11500); (11506, 11506, 1, 11507); (42560, 42604, 2, 42561); (42624, 42650, 2, 42625);
   (42786, 42798, 2, 42787); (42802, 42862, 2, 42803); (42873, 42875, 2, 42874); (42877, 42877, 1, 7545);
   (42878, 42886, 2, 42879); (42891, 42891, 1, 42892); (42893, 42893, 1, 613); (42896, 42898, 2, 42897);
   (42902, 42920, 2, 42903); (42922, 42922, 1, 614); (42923, 42923, 1, 604); (42924, 42924, 1, 609);
   (42925, 42925, 1, 620); (42926, 42926, 1, 618); (42928, 42928, 1, 670); (42929, 42929, 1, 647);
   (42930, 42930, 1, 669); (42931, 42931, 1, 43859); (42932, 42946, 2, 42933); (42948, 42948, 1, 42900);
   (42949, 42949, 1, 642); (42950, 42950, 1, 7566); (42951, 42953, 2, 42952); (42960, 42960, 1, 42961);
   (42966, 42968, 2, 42967); (42997, 42997, 1, 42998); (65313, 65338, 1, 65345); (66560, 66599, 1, 66600);
   (66736, 66771, 1, 66776); (66928, 66938, 1, 66967); (66940, 66954, 1, 66979); (66956, 66962, 1, 66995);
   (66964, 66965, 1, 67003); (68736, 68786, 1, 68800); (71840, 71871, 1, 71872); (93760, 93791, 1, 93792);
   (125184, 125217, 1, 125218)].

(** Lower-case mappings to more than one character. *)
Definition lower_special : list (N * list N) :=
[
   (304, [105; 775])].

(** One-to-one title-case mappings, as runs. *)
Definition title_runs : list (N * N * N * N) :=
[
   (97, 122, 1, 65); (181, 181, 1, 924); (224, 246, 1, 192); (248, 254, 1, 216);
   (255, 255, 1, 376); (257, 303, 2, 256); (305, 305, 1, 73); (307, 311, 2, 306);
   (314, 328, 2, 313); (331, 375, 2, 330); (378, 382, 2, 377); (383, 383, 1, 83);
   (384, 384, 1, 579); (387, 389, 2, 386); (392, 392, 1, 391); (396, 396, 1, 395);
   (402, 402, 1, 401); (405, 405, 1, 502); (409, 409, 1, 408); (410, 410, 1, 573);
   (414, 414, 1, 544); (417, 421, 2, 416); (424, 424, 1, 423); (429, 429, 1, 428);
   (432, 432, 1, 431); (436, 438, 2, 435); (441, 441, 1, 440); (445, 445, 1, 444);
   (447, 447, 1, 503); (452, 452, 1, 453); (454, 454, 1, 453); (455, 455, 1, 456);
   (457, 457, 1, 456); (458, 458, 1, 459); (460, 476, 2, 459); (477, 477, 1, 398);
   (479, 495, 2, 478); (497, 497, 1, 498); (499, 501, 2, 498); (505, 543, 2, 504);
   (547, 563, 2, 546); (572, 572, 1, 571); (575, 576, 1, 11390); (578, 578, 1, 577);
   (583, 591, 2, 582); (592, 592, 1, 11375); (593, 593, 1, 11373); (594, 594, 1, 11376);
   (595, 595, 1, 385); (596, 596, 1, 390); (598, 599, 1, 393); (601, 601, 1, 399);
   (603, 603, 1, 400); (604, 604, 1, 42923); (608, 608, 1, 403); (609, 609, 1, 42924);
   (611, 611, 1, 404); (613, 613, 1, 42893); (614, 614, 1, 42922); (616, 616, 1, 407);
   (617, 617, 1, 406); (618, 618, 1, 42926); (619, 619, 1, 11362); (620, 620, 1, 42925);
   (623, 623, 1, 412); (625, 625, 1, 11374); (626, 626, 1, 413); (629, 629, 1, 415);
   (637, 637, 1, 11364); (640, 640, 1, 422); (642, 642, 1, 42949); (643, 643, 1, 425);
   (647, 647, 1, 42929); (648, 648, 1, 430); (649, 649, 1, 580); (650, 651, 1, 433);
   (652, 652, 1, 581); (658, 658, 1, 439); (669, 669, 1, 42930); (670, 670, 1, 42928);
   (837, 837, 1, 921); (881, 883, 2, 880); (887, 887, 1, 886); (891, 893, 1, 1021);
   (940, 940, 1, 902); (941, 943, 1, 904); (945, 961, 1, 913); (962, 962, 1, 931);
   (963, 971, 1, 931); (972, 972, 1, 908); (973, 974, 1, 910); (976, 976, 1, 914);
   (977, 977, 1, 920); (981, 981, 1, 934); (982, 982, 1, 928); (983, 983, 1, 975);
   (985, 1007, 2, 984); (1008, 1008, 1, 922); (1009, 1009, 1, 929); (1010, 1010, 1, 1017);
   (1011, 1011, 1, 895); (1013, 1013, 1, 917); (1016, 1016, 1, 1015); (1019, 1019, 1, 1018);
   (1072, 1103, 1, 1040); (1104, 1119, 1, 1024); (1121, 1153, 2, 1120); (1163, 1215, 2, 1162);
   (1218, 1230, 2, 1217); (1231, 1231, 1, 1216); (1233, 1327, 2, 1232); (1377, 1414, 1, 1329);
   (5112, 5117, 1, 5104); (7296, 7296, 1, 1042); (7297, 7297, 1, 1044); (7298, 7298, 1, 1054);
   (7299, 7300, 1, 1057); (7301, 7301, 1, 1058); (7302, 7302, 1, 1066); (7303, 7303, 1, 1122);
   (7304, 7304, 1, 42570); (7545, 7545, 1, 42877); (7549, 7549, 1, 11363); (7566, 7566, 1, 42950);
   (7681, 7829, 2, 7680); (7835, 7835, 1, 7776); (7841, 7935, 2, 7840); (7936, 7943, 1, 7944);
   (7952, 7957, 1, 7960); (7968, 7975, 1, 7976); (7984, 7991, 1, 7992); (8000, 8005, 1, 8008);
   (8017, 8023, 2, 8025); (8032, 8039, 1, 8040); (8048, 8049, 1, 8122); (8050, 8053, 1, 8136);
   (8054, 8055, 1, 8154); (8056, 8057, 1, 8184); (8058, 8059, 1, 8170); (8060, 8061, 1, 8186);
   (8064, 8071, 1, 8072); (8080, 8087, 1, 8088); (8096, 8103, 1, 8104); (8112, 8113, 1, 8120);
   (8115, 8115, 1, 8124); (8126, 8126, 1, 921); (8131, 8131, 1, 8140); (8144, 8145, 1, 8152);
   (8160, 8161, 1, 8168); (8165, 8165, 1, 8172); (8179, 8179, 1, 8188); (8526, 8526, 1, 8498);
   (8560, 8575, 1, 8544); (8580, 8580, 1, 8579); (9424, 9449, 1, 9398); (11312, 11359, 1, 11264);
   (11361, 11361, 1, 11360); (11365, 11365, 1, 570); (11366, 11366, 1, 574); (11368, 11372, 2, 11367);
   (11379, 11379, 1, 11378); (11382, 11382, 1, 11381); (11393, 11491, 2, 11392); (11500, 11502, 2, 11499);
   (11507, 11507, 1, 11506); (11520, 11557, 1, 4256); (11559, 11559, 1, 4295); (11565, 11565, 1, 4301);
   (42561, 42605, 2, 42560); (42625, 42651, 2, 42624); (42787, 42799, 2, 42786); (42803, 42863, 2, 42802);
   (42874, 42876, 2, 42873); (42879, 42887, 2, 42878); (42892, 42892, 1, 42891); (42897, 42899, 2, 42896);
   (42900, 42900, 1, 42948); (42903, 42921, 2, 42902); (42933, 42947, 2, 42932); (42952, 42954, 2, 42951);
   (42961, 42961, 1, 42960); (42967, 42969, 2, 42966); (42998, 42998, 1, 42997); (43859, 43859, 1, 42931);
   (43888, 43967, 1, 5024); (65345, 65370, 1, 65313); (66600, 66639, 1, 66560); (66776, 66811, 1, 66736);
   (66967, 66977, 1, 66928); (66979, 66993, 1, 66940); (66995, 67001, 1, 66956); (67003, 67004, 1, 66964);
   (68800, 68850, 1, 68736); (71872, 71903, 1, 71840); (93792, 93823, 1, 93760); (125218, 125251, 1, 125184)].

(** Title-case mappings to more than one character. *)
Definition title_special : list (N * list N) :=
[
   (223, [83; 115]); (329, [700; 78]); (496, [74; 780]); (912, [921; 776; 769]);
   (944, [933; 776; 769]); (1415, [1333; 1410]); (7830, [72; 817]); (7831, [84; 776]);
   (7832, [87; 778]); (7833, [89; 778]); (7834, [65; 702]); (8016, [933; 787]);
   (8018, [933; 787; 768]); (8020, [933; 787; 769]); (8022, [933; 787; 834]); (8114, [8122; 837]);
   (8116, [902; 837]); (8118, [913; 834]); (8119, [913; 834; 837]); (8130, [8138; 837]);
   (8132, [905; 837]); (8134, [919; 834]); (8135, [919; 834; 837]); (8146, [921; 776; 768]);
   (8147, [921; 776; 769]); (8150, [921; 834]); (8151, [921; 776; 834]); (8162, [933; 776; 768]);
   (8163, [933; 776; 769]); (8164, [929; 787]); (8166, [933; 834]); (8167, [933; 776; 834]);
   (8178, [8186; 837]); (8180, [911; 837]); (8182, [937; 834]); (8183, [937; 834; 837]);
   (64256, [70; 102]); (64257, [70; 105]); (64258, [70; 108]); (64259, [70; 102; 105]);
   (64260, [70; 102; 108]); (64261, [83; 116]); (64262, [83; 116]); (64275, [1348; 1398]);
   (64276, [1348; 1381]); (64277, [1348; 1387]); (64278, [1358; 1398]); (64279, [1348; 1389])].

Definition in_ranges (rs : list (N * N)) (c : N) : bool :=
  existsb (fun r => (fst r <=? c) && (c <=? snd r)) rs.

(** [_PyUnicode_IsCased] and [_PyUnicode_IsCaseIgnorable]. *)
Definition is_cased (c : N) : bool := in_ranges cased_ranges c.
Definition is_case_ignorable (c : N) : bool := in_ranges case_ignorable_ranges c.

Fixpoint run_lookup (rs : list (N * N * N * N)) (c : N) : option N :=
  match rs with
  | [] => None
  | (lo, hi, st, t) :: rs' =>
      if (lo <=? c) && (c <=? hi) && ((c - lo) mod st =? 0) then Some (t + (c - lo))
      else run_lookup rs' c
  end.

Fixpoint special_lookup (sp : list (N * list N)) (c : N) : option (list N) :=
  match sp with
  | [] => None
  | (k, v) :: sp' => if c =? k then Some v else special_lookup sp' c
  end.

Definition case_map (runs : list (N * N * N * N)) (sp : list (N * list N)) (c : N) : str :=
  match special_lookup sp c with
  | Some v => v
  | None => match run_lookup runs c with Some d => [d] | None => [c] end
  end.

(** [_PyUnicode_ToLowerFull] and [_PyUnicode_ToTitleFull]. *)
Definition lower_full (c : N) : str := case_map lower_runs lower_special c.
Definition title_full (c : N) : str := case_map title_runs title_special c.

(** [handle_capital_sigma]: [before] holds the preceding characters, nearest
    first, [after] the following ones. *)
Definition final_sigma (before after : str) : bool :=
  match find (fun c => negb (is_case_ignorable c)) before with
  | Some c =>
      is_cased c
      && match find (fun c => negb (is_case_ignorable c)) after with
         | Some d => negb (is_cased d)
         | None => true
         end
  | None => false
  end.

(** [lower_ucs4]: U+03A3 becomes the final or the medial small sigma. *)
Definition lower_at (before : str) (c : N) (after : str) : str :=
  if c =? 931 then [if final_sigma before after then 962 else 963] else lower_full c.

Fixpoint lower_from (before s : str) : str :=
  match s with
  | [] => []
  | c :: r => lower_at before c r ++ lower_from (c :: before) r
  end.

(** [s.lower()] *)
Definition lower (s : str) : str := lower_from [] s.

(** [do_title]: a character after a cased character is lower-cased, any
    other character is title-cased. *)
Fixpoint title_from (prev_cased : bool) (before s : str) : str :=
  match s with
  | [] => []
  | c :: r =>
      (if prev_cased then lower_at before c r else title_full c)
      ++ title_from (is_cased c) (c :: before) r
  end.

(** [s.title()] *)
Definition title (s : str) : str := title_from false [] s.

(** [s.capitalize()] ([do_capitalize]): the first character title-cased, the
    others lower-cased. *)
Definition capitalize (s : str) : str :=
  match s with [] => [] | c :: r => title_full c ++ lower_from [c] r end.

(** [re.sub(r'\s+', ' ', s)] *)
Fixpoint collapse_ws_aux (in_run : bool) (s : str) : str :=
  match s with
  | [] => []
  | c :: r =>
      if is_space c then (if in_run then collapse_ws_aux true r else 32 :: collapse_ws_aux true r)
      else c :: collapse_ws_aux false r
  end.

Definition collapse_ws (s : str) : str := collapse_ws_aux false s.

(* ------------------------------------------------------------------ *)
(** ** [normalize_name] *)

(** [re.sub(r'^(By[:\s]+)', '', s, flags=re.I)] *)
Definition is_b (c : N) : bool := (c =? 66) || (c =? 98).
Definition is_y (c : N) : bool := (c =? 89) || (c =? 121).
Definition by_sep (c : N) : bool := (c =? 58) || is_space c.

Fixpoint drop_by_seps (s : str) : str :=
  match s with
  | c :: r => if by_sep c then drop_by_seps r else s
  | [] => []
  end.

Definition strip_by_prefix (s : str) : str :=
  match s with
  | b :: y :: c :: r => if is_b b && is_y y && by_sep c then drop_by_seps r else s
  | _ => s
  end.

(** [re.sub(r'[\u200b\u200c\u200d]', '', s)] *)
Definition zero_width (c : N) : bool := (c =? 8203) || (c =? 8204) || (c =? 8205).

(** The punctuation class of line 64: . , / ( ) [ ] * the double quote,
    U+201C, U+201D, the apostrophe and the backquote. *)
Definition name_punct (c : N) : bool :=
  existsb (N.eqb c) [46; 44; 47; 40; 41; 91; 93; 42; 34; 8220; 8221; 39; 96]%N.

Definition normalize_name (name : str) : str :=
  match name with
  | [] => []
  | _ =>
      let s := strip name in
      let s := strip_by_prefix s in
      let s := filter (fun c => negb (zero_width c)) s in
      let s := map (fun c => if name_punct c then 32%N else c) s in
      let s := strip (collapse_ws s) in
      if Nat.leb (List.length s) 1 then [] else title s
  end.

(* ------------------------------------------------------------------ *)
(** ** [_prefer_newer] *)

Definition UNKNOWN : str := u "Unknown".

(** Truthiness of a string: [not s]. *)
Definition is_empty (s : str) : bool := match s with [] => true | _ => false end.

(** The ASCII class [[0-9]]. *)
Definition is_digit (c : N) : bool := (48 <=? c) && (c <=? 57).
Definition is_date_sep (c : N) : bool := (c =? 45) || (c =? 47).

(** The value of a decimal digit of any script ([Py_UNICODE_TODECIMAL]). *)
Definition decimal_value (c : N) : option N :=
  match find (fun z => (z <=? c) && (c <=? z + 9)) decimal_zeros with
  | Some z => Some (c - z)
  | None => None
  end.

(** Regex [\d] on a [str] pattern: any decimal digit. *)
Definition is_decimal (c : N) : bool :=
  match decimal_value c with Some _ => true | None => false end.

(** [int(...)] of a run of decimal digits. *)
Definition digits_val (l : str) : Z :=
  fold_left (fun acc c => (acc * 10 + Z.of_N (match decimal_value c with Some v => v | None => 0 end))%Z) l 0%Z.

(** [(\d{1,2})] at the end of the pattern: greedy. *)
Definition match_day (s : str) : option str :=
  match s with
  | d1 :: d2 :: _ => if is_decimal d1 then (if is_decimal d2 then Some [d1; d2] else Some [d1]) else None
  | [d1] => if is_decimal d1 then Some [d1] else None
  | [] => None
  end.

(** [(\d{1,2})[-/](\d{1,2})]: the month group is tried with two digits first,
    then with one (backtracking). *)
Definition match_month_day (s : str) : option (str * str) :=
  let two :=
    match s with
    | d1 :: d2 :: sp :: r =>
        if is_decimal d1 && is_decimal d2 && is_date_sep sp
        then option_map (fun d => ([d1; d2], d)) (match_day r) else None
    | _ => None
    end in
  match two with
  | Some g => Some g
  | None =>
      match s with
      | d1 :: sp :: r =>
          if is_decimal d1 && is_date_sep sp then option_map (fun d => ([d1], d)) (match_day r) else None
      | _ => None
      end
  end.

(** [(\d{4})[-/](\d{1,2})[-/](\d{1,2})] anchored at the start of [s]. *)
Definition match_ymd_at (s : str) : option (str * str * str) :=
  match s with
  | a :: b :: c :: d :: sp :: r =>
      if forallb is_decimal [a; b; c; d] && is_date_sep sp
      then option_map (fun '(m, dd) => ([a; b; c; d], m, dd)) (match_month_day r)
      else None
  | _ => None
  end.

(** [re.search]: the leftmost match. *)
Fixpoint search_ymd (s : str) : option (str * str * str) :=
  match s with
  | [] => None
  | _ :: r => match match_ymd_at s with Some g => Some g | None => search_ymd r end
  end.

Definition leap_year (y : Z) : bool :=
  (Z.eqb (y mod 4) 0 && negb (Z.eqb (y mod 100) 0)) || Z.eqb (y mod 400) 0.

Definition days_in_month (y m : Z) : Z :=
  if Z.eqb m 2 then (if leap_year y then 29 else 28)
  else if Z.eqb m 4 || Z.eqb m 6 || Z.eqb m 9 || Z.eqb m 11 then 30 else 31.

(** [datetime.date(y, m, d)], [None] where it raises [ValueError]. *)
Definition date (y m d : Z) : option (Z * Z * Z) :=
  if (1 <=? y)%Z && (y <=? 9999)%Z && (1 <=? m)%Z && (m <=? 12)%Z
     && (1 <=? d)%Z && (d <=? days_in_month y m)%Z
  then Some (y, m, d) else None.

Definition parse_iso (d : str) : option (Z * Z * Z) :=
  match search_ymd d with
  | Some (y, mn, dd) => date (digits_val y) (digits_val mn) (digits_val dd)
  | None => None
  end.

(** [cd > ed] on [datetime.date]. *)
Definition date_gtb (a b : Z * Z * Z) : bool :=
  let '(y1, m1, d1) := a in
  let '(y2, m2, d2) := b in
  (y2 <? y1)%Z || ((y1 =? y2)%Z && ((m2 <? m1)%Z || ((m1 =? m2)%Z && (d2 <? d1)%Z))).

Definition _prefer_newer (existing_date candidate_date : str) : bool :=
  if is_empty candidate_date || str_eqb candidate_date UNKNOWN then false
  else if is_empty existing_date || str_eqb existing_date UNKNOWN then true
  else
    match parse_iso candidate_date, parse_iso existing_date with
    | Some cd, Some ed => date_gtb cd ed
    | _, _ => Nat.ltb (List.length existing_date) (List.length candidate_date)
    end.

(* ------------------------------------------------------------------ *)
(** ** [normalize_beat] *)

(** The class [[\s\|/,&]] and [[^a-z0-9 ]]. *)
Definition beat_sep (c : N) : bool := is_space c || (c =? 124) || (c =? 47) || (c =? 44) || (c =? 38).
Definition beat_keep (c : N) : bool := is_lower c || is_digit c || (c =? 32).

Fixpoint collapse_beat_sep (in_run : bool) (s : str) : str :=
  match s with
  | [] => []
  | c :: r =>
      if beat_sep c then (if in_run then collapse_beat_sep true r else 32 :: collapse_beat_sep true r)
      else c :: collapse_beat_sep false r
  end.

(** [s.split()] *)
Fixpoint split_ws_aux (cur : str) (s : str) : list str :=
  match s with
  | [] => match cur with [] => [] | _ => [rev cur] end
  | c :: r =>
      if is_space c then (match cur with [] => split_ws_aux [] r | _ => rev cur :: split_ws_aux [] r end)
      else split_ws_aux (c :: cur) r
  end.

Definition split_ws (s : str) : list str := split_ws_aux [] s.

(** The [mapping] dict, in insertion order. *)
Definition beat_mapping : list (str * str) :=
  [(u "breaking news", u "Breaking"); (u "breaking world news", u "Breaking");
   (u "breaking news india", u "Breaking"); (u "world news", u "World");
   (u "world", u "World"); (u "politics", u "Politics"); (u "business", u "Business");
   (u "economy", u "Business"); (u "technology", u "Technology"); (u "tech", u "Technology");
   (u "sport", u "Sports"); (u "sports", u "Sports"); (u "editorial", u "Editorial");
   (u "opinion", u "Opinion"); (u "analysis", u "Analysis");
   (u "entertainment", u "Entertainment"); (u "lifestyle", u "Lifestyle");
   (u "science", u "Science"); (u "health", u "Health"); (u "travel", u "Travel");
   (u "news", u "News")].

Definition normalize_beat (raw : str) : str :=
  match raw with
  | [] => UNKNOWN
  | _ =>
      let s := lower (strip raw) in
      let s := collapse_beat_sep false s in
      let s := filter beat_keep s in
      match find (fun kv => containsb s (fst kv)) beat_mapping with
      | Some (_, v) => v
      | None =>
          match split_ws s with
          | token :: _ => capitalize token
          | [] => UNKNOWN
          end
      end
  end.

(* ------------------------------------------------------------------ *)
(** ** [extract_authors]: the cleaning of the collected names (lines 219-230)

    [raw] is the set [authors] built from the page's markup (lines 202-218),
    in the set's iteration order. *)

Definition mem_str (x : str) (l : list str) : bool := existsb (str_eqb x) l.

Definition author_placeholders : list str :=
  [u "contributors"; u "staff"; u "editorial"; u "team"; u "s"].

Definition clean_authors (raw : list str) : list str :=
  let cleaned :=
    filter (fun s => negb (Nat.ltb (List.length s) 2) && negb (mem_str (lower s) author_placeholders))
           (map (fun a => strip (collapse_ws a)) raw) in
  match cleaned with
  | [] => [UNKNOWN]
  | _ => cleaned
  end.

(* ------------------------------------------------------------------ *)
(** ** The profile map

    A Python dict keeps insertion order, which [max] over [beat_counts.items()]
    and the iteration of [_finalize_profiles] observe: both dicts are
    association lists updated in place. A [beat_counts] of [None] is an entry
    from which [_finalize_profiles] has popped the key. *)

Record entry := mk_entry {
  e_name : str;
  e_beat_counts : option (list (str * nat));
  e_beat : str;
  e_latest_article : str;
  e_article_url : str;
  e_publication_date : str;
  e_articles_count : nat
}.

Definition profiles_map := list (str * entry).

Fixpoint dict_get {V} (k : str) (m : list (str * V)) : option V :=
  match m with
  | [] => None
  | (k', v) :: r => if str_eqb k k' then Some v else dict_get k r
  end.

(** [d[k] = v]: in place when [k] is present, appended otherwise. *)
Fixpoint dict_set {V} (k : str) (v : V) (m : list (str * V)) : list (str * V) :=
  match m with
  | [] => [(k, v)]
  | (k', v') :: r => if str_eqb k k' then (k', v) :: r else (k', v') :: dict_set k v r
  end.

Definition with_count (e : entry) (n : nat) : entry :=
  mk_entry (e_name e) (e_beat_counts e) (e_beat e) (e_latest_article e) (e_article_url e)
           (e_publication_date e) n.

Definition with_beat_counts (e : entry) (bc : option (list (str * nat))) : entry :=
  mk_entry (e_name e) bc (e_beat e) (e_latest_article e) (e_article_url e)
           (e_publication_date e) (e_articles_count e).

Definition with_beat (e : entry) (b : str) : entry :=
  mk_entry (e_name e) (e_beat_counts e) b (e_latest_article e) (e_article_url e)
           (e_publication_date e) (e_articles_count e).

Definition with_latest (e : entry) (date title url : str) : entry :=
  mk_entry (e_name e) (e_beat_counts e) (e_beat e) title url date (e_articles_count e).

Definition or_unknown (s : str) : str := if is_empty s then UNKNOWN else s.

(** Lines 387-395. *)
Definition new_entry (norm section title url pub_date : str) : entry :=
  mk_entry norm (if is_empty section then Some [] else Some [(section, 1%nat)])
           (or_unknown section) (or_unknown title) url (or_unknown pub_date) 1.

(** Lines 381-403 for one author. The boolean is [true] when the body raises:
    [entry['beat_counts']] is a [KeyError] once the key has been popped. The
    mutations done before the raise stay in the map. *)
Definition merge_author (m : profiles_map) (url title pub_date section author : str)
  : profiles_map * bool :=
  let norm := normalize_name author in
  if is_empty norm then (m, false) else
  let key := lower norm in
  match dict_get key m with
  | None => (dict_set key (new_entry norm section title url pub_date) m, false)
  | Some e =>
      let e1 := with_count e (S (e_articles_count e)) in
      let finish (e2 : entry) :=
        if _prefer_newer (e_publication_date e2) pub_date
        then (dict_set key (with_latest e2 pub_date title url) m, false)
        else (dict_set key e2 m, false) in
      if is_empty section then finish e1 else
      match e_beat_counts e1 with
      | None => (dict_set key e1 m, true)
      | Some bc =>
          let n := match dict_get section bc with Some c => c | None => 0%nat end in
          finish (with_beat_counts e1 (Some (dict_set section (S n) bc)))
      end
  end.

Fixpoint merge_authors (m : profiles_map) (url title pub_date section : str) (authors : list str)
  : profiles_map * bool :=
  match authors with
  | [] => (m, false)
  | a :: r =>
      let (m1, raised) := merge_author m url title pub_date section a in
      if raised then (m1, true) else merge_authors m1 url title pub_date section r
  end.

(** What [extract_title], [extract_pub_date] and [extract_section] read from
    a fetched page, with the raw author set of [extract_authors]. *)
Record page := mk_page {
  pg_authors : list str;
  pg_title : str;
  pg_pub_date : str;
  pg_section : str
}.

(** Lines 375-403. *)
Definition process_page (m : profiles_map) (url : str) (pg : page) : profiles_map * bool :=
  let authors := clean_authors (pg_authors pg) in
  let section := normalize_beat (normalize_beat (pg_section pg)) in
  merge_authors m url (pg_title pg) (pg_pub_date pg) section authors.

(* ------------------------------------------------------------------ *)
(** ** [_finalize_profiles] *)

Record profile := mk_profile {
  name : str;
  beat : str;
  latest_article : str;
  article_url : str;
  publication_date : str;
  articles_count : nat
}.

Definition blacklist : list str :=
  [u "contributors"; u "staff"; u "editorial"; u "team"; u "unknown"; u "s"].

(** [max(items, key=lambda x: x[1])]: the first maximal item. *)
Definition best_beat (bc : list (str * nat)) : option (str * nat) :=
  fold_left (fun best kv =>
               match best with
               | None => Some kv
               | Some b => if Nat.ltb (snd b) (snd kv) then Some kv else Some b
               end) bc None.

(** Lines 420-434 for one entry: the profile appended, if any, and the entry
    as mutated in the map ([v['beat'] = best], [v.pop('beat_counts')]). *)
Definition finalize_entry (v : entry) : option profile * entry :=
  let name_low := lower (strip (e_name v)) in
  if is_empty name_low || mem_str name_low blacklist then (None, v) else
  let v1 :=
    match e_beat_counts v with
    | Some ((_ :: _) as bc) =>
        match best_beat bc with
        | Some (b, _) => with_beat v (or_unknown b)
        | None => v
        end
    | _ => v
    end in
  let v2 := with_beat_counts v1 None in
  (Some (mk_profile (e_name v2) (e_beat v2) (or_unknown (e_latest_article v2))
                    (e_article_url v2) (e_publication_date v2) (e_articles_count v2)), v2).

Fixpoint finalize_entries (m : profiles_map) : list profile * profiles_map :=
  match m with
  | [] => ([], [])
  | (k, v) :: r =>
      let (po, v') := finalize_entry v in
      let (ps, r') := finalize_entries r in
      (match po with Some p => p :: ps | None => ps end, (k, v') :: r')
  end.

(** The sort key [(-articles_count, name)]. *)
Definition key_ltb (p q : profile) : bool :=
  Nat.ltb (articles_count q) (articles_count p)
  || (Nat.eqb (articles_count p) (articles_count q) && str_ltb (name p) (name q)).

(** [list.sort] is stable: insertion sort, an element going before the
    elements whose key is not smaller. *)
Fixpoint insert_profile (x : profile) (l : list profile) : list profile :=
  match l with
  | [] => [x]
  | y :: r => if key_ltb y x then y :: insert_profile x r else x :: y :: r
  end.

Definition sort_profiles (l : list profile) : list profile := fold_right insert_profile [] l.

(** Returns the profile list and the map as the call leaves it. *)
Definition _finalize_profiles (m : profiles_map) : list profile * profiles_map :=
  let (ps, m') := finalize_entries m in
  let ps := sort_profiles ps in
  (firstn (Nat.max 30 (List.length ps)) ps, m').

(* ------------------------------------------------------------------ *)
(** ** The loop of [extract_profiles] (lines 363-414)

    [fetch url] is the page when the robots check passes and the GET answers
    200, [None] when the iteration [continue]s before extraction. *)

Definition WRITE_PROGRESS_EVERY : nat := 5.

Record run_state := mk_run {
  rs_map : profiles_map;
  rs_processed : nat;
  rs_requested : list str;            (* URLs whose robots check and GET were issued *)
  rs_checkpoints : list (list profile) (* profile lists written to data.json *)
}.

Definition init_run : run_state := mk_run [] 0 [] [].

Fixpoint profiles_loop (min_profiles : nat) (fetch : str -> option page) (urls : list str)
  (st : run_state) : run_state :=
  match urls with
  | [] => st
  | url :: rest =>
      if Nat.leb min_profiles (List.length (rs_map st)) then st else
      let req := rs_requested st ++ [url] in
      match fetch url with
      | None => profiles_loop min_profiles fetch rest
                  (mk_run (rs_map st) (rs_processed st) req (rs_checkpoints st))
      | Some pg =>
          let (m1, raised) := process_page (rs_map st) url pg in
          if raised then
            profiles_loop min_profiles fetch rest (mk_run m1 (rs_processed st) req (rs_checkpoints st))
          else
            let processed := S (rs_processed st) in
            if Nat.eqb (Nat.modulo processed WRITE_PROGRESS_EVERY) 0 then
              let (ps, m2) := _finalize_profiles m1 in
              profiles_loop min_profiles fetch rest (mk_run m2 processed req (rs_checkpoints st ++ [ps]))
            else
              profiles_loop min_profiles fetch rest (mk_run m1 processed req (rs_checkpoints st))
      end
  end.

(** [extract_profiles] once [find_article_links] has returned [urls]. *)
Definition extract_profiles_urls (min_profiles : nat) (fetch : str -> option page) (urls : list str)
  : list profile :=
  fst (_finalize_profiles (rs_map (profiles_loop min_profiles fetch urls init_run))).

(* ------------------------------------------------------------------ *)
(** ** [find_article_links]

    A URL is kept as the fields [urlparse] gives it (no fragment); [urljoin]
    is done by the fetch oracle, which returns the resolved [href]s of a page
    (empty [href]s already skipped). [full.split('?')[0]] drops the query. *)

Record url := mk_url { url_scheme : str; url_netloc : str; url_path : str; url_query : str }.

Definition url_eqb (a b : url) : bool :=
  str_eqb (url_scheme a) (url_scheme b) && str_eqb (url_netloc a) (url_netloc b)
  && str_eqb (url_path a) (url_path b) && str_eqb (url_query a) (url_query b).

Definition mem_url (x : url) (l : list url) : bool := existsb (url_eqb x) l.

Definition drop_query (x : url) : url := mk_url (url_scheme x) (url_netloc x) (url_path x) [].

Definition MAX_ARTICLE_URLS : nat := 800.

Definition seeds : list str :=
  [u ""; u "/news"; u "/latest"; u "/world"; u "/articles"; u "/section"; u "/topics";
   u "/author"; u "/authors"; u "/contributors"; u "/staff"].

(** [urljoin(base_url, s)] for a base [scheme://netloc] and an absolute path [s]. *)
Definition join_seed (base : url) (s : str) : url :=
  mk_url (url_scheme base) (url_netloc base) s [].

(** [\d{1,2}/] with backtracking. *)
Definition match_12_slash (s : str) : option str :=
  match s with
  | d1 :: d2 :: sl :: r =>
      if is_decimal d1 && is_decimal d2 && (sl =? 47) then Some r
      else if is_decimal d1 && (d2 =? 47) then Some (sl :: r) else None
  | [d1; d2] => if is_decimal d1 && (d2 =? 47) then Some [] else None
  | _ => None
  end.

(** [/\d{4}/\d{1,2}/\d{1,2}/] anchored at the start. *)
Definition match_dated_at (s : str) : bool :=
  match s with
  | s0 :: a :: b :: c :: d :: s1 :: r =>
      if (s0 =? 47) && forallb is_decimal [a; b; c; d] && (s1 =? 47) then
        match match_12_slash r with
        | Some r' => match match_12_slash r' with Some _ => true | None => false end
        | None => false
        end
      else false
  | _ => false
  end.

Fixpoint search_dated (s : str) : bool :=
  match s with
  | [] => false
  | _ :: r => match_dated_at s || search_dated r
  end.

Definition is_article_path (path : str) : bool :=
  search_dated path
  || existsb (containsb path)
       [u "/article"; u "/news/"; u "/story"; u "/opinion"; u "/feature"; u "/analysis";
        u "/reports"; u "/sport"; u "/sports"].

Fixpoint lstrip_slash (s : str) : str :=
  match s with
  | c :: r => if c =? 47 then lstrip_slash r else s
  | [] => []
  end.

(** [len(path.strip('/').split('/'))] *)
Definition path_depth (path : str) : nat :=
  let t := rev (lstrip_slash (rev (lstrip_slash path))) in
  S (List.length (filter (fun c => c =? 47) t)).

Definition is_index_path (path : str) : bool :=
  existsb (containsb path) [u "/author"; u "/authors"; u "/staff"; u "/contributors"; u "/profile"]
  || Nat.leb (path_depth path) 3.

(** Lines 339-352 for one resolved link: the new [article_links] (a set,
    kept in insertion order) and [to_visit]. *)
Definition process_link (domain : str) (seen : list url) (acc : list url * list url) (full : url)
  : list url * list url :=
  let (links, to_visit) := acc in
  if negb (containsb (lower (url_netloc full)) domain) then acc else
  let path := lower (url_path full) in
  let links := if is_article_path path
               then (if mem_url (drop_query full) links then links else links ++ [drop_query full])
               else links in
  let to_visit := if is_index_path path
                  then (if mem_url full seen then to_visit else to_visit ++ [full])
                  else to_visit in
  (links, to_visit).

Record crawl := mk_crawl { cr_to_visit : list url; cr_seen : list url; cr_links : list url }.

(** The [while] loop, run for at most [fuel] iterations. [robots] is
    [allowed_by_robots]; [fetch] answers [None] on a non-200 status or a
    raised exception. *)
Fixpoint crawl_loop (fuel : nat) (robots : url -> bool) (fetch : url -> option (list url))
  (domain : str) (c : crawl) : crawl :=
  match fuel with
  | O => c
  | S fuel' =>
      match cr_to_visit c with
      | [] => c
      | x :: rest =>
          if negb (Nat.ltb (List.length (cr_links c)) MAX_ARTICLE_URLS) then c else
          if mem_url x (cr_seen c) then
            crawl_loop fuel' robots fetch domain (mk_crawl rest (cr_seen c) (cr_links c))
          else
            let seen := cr_seen c ++ [x] in
            if negb (robots x) then
              crawl_loop fuel' robots fetch domain (mk_crawl rest seen (cr_links c))
            else
              match fetch x with
              | None => crawl_loop fuel' robots fetch domain (mk_crawl rest seen (cr_links c))
              | Some hrefs =>
                  let (links, tv) := fold_left (process_link domain seen) hrefs (cr_links c, rest) in
                  crawl_loop fuel' robots fetch domain (mk_crawl tv seen links)
              end
      end
  end.

Definition find_article_links (fuel : nat) (robots : url -> bool) (fetch : url -> option (list url))
  (base_url : url) : list url :=
  let domain := lower (url_netloc base_url) in
  let to_visit := base_url :: map (join_seed base_url) seeds in
  firstn MAX_ARTICLE_URLS (cr_links (crawl_loop fuel robots fetch domain (mk_crawl to_visit [] []))).

(** Host comparison used to read the spec's same-domain requirement: the
    host equals the crawl domain or is a subdomain of it. *)
Definition same_domain (host domain : str) : bool :=
  str_eqb host domain || prefixb (rev (46 :: domain)) (rev host).

(* ------------------------------------------------------------------ *)
(** ** [_atomic_write_json]

    The file system as the process sees it: each path maps to the contents
    of the file, if any. Every operating-system call takes one tick of a
    failure oracle [fails]: a call whose tick is failing raises and has no
    effect. [ws_trace] lists every state the file system passes through, so
    a termination of the process at any point leaves one of them on disk.
    [json.dump] writes the encoding as a sequence of chunks. *)

Definition fs := str -> option str.

Definition fs_set (f : fs) (p : str) (c : option str) : fs :=
  fun q => if str_eqb q p then c else f q.

Record wstate := mk_ws { ws_fs : fs; ws_tick : nat; ws_trace : list fs }.

Definition init_ws (f : fs) : wstate := mk_ws f 0 [f].

(** A state and exception monad: [None] is a raised exception. *)
Definition M (A : Type) := wstate -> option A * wstate.

Definition ret {A} (a : A) : M A := fun w => (Some a, w).

Definition bind {A B} (m : M A) (k : A -> M B) : M B :=
  fun w => match m w with
           | (Some a, w') => k a w'
           | (None, w') => (None, w')
           end.

Notation "x <- m ;; k" := (bind m (fun x => k)) (at level 61, m at next level, right associativity).

(** [try: m except Exception: h] *)
Definition try_except {A} (m : M A) (h : M A) : M A :=
  fun w => match m w with
           | (Some a, w') => (Some a, w')
           | (None, w') => h w'
           end.

Section AtomicWrite.

Variable fails : nat -> bool.

Definition os_call (eff : fs -> fs) : M unit :=
  fun w =>
    if fails (ws_tick w) then (None, mk_ws (ws_fs w) (S (ws_tick w)) (ws_trace w))
    else let f' := eff (ws_fs w) in (Some tt, mk_ws f' (S (ws_tick w)) (ws_trace w ++ [f'])).

Definition append_file (p : str) (c : str) (f : fs) : fs :=
  fs_set f p (Some (match f p with Some x => x ++ c | None => c end)).

(** [os.replace(tmp, path)]: one atomic step. *)
Definition os_replace (tmp path : str) (f : fs) : fs :=
  fun q => if str_eqb q path then f tmp else if str_eqb q tmp then None else f q.

Fixpoint write_chunks (p : str) (chunks : list str) : M unit :=
  match chunks with
  | [] => ret tt
  | c :: r => _ <- os_call (append_file p c) ;; write_chunks p r
  end.

(** Lines 44-50; [tmp] is the fresh name [tempfile.mkstemp] returns. *)
Definition atomic_attempt (path tmp : str) (chunks : list str) : M unit :=
  _ <- os_call (fun f => fs_set f tmp (Some [])) ;;   (* mkstemp *)
  _ <- write_chunks tmp chunks ;;                     (* json.dump *)
  _ <- os_call (fun f => f) ;;                        (* f.flush() *)
  _ <- os_call (fun f => f) ;;                        (* os.fsync *)
  os_call (os_replace tmp path).

(** Lines 52-56: [open(path, 'w')] truncates, then [json.dump]. *)
Definition direct_write (path : str) (chunks : list str) : M unit :=
  try_except
    (_ <- os_call (fun f => fs_set f path (Some [])) ;; write_chunks path chunks)
    (ret tt).

Definition _atomic_write_json (path tmp : str) (chunks : list str) : M unit :=
  try_except (atomic_attempt path tmp chunks) (direct_write path chunks).

End AtomicWrite.

(* ------------------------------------------------------------------ *)
(** ** [detect_website]: the guessed candidates (lines 107-120)

    The heuristic stage tries these URLs in order with a GET and returns
    [scheme://netloc] of the first that answers 200. *)

(** [re.sub(r'[^A-Za-z0-9 ]+', '', query)] keeps these characters. *)
Definition alnum_or_space (c : N) : bool := is_upper c || is_lower c || is_digit c || (c =? 32).

Definition is_alnum (c : N) : bool := is_upper c || is_lower c || is_digit c.

(** [re.sub(r'[^A-Za-z0-9 ]+', '', query).strip().lower()] *)
Definition name_clean (query : str) : str := lower (strip (filter alnum_or_space query)).

Definition tlds : list str := [u ".com"; u ".co.uk"; u ".org"; u ".in"; u ".net"; u ".news"; u ".co"].

(** [sep.join(l)] *)
Fixpoint join (sep : str) (l : list str) : str :=
  match l with
  | [] => []
  | [x] => x
  | x :: r => x ++ sep ++ join sep r
  end.

Definition candidates (query : str) : list str :=
  let tokens := split_ws (name_clean query) in
  match tokens with
  | [] => []
  | _ => flat_map (fun b => flat_map (fun t => [u "https://www." ++ b ++ t; u "https://" ++ b ++ t]) tlds)
                  [List.concat tokens; join (u "-") tokens]
  end.

(** A character of a host name: [[a-z0-9.-]]. *)
Definition host_char (c : N) : bool := is_lower c || is_digit c || (c =? 46) || (c =? 45).

(* ------------------------------------------------------------------ *)
(** ** [api_scrape] of app.py (lines 72-89)

    [loaded] is what [json.load] returns for data.json, [None] when the
    file is missing or reading it raises. [json.load] builds an object by
    assigning its members in order, so the last binding of a key wins. *)

#[warnings="-register-all"]
Inductive json :=
| JNull
| JBool (b : bool)
| JNum (n : Z)
| JStr (s : str)
| JArr (l : list json)
| JObj (kv : list (str * json)).

Definition obj_get (k : str) (kv : list (str * json)) : option json := dict_get k (rev kv).

Definition api_data (loaded : option json) : list json :=
  match loaded with
  | Some (JArr l) => l
  | Some (JObj kv) =>
      match obj_get (u "profiles") kv with
      | Some (JArr l) => l
      | _ => []
      end
  | _ => []
  end.

(** The dict [_finalize_profiles] appends for a profile (lines 427-434). *)
Definition profile_json (p : profile) : json :=
  JObj [(u "name", JStr (name p)); (u "beat", JStr (beat p)); (u "latest_article", JStr (latest_article p));
        (u "article_url", JStr (article_url p)); (u "publication_date", JStr (publication_date p));
        (u "articles_count", JNum (Z.of_nat (articles_count p)))].

(** The payload of the periodic writes (line 408) and of [main] (lines 458-462). *)
Definition payload_json (outlet website : str) (ps : list profile) : json :=
  JObj [(u "outlet_name", JStr outlet); (u "website", JStr website); (u "profiles", JArr (map profile_json ps))].

(** The placeholder [main] writes first (lines 446-451). *)
Definition initial_json (outlet : str) : json :=
  JObj [(u "outlet_name", JStr outlet); (u "website", JStr []); (u "profiles", JArr []);
        (u "_note", JStr (u "scraper started - partial results may be returned if timeout occurs"))].

(* ------------------------------------------------------------------ *)
(** ** Concrete inputs *)

(** A page with one byline string, title "T" and date 2024-01-01. *)
Definition page1 (author section : string) : page :=
  mk_page [u author] (u "T") (u "2024-01-01") (u section).

(** URL [i] is the one-code-point string [[i]]; it fetches the [i]th page. *)
Definition fetch_list (l : list page) (x : str) : option page :=
  match x with [n] => nth_error l (N.to_nat n) | _ => None end.

Definition urls_n (n : nat) : list str := map (fun i => [N.of_nat i]) (seq 0 n).

(** Five pages of "Al Roy" in Sports, then six in Politics. *)
Definition pages_beat_switch : list page :=
  repeat (page1 "Al Roy" "Sports") 5 ++ repeat (page1 "Al Roy" "Politics") 6.

(** A page with 30 distinct author names "Aax", "Bax", ..., "Dbx". *)
Definition author_i (i : nat) : str :=
  [65 + N.of_nat (Nat.modulo i 26); 97 + N.of_nat (Nat.div i 26); 120].

Definition page30 : page := mk_page (map author_i (seq 0 30)) (u "T") (u "2024-01-01") (u "World").

(** The date 2025-01-01 written with Arabic-Indic digits. *)
Definition arabic_2025_01_01 : str := [1634; 1632; 1634; 1637; 45; 1632; 1633; 45; 1632; 1633].

Definition bbc : url := mk_url (u "https") (u "bbc.com") [] [].
Definition bbc_evil : url := mk_url (u "https") (u "bbc.com.evil.org") (u "/article/x") [].

Definition data_json : str := u "data.json".
Definition tmp_json : str := u ".tmp_data_x".

Definition disk0 : fs := fun q => if str_eqb q data_json then Some (u "[]") else None.

(* ------------------------------------------------------------------ *)
(** ** Helpers for the further properties *)

(** The second half of [normalize_beat], on the cleaned label [s]. *)
Definition beat_choice (s : str) : str :=
  match find (fun kv => containsb s (fst kv)) beat_mapping with
  | Some (_, v) => v
  | None =>
      match split_ws s with
      | token :: _ => capitalize token
      | [] => UNKNOWN
      end
  end.

(** Not a whitespace character. *)
Definition nonspace (c : N) : Prop := is_space c = false.

(** A character of the class [[a-z0-9]]. *)
Definition word_char (c : N) : bool := is_lower c || is_digit c.

(** What the code needs of a [[a-z0-9]] character, as one boolean. *)
Definition word_char_ok (c : N) : bool :=
  negb (is_space c) && negb (beat_sep c) && beat_keep c && N.eqb (lower_c c) c
  && negb (is_space (upper_c c)) && N.eqb (lower_c (upper_c c)) c
  && (c <? 128) && (upper_c c <? 128).

(** An entry [_finalize_profiles] turns into a profile: its stripped,
    lower-cased name is neither empty nor blacklisted. *)
Definition kept_name (n : str) : bool :=
  negb (is_empty (lower (strip n)) || mem_str (lower (strip n)) blacklist).

Definition kept_entry (kv : str * entry) : bool := kept_name (e_name (snd kv)).

(** The names stored in the map, in insertion order. *)
Definition map_names (m : profiles_map) : list str := map (fun kv => e_name (snd kv)) m.

(** A URL kept by [find_article_links] as the code builds it. *)
Definition article_link_ok (v : url) : Prop :=
  url_query v = [] /\ is_article_path (lower (url_path v)) = true.

(** A property of the state kept by a step of the monad, always or when
    the step raises. *)
Definition keeps {A} (P : wstate -> Prop) (m : M A) : Prop := forall w, P w -> P (snd (m w)).

Definition keeps_on_fail {A} (P : wstate -> Prop) (m : M A) : Prop :=
  forall w, P w -> fst (m w) = None -> P (snd (m w)).

(** The path [q] holds [v] now and in every state of the trace. *)
Definition path_fixed (q : str) (v : option str) (w : wstate) : Prop :=
  ws_fs w q = v /\ forall f, In f (ws_trace w) -> f q = v.

(** A character [normalize_name] may output: no punctuation of line 64, no
    zero-width character, and no whitespace other than the space. *)
Definition name_char_ok (c : N) : bool :=
  negb (name_punct c) && negb (zero_width c) && (negb (is_space c) || (c =? 32)).

(** No two adjacent whitespace characters. *)
Fixpoint no_ws_run (s : str) : bool :=
  match s with
  | a :: ((b :: _) as r) => negb (is_space a && is_space b) && no_ws_run r
  | _ => true
  end.

(** [f] holds on every character [t + i], [i <= hi - lo], of the image of
    each run [(lo, hi, step, t)]. *)
Definition run_images_ok (f : N -> bool) (rs : list (N * N * N * N)) : bool :=
  forallb (fun '(lo, hi, _, t) => forallb (fun i => f (t + N.of_nat i)) (seq 0 (S (N.to_nat (hi - lo))))) rs.

(** A character other than whitespace, the punctuation of line 64 and the
    zero-width characters. *)
Definition name_char_solid (c : N) : bool :=
  negb (name_punct c) && negb (zero_width c) && negb (is_space c).

(** How [str.title()] acts on a string whose whitespace is single spaces:
    each space is kept, and each other character becomes a non-empty run of
    solid characters. *)
Inductive expands : str -> str -> Prop :=
| expands_nil : expands [] []
| expands_space (r t : str) : expands r t -> expands (32 :: r) (32 :: t)
| expands_char (c : N) (p r t : str) :
    is_space c = false -> p <> [] -> forallb name_char_solid p = true ->
    expands r t -> expands (c :: r) (p ++ t).

(* ------------------------------------------------------------------ *)
(** ** Predicates used by the statements *)

(** The keys of the map are distinct, and each is the lower-cased name
    stored under it. *)
Definition keyed (m : profiles_map) : Prop :=
  NoDup (map fst m) /\ Forall (fun kv => lower (e_name (snd kv)) = fst kv) m.

(** Every entry of the map has a positive article count. *)
Definition counts_pos (m : profiles_map) : Prop :=
  Forall (fun kv => (1 <= e_articles_count (snd kv))%nat) m.

(** The order of the sort key [(-articles_count, name)]. *)
Definition profile_order (p q : profile) : Prop :=
  (articles_count q < articles_count p)%nat
  \/ (articles_count p = articles_count q /\ str_leb (name p) (name q) = true).

Definition run_pos (st : run_state) : Prop :=
  counts_pos (rs_map st)
  /\ forall ps, In ps (rs_checkpoints st) -> forall p, In p ps -> (1 <= articles_count p)%nat.

Definition links_in_domain (domain : str) (links : list url) : Prop :=
  forall v, In v links -> containsb (lower (url_netloc v)) domain = true.

(** A map holding a "Staff" entry next to a regular author. *)
Definition map_with_staff : profiles_map :=
  [(u "staff", new_entry (u "Staff") (u "Politics") (u "T") (u "/a") (u "2024-01-01"));
   (u "al roy", new_entry (u "Al Roy") (u "Sports") (u "T") (u "/b") (u "2024-01-01"))].

(* ================================================================== *)
(** * Properties *)

Lemma str_eqb_eq (a b : str) : str_eqb a b = true <-> a = b.
Proof.
  revert b; induction a as [|x a IH]; intros [|y b]; simpl; split; intro H;
    try congruence; try discriminate.
  - apply andb_prop in H as [H1 H2]. apply N.eqb_eq in H1. apply IH in H2. subst; reflexivity.
  - injection H as -> ->. rewrite N.eqb_refl. simpl. apply IH. reflexivity.
Qed.

Lemma str_eqb_refl (a : str) : str_eqb a a = true.
Proof. apply str_eqb_eq; reflexivity. Qed.

Lemma str_eqb_neq (a b : str) : a <> b -> str_eqb a b = false.
Proof. intro H. destruct (str_eqb a b) eqn:E; [apply str_eqb_eq in E; contradiction | reflexivity]. Qed.

Section AtomicWriteProofs.

Variable fails : nat -> bool.

Lemma os_call_cases (eff : fs -> fs) (w : wstate) :
  (fst (os_call fails eff w) = None /\ ws_fs (snd (os_call fails eff w)) = ws_fs w
     /\ ws_trace (snd (os_call fails eff w)) = ws_trace w)
  \/ (fst (os_call fails eff w) = Some tt /\ ws_fs (snd (os_call fails eff w)) = eff (ws_fs w)
     /\ ws_trace (snd (os_call fails eff w)) = ws_trace w ++ [eff (ws_fs w)]).
Proof. unfold os_call. destruct (fails (ws_tick w)); [left | right]; repeat split. Qed.

Lemma bind_os_call {B} (eff : fs -> fs) (k : unit -> M B) (w : wstate) :
  bind (os_call fails eff) k w =
  match fst (os_call fails eff w) with
  | Some a => k a (snd (os_call fails eff w))
  | None => (None, snd (os_call fails eff w))
  end.
Proof. unfold bind. destruct (os_call fails eff w) as [[a|] w']; reflexivity. Qed.

(** Writing chunks to [p] leaves every other path untouched in every state
    it passes through, and on success [p] holds the chunks appended. *)
Lemma write_chunks_frame (p q : str) (chunks : list str) (w : wstate) :
  q <> p ->
  (forall f, In f (ws_trace (snd (write_chunks fails p chunks w))) -> In f (ws_trace w) \/ f q = ws_fs w q)
  /\ ws_fs (snd (write_chunks fails p chunks w)) q = ws_fs w q.
Proof.
  intro Hqp. revert w. induction chunks as [|c r IH]; intro w.
  - simpl. split; auto.
  - simpl. rewrite bind_os_call.
    destruct (os_call_cases (append_file p c) w) as [[H1 [H2 H3]] | [H1 [H2 H3]]]; rewrite H1.
    + simpl. rewrite H2, H3. split; auto.
    + destruct (IH (snd (os_call fails (append_file p c) w))) as [IH1 IH2].
      assert (Hq : append_file p c (ws_fs w) q = ws_fs w q).
      { unfold append_file, fs_set. rewrite str_eqb_neq; auto. }
      rewrite H2 in IH1, IH2. rewrite Hq in IH1, IH2. split; [|exact IH2].
      intros f Hf. destruct (IH1 f Hf) as [Hin | Heq]; [|auto].
      rewrite H3 in Hin. apply in_app_or in Hin as [Hin | [Hf' | []]]; [auto|].
      subst f. right. exact Hq.
Qed.

Lemma write_chunks_ok (p : str) (chunks : list str) (w : wstate) (x : str) :
  ws_fs w p = Some x ->
  fst (write_chunks fails p chunks w) = Some tt ->
  ws_fs (snd (write_chunks fails p chunks w)) p = Some (x ++ List.concat chunks).
Proof.
  revert w x. induction chunks as [|c r IH]; intros w x Hx Hok.
  - simpl. rewrite app_nil_r. exact Hx.
  - simpl in *. rewrite bind_os_call in *.
    destruct (os_call_cases (append_file p c) w) as [[H1 [H2 H3]] | [H1 [H2 H3]]];
      rewrite H1 in *; [discriminate|].
    rewrite app_assoc. apply IH; [|exact Hok].
    rewrite H2. unfold append_file, fs_set. rewrite str_eqb_refl, Hx. reflexivity.
Qed.

Lemma os_call_trace (P : fs -> Prop) (eff : fs -> fs) (w : wstate) :
  (forall f, In f (ws_trace w) -> P f) -> P (eff (ws_fs w)) ->
  forall f, In f (ws_trace (snd (os_call fails eff w))) -> P f.
Proof.
  intros Hw He f Hf.
  destruct (os_call_cases eff w) as [[_ [_ H3]] | [_ [_ H3]]]; rewrite H3 in Hf; [auto|].
  apply in_app_or in Hf as [Hf | [<- | []]]; auto.
Qed.

Lemma bind_split {A B} (m : M A) (k : A -> M B) (w : wstate) :
  bind m k w = match fst (m w) with
               | Some a => k a (snd (m w))
               | None => (None, snd (m w))
               end.
Proof. unfold bind. destruct (m w) as [[a|] w']; reflexivity. Qed.

(** Claim C1, as the code does it: on the temporary-file path every state of
    the destination is its prior contents or the complete new payload, and
    once that path succeeds the destination holds the new payload; when a
    step of that path raises, the function continues with the direct,
    non-atomic write of the destination. *)
Theorem atomic_write_temp_path (path tmp : str) (chunks : list str) (f0 : fs) :
  tmp <> path ->
  (forall f, In f (ws_trace (snd (atomic_attempt fails path tmp chunks (init_ws f0)))) ->
             f path = f0 path \/ f path = Some (List.concat chunks))
  /\ (fst (atomic_attempt fails path tmp chunks (init_ws f0)) = Some tt ->
      _atomic_write_json fails path tmp chunks (init_ws f0) = atomic_attempt fails path tmp chunks (init_ws f0)
      /\ ws_fs (snd (atomic_attempt fails path tmp chunks (init_ws f0))) path = Some (List.concat chunks))
  /\ (fst (atomic_attempt fails path tmp chunks (init_ws f0)) = None ->
      _atomic_write_json fails path tmp chunks (init_ws f0)
      = direct_write fails path chunks (snd (atomic_attempt fails path tmp chunks (init_ws f0)))).
Proof.
  intro Hne.
  set (Good := fun f : fs => f path = f0 path \/ f path = Some (List.concat chunks)).
  split; [|split].
  3: { intro Hn. unfold _atomic_write_json, try_except.
       destruct (atomic_attempt fails path tmp chunks (init_ws f0)) as [r w'] eqn:E.
       simpl in Hn. subst r. reflexivity. }
  2: { intro Hs. unfold _atomic_write_json, try_except.
       destruct (atomic_attempt fails path tmp chunks (init_ws f0)) as [r w'] eqn:E.
       simpl in Hs. subst r. split; [reflexivity|].
       revert E. unfold atomic_attempt.
       rewrite bind_os_call.
       destruct (os_call_cases (fun f => fs_set f tmp (Some [])) (init_ws f0)) as [[H1 [H2 H3]] | [H1 [H2 H3]]];
         rewrite H1; [discriminate|].
       rewrite bind_split.
       set (w1 := snd (os_call fails (fun f => fs_set f tmp (Some [])) (init_ws f0))) in *.
       destruct (fst (write_chunks fails tmp chunks w1)) as [[]|] eqn:Hw; [|discriminate].
       assert (Htmp : ws_fs (snd (write_chunks fails tmp chunks w1)) tmp = Some (List.concat chunks)).
       { apply (write_chunks_ok tmp chunks w1 []); [|exact Hw].
         rewrite H2. unfold fs_set. rewrite str_eqb_refl. reflexivity. }
       set (w2 := snd (write_chunks fails tmp chunks w1)) in *.
       rewrite bind_os_call.
       destruct (os_call_cases (fun f => f) w2) as [[G1 [G2 G3]] | [G1 [G2 G3]]]; rewrite G1; [discriminate|].
       rewrite bind_os_call.
       set (w3 := snd (os_call fails (fun f => f) w2)) in *.
       destruct (os_call_cases (fun f => f) w3) as [[K1 [K2 K3]] | [K1 [K2 K3]]]; rewrite K1; [discriminate|].
       set (w4 := snd (os_call fails (fun f => f) w3)) in *.
       destruct (os_call_cases (os_replace tmp path) w4) as [[L1 [L2 L3]] | [L1 [L2 L3]]];
         intro E; rewrite E in L1, L2; simpl in L1; [discriminate|].
       simpl in L2. simpl. rewrite L2. unfold os_replace. rewrite str_eqb_refl.
       rewrite K2, G2. exact Htmp. }
  unfold atomic_attempt.
  assert (G0 : forall f, In f (ws_trace (init_ws f0)) -> Good f).
  { intros f [<- | []]. left; reflexivity. }
  rewrite bind_os_call.
  destruct (os_call_cases (fun f => fs_set f tmp (Some [])) (init_ws f0)) as [[H1 [H2 H3]] | [H1 [H2 H3]]];
    rewrite H1; [simpl; rewrite H3; exact G0|].
  set (w1 := snd (os_call fails (fun f => fs_set f tmp (Some [])) (init_ws f0))) in *.
  assert (G1 : forall f, In f (ws_trace w1) -> Good f).
  { apply os_call_trace; [exact G0|]. left. simpl. unfold fs_set.
    rewrite str_eqb_neq; [reflexivity|]. intro; apply Hne; symmetry; assumption. }
  assert (P1 : ws_fs w1 path = f0 path).
  { rewrite H2. simpl. unfold fs_set. rewrite str_eqb_neq; [reflexivity|]. intro; apply Hne; symmetry; assumption. }
  destruct (write_chunks_frame tmp path chunks w1) as [F1 F2]; [intro; apply Hne; symmetry; assumption|].
  set (w2 := snd (write_chunks fails tmp chunks w1)) in *.
  assert (G2 : forall f, In f (ws_trace w2) -> Good f).
  { intros f Hf. destruct (F1 f Hf) as [Hin | Heq]; [auto|]. left. rewrite Heq. exact P1. }
  rewrite bind_split.
  destruct (fst (write_chunks fails tmp chunks w1)) as [[]|] eqn:Hw; [|exact G2].
  assert (Htmp : ws_fs w2 tmp = Some (List.concat chunks)).
  { apply (write_chunks_ok tmp chunks w1 []); [|exact Hw].
    rewrite H2. unfold fs_set. rewrite str_eqb_refl. reflexivity. }
  fold w2.
  rewrite bind_os_call.
  assert (G3 : forall f, In f (ws_trace (snd (os_call fails (fun f => f) w2))) -> Good f).
  { apply os_call_trace; [exact G2|]. left. rewrite F2. exact P1. }
  destruct (os_call_cases (fun f => f) w2) as [[J1 [J2 J3]] | [J1 [J2 J3]]]; rewrite J1;
    [exact G3|].
  set (w3 := snd (os_call fails (fun f => f) w2)) in *.
  rewrite bind_os_call.
  assert (G4 : forall f, In f (ws_trace (snd (os_call fails (fun f => f) w3))) -> Good f).
  { apply os_call_trace; [exact G3|]. left. rewrite J2, F2. exact P1. }
  destruct (os_call_cases (fun f => f) w3) as [[K1 [K2 K3]] | [K1 [K2 K3]]]; rewrite K1;
    [exact G4|].
  set (w4 := snd (os_call fails (fun f => f) w3)) in *.
  apply os_call_trace; [exact G4|].
  right. unfold os_replace. rewrite str_eqb_refl. rewrite K2, J2. exact Htmp.
Qed.

End AtomicWriteProofs.

(** Witness for [atomic_write_temp_path]: with no failing call the
    destination ends with the new payload. *)
Lemma atomic_write_temp_path_witness :
  tmp_json <> data_json
  /\ ws_fs (snd (atomic_attempt (fun _ => false) data_json tmp_json [u "{"; u "}"] (init_ws disk0))) data_json
     = Some (u "{}").
Proof.
  split; [discriminate|].
  destruct (atomic_write_temp_path (fun _ => false) data_json tmp_json [u "{"; u "}"] disk0)
    as [_ [H _]]; [discriminate|].
  exact (proj2 (H ltac:(vm_compute; reflexivity))).
Defined.

(** Claim C1 as stated fails: when the first [json.dump] write into the
    temporary file raises (e.g. a full disk), the fallback [open(path, 'w')]
    truncates the destination, which then holds neither the prior snapshot
    nor the new one. *)
Lemma atomic_write_fallback_truncates :
  ~ (forall (fails : nat -> bool) (path tmp : str) (chunks : list str) (f0 : fs),
        tmp <> path ->
        forall f, In f (ws_trace (snd (_atomic_write_json fails path tmp chunks (init_ws f0)))) ->
                  f path = f0 path \/ f path = Some (List.concat chunks)).
Proof.
  intro H.
  set (run := _atomic_write_json (fun k => Nat.eqb k 1) data_json tmp_json [u "{"; u "}"] (init_ws disk0)).
  assert (Hin : In (nth 2 (ws_trace (snd run)) disk0) (ws_trace (snd run))).
  { apply nth_In. vm_compute. repeat constructor. }
  destruct (H (fun k => Nat.eqb k 1) data_json tmp_json [u "{"; u "}"] disk0 ltac:(discriminate) _ Hin) as [E | E]; vm_compute in E; discriminate.
Qed.

(** Claim C2 fails on the code: [normalize_name] strips the leading "By"
    prefix once, before punctuation is turned into spaces and runs of
    whitespace are collapsed, so its output can start with a new "By "
    prefix that a second call removes. *)
Theorem normalize_name_not_idempotent :
  normalize_name (u "By By John") = u "By John"
  /\ normalize_name (normalize_name (u "By By John")) = u "John"
  /\ normalize_name (u "By.John") = u "By John"
  /\ normalize_name (normalize_name (u "By.John")) = u "John".
Proof. repeat split; reflexivity. Qed.

(** Claim C3: [_prefer_newer existing candidate] is [false] for an empty or
    "Unknown" candidate; [true] for a known candidate against an empty or
    "Unknown" existing date; when both dates parse (year-month-day pattern,
    whose digits are decimal digits of any script as regex [\d] and [int()]
    read them, and a valid calendar date) it is [true] iff the candidate date is
    strictly later; otherwise it is [true] iff the candidate string is
    strictly longer. With the three examples of the spec. *)
Theorem prefer_newer_rule (existing candidate : str) :
  ((candidate = [] \/ candidate = UNKNOWN) -> _prefer_newer existing candidate = false)
  /\ (candidate <> [] -> candidate <> UNKNOWN -> (existing = [] \/ existing = UNKNOWN) ->
      _prefer_newer existing candidate = true)
  /\ (candidate <> [] -> candidate <> UNKNOWN -> existing <> [] -> existing <> UNKNOWN ->
      forall cd ed, parse_iso candidate = Some cd -> parse_iso existing = Some ed ->
      _prefer_newer existing candidate = date_gtb cd ed)
  /\ (candidate <> [] -> candidate <> UNKNOWN -> existing <> [] -> existing <> UNKNOWN ->
      (parse_iso candidate = None \/ parse_iso existing = None) ->
      _prefer_newer existing candidate = Nat.ltb (List.length existing) (List.length candidate))
  /\ _prefer_newer (u "2024-01-01") (u "2024-02-01") = true
  /\ _prefer_newer (u "Unknown") (u "2024-02-01") = true
  /\ _prefer_newer (u "2024-02-01") (u "Unknown") = false.
Proof.
  assert (Hempty : forall s : str, s <> [] -> is_empty s = false)
    by (intros [|x s] H; [contradiction|reflexivity]).
  unfold _prefer_newer.
  split; [|split; [|split; [|split]]].
  - intros [-> | ->]; reflexivity.
  - intros Hc Hu He. rewrite (Hempty _ Hc), (str_eqb_neq _ _ Hu). simpl.
    destruct He as [-> | ->]; reflexivity.
  - intros Hc Hu He Heu cd ed Hcd Hed.
    rewrite (Hempty _ Hc), (str_eqb_neq _ _ Hu), (Hempty _ He), (str_eqb_neq _ _ Heu). simpl.
    rewrite Hcd, Hed. reflexivity.
  - intros Hc Hu He Heu Hn.
    rewrite (Hempty _ Hc), (str_eqb_neq _ _ Hu), (Hempty _ He), (str_eqb_neq _ _ Heu). simpl.
    destruct Hn as [Hn | Hn]; rewrite Hn; [reflexivity|].
    destruct (parse_iso candidate); reflexivity.
  - repeat split; reflexivity.
Qed.

(** Witness for [prefer_newer_rule]: both dates parse, the candidate being
    written with Arabic-Indic digits. *)
Lemma prefer_newer_rule_witness :
  parse_iso arabic_2025_01_01 = Some (2025%Z, 1%Z, 1%Z)
  /\ parse_iso (u "2024-01-01") = Some (2024%Z, 1%Z, 1%Z)
  /\ _prefer_newer (u "2024-01-01") arabic_2025_01_01 = date_gtb (2025%Z, 1%Z, 1%Z) (2024%Z, 1%Z, 1%Z)
  /\ date_gtb (2025%Z, 1%Z, 1%Z) (2024%Z, 1%Z, 1%Z) = true.
Proof.
  assert (H1 : parse_iso arabic_2025_01_01 = Some (2025%Z, 1%Z, 1%Z)) by (vm_compute; reflexivity).
  assert (H2 : parse_iso (u "2024-01-01") = Some (2024%Z, 1%Z, 1%Z)) by (vm_compute; reflexivity).
  split; [exact H1|]. split; [exact H2|]. split; [|reflexivity].
  apply (proj1 (proj2 (proj2 (prefer_newer_rule (u "2024-01-01") arabic_2025_01_01))));
    try discriminate; assumption.
Defined.

(** Claim C4 fails on the code: the periodic checkpoint after the fifth
    processed page calls [_finalize_profiles] on the live map, which pops
    [beat_counts] from each entry. Every later observation of that author
    increments [articles_count] and then raises [KeyError] at
    [entry['beat_counts'][section]]; the page-level [except] swallows it.
    After five Sports pages and six Politics pages the profile keeps the
    beat Sports. The three-observation example of the claim does hold. *)
Theorem merge_after_checkpoint_loses_beats :
  e_beat_counts (snd (hd (u "", new_entry [] [] [] [] [])
                          (rs_map (profiles_loop 30 (fetch_list pages_beat_switch) (urls_n 5) init_run))))
    = None
  /\ snd (process_page (rs_map (profiles_loop 30 (fetch_list pages_beat_switch) (urls_n 5) init_run))
                       [5] (page1 "Al Roy" "Politics")) = true
  /\ extract_profiles_urls 30 (fetch_list pages_beat_switch) (urls_n 11)
     = [mk_profile (u "Al Roy") (u "Sports") (u "T") [0] (u "2024-01-01") 11]
  /\ extract_profiles_urls 30
       (fetch_list [page1 "Al Roy" "Politics"; page1 "Al Roy" "Politics"; page1 "Al Roy" "Sports"]) (urls_n 3)
     = [mk_profile (u "Al Roy") (u "Politics") (u "T") [0] (u "2024-01-01") 3].
Proof. repeat split; vm_compute; reflexivity. Qed.

(** Claim C8, as the code does it: names shorter than two characters are
    discarded ([extract_authors] then yields ["Unknown"], which
    [_finalize_profiles] drops), so pages by "A", "A", "B" give an empty
    list; with two-character names "Al", "Al", "Bo" the list is
    [Al(2), Bo(1)]. *)
Theorem pipeline_three_pages :
  extract_profiles_urls 30
    (fetch_list [page1 "A" "Politics"; page1 "A" "Politics"; page1 "B" "Politics"]) (urls_n 3) = []
  /\ extract_profiles_urls 30
       (fetch_list [page1 "Al" "Politics"; page1 "Al" "Politics"; page1 "Bo" "Politics"]) (urls_n 3)
     = [mk_profile (u "Al") (u "Politics") (u "T") [0] (u "2024-01-01") 2;
        mk_profile (u "Bo") (u "Politics") (u "T") [2] (u "2024-01-01") 1].
Proof. split; vm_compute; reflexivity. Qed.

(** Claim C8 as stated fails: the list for pages by "A", "A", "B" does not
    have two entries. *)
Lemma pipeline_single_letter_authors_dropped :
  List.length (extract_profiles_urls 30
    (fetch_list [page1 "A" "Politics"; page1 "A" "Politics"; page1 "B" "Politics"]) (urls_n 3)) <> 2%nat.
Proof. vm_compute. discriminate. Qed.

(* ------------------------------------------------------------------ *)
(** ** [_finalize_profiles]: membership and order *)

Lemma str_ltb_total (a b : str) : str_ltb b a = false -> str_leb a b = true.
Proof.
  unfold str_leb. revert b; induction a as [|x a IH]; intros [|y b]; simpl; intro H; auto.
  destruct (N.ltb y x) eqn:E1; [discriminate|].
  destruct (N.eqb y x) eqn:E2.
  - apply N.eqb_eq in E2. subst y. rewrite N.eqb_refl, N.ltb_irrefl. simpl. apply IH. exact H.
  - apply N.ltb_ge in E1. assert (x <> y) by (intro; subst; rewrite N.eqb_refl in E2; discriminate).
    assert (N.ltb x y = true) by (apply N.ltb_lt; lia). rewrite H1. apply orb_true_r.
Qed.

Lemma insert_profile_In (x y : profile) (l : list profile) :
  In x (insert_profile y l) <-> In x (y :: l).
Proof.
  induction l as [|z r IH]; simpl.
  - tauto.
  - destruct (key_ltb z y); simpl; rewrite ?IH; simpl; tauto.
Qed.

Lemma sort_profiles_In (x : profile) (l : list profile) : In x (sort_profiles l) <-> In x l.
Proof.
  unfold sort_profiles. induction l as [|y r IH]; simpl; [tauto|].
  rewrite insert_profile_In. simpl. rewrite IH. tauto.
Qed.

(** The cut [profiles[:max(30, len(profiles))]] keeps every profile. *)
Lemma finalize_profiles_all (m : profiles_map) :
  fst (_finalize_profiles m) = sort_profiles (fst (finalize_entries m)).
Proof.
  unfold _finalize_profiles. destruct (finalize_entries m) as [ps m'].
  exact (firstn_all2 _ (Nat.le_max_r _ _)).
Qed.

Lemma finalize_entry_some (v : entry) (p : profile) :
  fst (finalize_entry v) = Some p ->
  mem_str (lower (strip (name p))) blacklist = false
  /\ name p = e_name v /\ articles_count p = e_articles_count v.
Proof.
  unfold finalize_entry.
  destruct (is_empty (lower (strip (e_name v))) || mem_str (lower (strip (e_name v))) blacklist) eqn:E;
    simpl; [discriminate|].
  intro H. injection H as <-. apply orb_false_elim in E as [_ E].
  destruct (e_beat_counts v) as [[|kv bc]|]; simpl; auto.
  destruct (best_beat (kv :: bc)) as [[b c]|]; simpl; auto.
Qed.

Lemma finalize_entries_In (m : profiles_map) (p : profile) :
  In p (fst (finalize_entries m)) -> exists k v, In (k, v) m /\ fst (finalize_entry v) = Some p.
Proof.
  induction m as [|[k v] r IH]; simpl; [contradiction|].
  destruct (finalize_entry v) as [po v'] eqn:Ev. destruct (finalize_entries r) as [ps r'] eqn:Er.
  simpl in *. intro H.
  destruct po as [q|]; [destruct H as [<- | H]|].
  - exists k, v. split; [left; reflexivity|]. rewrite Ev. reflexivity.
  - destruct (IH H) as (k' & v'' & H1 & H2). exists k', v''. auto.
  - destruct (IH H) as (k' & v'' & H1 & H2). exists k', v''. auto.
Qed.

Lemma finalize_profiles_In (m : profiles_map) (p : profile) :
  In p (fst (_finalize_profiles m)) -> exists k v, In (k, v) m /\ fst (finalize_entry v) = Some p.
Proof. rewrite finalize_profiles_all, sort_profiles_In. apply finalize_entries_In. Qed.

(** Claim C5: no finalized profile has a name whose stripped, lower-cased
    form is in the blacklist; in particular none is named "Staff". *)
Theorem finalize_drops_blacklisted (m : profiles_map) (p : profile) :
  In p (fst (_finalize_profiles m)) ->
  mem_str (lower (strip (name p))) blacklist = false /\ name p <> u "Staff".
Proof.
  intro H. destruct (finalize_profiles_In m p H) as (k & v & _ & Hv).
  destruct (finalize_entry_some v p Hv) as [Hb _].
  split; [exact Hb|]. intro Hn. rewrite Hn in Hb. discriminate.
Qed.

Lemma insert_profile_sorted (x : profile) (l : list profile) :
  Sorted profile_order l -> Sorted profile_order (insert_profile x l).
Proof.
  assert (Hf : forall y, key_ltb y x = false -> profile_order x y).
  { intros y E. unfold key_ltb in E. apply orb_false_elim in E as [E1 E2].
    apply Nat.ltb_ge in E1. unfold profile_order.
    destruct (Nat.eqb (articles_count y) (articles_count x)) eqn:E3.
    - apply Nat.eqb_eq in E3. right. split; [lia|]. simpl in E2. apply str_ltb_total. exact E2.
    - apply Nat.eqb_neq in E3. left. lia. }
  assert (Ht : forall y, key_ltb y x = true -> profile_order y x).
  { intros y E. unfold key_ltb in E. apply orb_true_elim in E as [E | E].
    - apply Nat.ltb_lt in E. left. exact E.
    - apply andb_prop in E as [E1 E2]. apply Nat.eqb_eq in E1. right. split; [exact E1|].
      unfold str_leb. rewrite E2. apply orb_true_r. }
  induction l as [|y r IH]; simpl; intro H.
  - repeat constructor.
  - destruct (key_ltb y x) eqn:E.
    + apply Sorted_inv in H as [Hr Hd]. constructor; [apply IH; exact Hr|].
      destruct r as [|z r']; simpl.
      * constructor. apply Ht. exact E.
      * destruct (key_ltb z x); constructor; [apply HdRel_inv in Hd; exact Hd | apply Ht; exact E].
    + constructor; [exact H|]. constructor. apply Hf. exact E.
Qed.

(** Claim C6: the finalized list is sorted by descending article count,
    then ascending name. *)
Theorem finalize_sorted (m : profiles_map) : Sorted profile_order (fst (_finalize_profiles m)).
Proof.
  rewrite finalize_profiles_all. unfold sort_profiles.
  induction (fst (finalize_entries m)) as [|y r IH]; simpl; [constructor|].
  apply insert_profile_sorted. exact IH.
Qed.

(* ------------------------------------------------------------------ *)
(** ** The loop of [extract_profiles] *)

Lemma profiles_loop_stop (min_profiles : nat) (fetch : str -> option page) (urls : list str)
  (st : run_state) :
  (min_profiles <= List.length (rs_map st))%nat -> profiles_loop min_profiles fetch urls st = st.
Proof.
  intro H. destruct urls as [|x r]; simpl; [reflexivity|].
  apply Nat.leb_le in H. rewrite H. reflexivity.
Qed.

Lemma profiles_loop_app (min_profiles : nat) (fetch : str -> option page) (a b : list str)
  (st : run_state) :
  profiles_loop min_profiles fetch (a ++ b) st
  = profiles_loop min_profiles fetch b (profiles_loop min_profiles fetch a st).
Proof.
  revert st. induction a as [|x a IH]; intro st; simpl; [reflexivity|].
  destruct (Nat.leb min_profiles (List.length (rs_map st))) eqn:E.
  - symmetry. apply profiles_loop_stop. apply Nat.leb_le. exact E.
  - destruct (fetch x) as [pg|]; [|apply IH].
    destruct (process_page (rs_map st) x pg) as [m1 raised].
    destruct raised; [apply IH|].
    destruct (Nat.eqb _ 0); [|apply IH].
    destruct (_finalize_profiles m1). apply IH.
Qed.

(** Claim C9: once the profile map holds [min_profiles] = 30 keys after a
    prefix [pre] of the URL list, the loop breaks before requesting any
    further URL: the remaining URLs change neither the state (map,
    requests issued, checkpoints) nor the returned profiles. *)
Theorem extract_profiles_stops_at_min_profiles (fetch : str -> option page) (pre rest : list str) :
  (30 <= List.length (rs_map (profiles_loop 30 fetch pre init_run)))%nat ->
  profiles_loop 30 fetch (pre ++ rest) init_run = profiles_loop 30 fetch pre init_run
  /\ extract_profiles_urls 30 fetch (pre ++ rest) = extract_profiles_urls 30 fetch pre.
Proof.
  intro H.
  assert (E : profiles_loop 30 fetch (pre ++ rest) init_run = profiles_loop 30 fetch pre init_run).
  { rewrite profiles_loop_app. apply profiles_loop_stop. exact H. }
  split; [exact E|]. unfold extract_profiles_urls. rewrite E. reflexivity.
Qed.

(** Witness for [extract_profiles_stops_at_min_profiles]: one page with 30
    authors fills the map; a second URL is never requested. *)
Lemma extract_profiles_stops_at_min_profiles_witness :
  (30 <= List.length (rs_map (profiles_loop 30 (fetch_list [page30; page30]) [[0%N]] init_run)))%nat
  /\ rs_requested (profiles_loop 30 (fetch_list [page30; page30]) ([[0%N]] ++ [[1%N]]) init_run) = [[0%N]].
Proof.
  assert (H : (30 <= List.length (rs_map (profiles_loop 30 (fetch_list [page30; page30]) [[0%N]] init_run)))%nat)
    by (vm_compute; lia).
  split; [exact H|].
  exact (eq_trans
           (f_equal rs_requested
              (proj1 (extract_profiles_stops_at_min_profiles (fetch_list [page30; page30]) [[0%N]] [[1%N]] H)))
           ltac:(vm_compute; reflexivity)).
Defined.

Lemma dict_set_pos (k : str) (v : entry) (m : profiles_map) :
  counts_pos m -> (1 <= e_articles_count v)%nat -> counts_pos (dict_set k v m).
Proof.
  intros Hm Hv. induction Hm as [|[k' v'] r Hkv Hr IH]; simpl.
  - constructor; [exact Hv | constructor].
  - destruct (str_eqb k k'); constructor; auto.
Qed.

Lemma merge_author_pos (m : profiles_map) (url title pub_date section author : str) :
  counts_pos m -> counts_pos (fst (merge_author m url title pub_date section author)).
Proof.
  intro Hm. unfold merge_author.
  destruct (is_empty (normalize_name author)); [exact Hm|].
  destruct (dict_get (lower (normalize_name author)) m) as [e|].
  - destruct (is_empty section).
    + destruct (_prefer_newer _ pub_date); apply dict_set_pos; auto; simpl; lia.
    + destruct (e_beat_counts (with_count e (S (e_articles_count e)))) as [bc|].
      * destruct (_prefer_newer _ pub_date); apply dict_set_pos; auto; simpl; lia.
      * apply dict_set_pos; auto; simpl; lia.
  - apply dict_set_pos; auto.
Qed.

Lemma merge_authors_pos (m : profiles_map) (url title pub_date section : str) (authors : list str) :
  counts_pos m -> counts_pos (fst (merge_authors m url title pub_date section authors)).
Proof.
  revert m. induction authors as [|a r IH]; intros m Hm; simpl; [exact Hm|].
  pose proof (merge_author_pos m url title pub_date section a Hm) as H1.
  destruct (merge_author m url title pub_date section a) as [m1 raised].
  destruct raised; [exact H1 | apply IH; exact H1].
Qed.

Lemma finalize_entry_count (v : entry) :
  e_articles_count (snd (finalize_entry v)) = e_articles_count v.
Proof.
  unfold finalize_entry.
  destruct (is_empty _ || mem_str _ blacklist); [reflexivity|]. simpl.
  destruct (e_beat_counts v) as [[|kv bc]|]; simpl; try reflexivity.
  destruct (best_beat (kv :: bc)) as [[b c]|]; reflexivity.
Qed.

Lemma finalize_entries_pos (m : profiles_map) : counts_pos m -> counts_pos (snd (finalize_entries m)).
Proof.
  induction 1 as [|[k v] r Hkv Hr IH]; simpl; [constructor|].
  pose proof (finalize_entry_count v) as Hc.
  destruct (finalize_entry v) as [po v']. destruct (finalize_entries r) as [ps r'].
  simpl in *. constructor; [simpl; lia | exact IH].
Qed.

Lemma finalize_profiles_pos (m : profiles_map) :
  counts_pos m ->
  (forall p, In p (fst (_finalize_profiles m)) -> (1 <= articles_count p)%nat)
  /\ counts_pos (snd (_finalize_profiles m)).
Proof.
  intro Hm. split.
  - intros p Hp. destruct (finalize_profiles_In m p Hp) as (k & v & Hin & Hv).
    destruct (finalize_entry_some v p Hv) as (_ & _ & ->).
    exact (proj1 (Forall_forall _ m) Hm (k, v) Hin).
  - unfold _finalize_profiles. pose proof (finalize_entries_pos m Hm) as H.
    destruct (finalize_entries m) as [ps m']. exact H.
Qed.

Lemma profiles_loop_pos (min_profiles : nat) (fetch : str -> option page) (urls : list str)
  (st : run_state) :
  run_pos st -> run_pos (profiles_loop min_profiles fetch urls st).
Proof.
  revert st. induction urls as [|x r IH]; intros st [Hm Hc]; simpl; [split; assumption|].
  destruct (Nat.leb min_profiles (List.length (rs_map st))); [split; assumption|].
  destruct (fetch x) as [pg|]; [|apply IH; split; assumption].
  unfold process_page.
  pose proof (merge_authors_pos (rs_map st) x (pg_title pg) (pg_pub_date pg)
                (normalize_beat (normalize_beat (pg_section pg))) (clean_authors (pg_authors pg)) Hm) as H1.
  destruct (merge_authors _ _ _ _ _ _) as [m1 raised]. simpl in H1.
  destruct raised; [apply IH; split; assumption|].
  destruct (Nat.eqb _ 0); [|apply IH; split; assumption].
  destruct (finalize_profiles_pos m1 H1) as [F1 F2].
  destruct (_finalize_profiles m1) as [ps m2]. simpl in F1, F2.
  apply IH. split; [exact F2|]. simpl.
  intros ps' Hps'. apply in_app_or in Hps' as [Hps' | [<- | []]]; [apply Hc; exact Hps' | exact F1].
Qed.

(** Claim C10: every profile returned by [extract_profiles], and every
    profile of every progress checkpoint, has [articles_count >= 1]. *)
Theorem finalized_counts_positive (min_profiles : nat) (fetch : str -> option page) (urls : list str) :
  (forall p, In p (extract_profiles_urls min_profiles fetch urls) -> (1 <= articles_count p)%nat)
  /\ (forall ps, In ps (rs_checkpoints (profiles_loop min_profiles fetch urls init_run)) ->
      forall p, In p ps -> (1 <= articles_count p)%nat).
Proof.
  assert (H : run_pos (profiles_loop min_profiles fetch urls init_run)).
  { apply profiles_loop_pos. split; [constructor | intros ps []]. }
  destruct H as [Hm Hc]. split; [|exact Hc].
  unfold extract_profiles_urls. exact (proj1 (finalize_profiles_pos _ Hm)).
Qed.

(* ------------------------------------------------------------------ *)
(** ** [find_article_links] *)

Lemma process_link_domain (domain : str) (seen : list url) (acc : list url * list url) (full : url) :
  links_in_domain domain (fst acc) -> links_in_domain domain (fst (process_link domain seen acc full)).
Proof.
  destruct acc as [links tv]. unfold process_link. simpl. intro H.
  destruct (containsb (lower (url_netloc full)) domain) eqn:Ec; simpl; [|exact H].
  destruct (is_article_path (lower (url_path full))); [|exact H].
  destruct (mem_url (drop_query full) links); [exact H|].
  intros v Hv. apply in_app_or in Hv as [Hv | [<- | []]]; [apply H; exact Hv | exact Ec].
Qed.

Lemma fold_process_link_domain (domain : str) (seen : list url) (hrefs : list url)
  (acc : list url * list url) :
  links_in_domain domain (fst acc) ->
  links_in_domain domain (fst (fold_left (process_link domain seen) hrefs acc)).
Proof.
  revert acc. induction hrefs as [|h r IH]; intros acc H; simpl; [exact H|].
  apply IH. apply process_link_domain. exact H.
Qed.

Lemma crawl_loop_domain (fuel : nat) (robots : url -> bool) (fetch : url -> option (list url))
  (domain : str) (c : crawl) :
  links_in_domain domain (cr_links c) -> links_in_domain domain (cr_links (crawl_loop fuel robots fetch domain c)).
Proof.
  revert c. induction fuel as [|fuel IH]; intros c H; simpl; [exact H|].
  destruct (cr_to_visit c) as [|x rest]; [exact H|].
  destruct (negb (Nat.ltb (List.length (cr_links c)) MAX_ARTICLE_URLS)); [exact H|].
  destruct (mem_url x (cr_seen c)); [apply IH; exact H|].
  destruct (negb (robots x)); [apply IH; exact H|].
  destruct (fetch x) as [hrefs|]; [|apply IH; exact H].
  pose proof (fold_process_link_domain domain (cr_seen c ++ [x]) hrefs (cr_links c, rest) H) as Hf.
  destruct (fold_left _ hrefs _) as [links tv]. apply IH. exact Hf.
Qed.

(** The domain check [find_article_links] performs: every URL it returns
    has a network location whose lower-cased form contains the crawl domain
    (the lower-cased netloc of the base URL) as a substring, which is not a
    host match (see the next lemma). *)
Theorem article_links_contain_domain (fuel : nat) (robots : url -> bool)
  (fetch : url -> option (list url)) (base_url : url) (v : url) :
  In v (find_article_links fuel robots fetch base_url) ->
  containsb (lower (url_netloc v)) (lower (url_netloc base_url)) = true.
Proof.
  unfold find_article_links. intro Hv.
  apply (crawl_loop_domain fuel robots fetch (lower (url_netloc base_url))
           (mk_crawl (base_url :: map (join_seed base_url) seeds) [] [])); [intros w []|].
  rewrite <- (firstn_skipn MAX_ARTICLE_URLS). apply in_or_app. left. exact Hv.
Qed.

(** Claim C7 as stated fails: the substring test keeps a link to the host
    bbc.com.evil.org when crawling https://bbc.com, and that host is
    neither bbc.com nor one of its subdomains. *)
Lemma article_links_other_host :
  ~ (forall (fuel : nat) (robots : url -> bool) (fetch : url -> option (list url)) (base_url v : url),
        In v (find_article_links fuel robots fetch base_url) ->
        same_domain (lower (url_netloc v)) (lower (url_netloc base_url)) = true).
Proof.
  intro H.
  set (fetch := fun x => if url_eqb x bbc then Some [bbc_evil] else None).
  assert (Hin : In bbc_evil (find_article_links 1 (fun _ => true) fetch bbc)).
  { vm_compute. left. reflexivity. }
  pose proof (H 1%nat (fun _ => true) fetch bbc bbc_evil Hin) as E.
  vm_compute in E. discriminate.
Qed.

(** Witness for [article_links_contain_domain]: the link kept in the
    counterexample above. *)
Lemma article_links_contain_domain_witness :
  In bbc_evil (find_article_links 1 (fun _ => true) (fun x => if url_eqb x bbc then Some [bbc_evil] else None) bbc)
  /\ containsb (lower (url_netloc bbc_evil)) (lower (url_netloc bbc)) = true.
Proof.
  assert (H : In bbc_evil (find_article_links 1 (fun _ => true)
                             (fun x => if url_eqb x bbc then Some [bbc_evil] else None) bbc))
    by (vm_compute; left; reflexivity).
  split; [exact H | exact (article_links_contain_domain _ _ _ _ _ H)].
Defined.

(** Witness for [finalize_drops_blacklisted]. *)
Lemma finalize_drops_blacklisted_witness :
  fst (_finalize_profiles map_with_staff)
    = [mk_profile (u "Al Roy") (u "Sports") (u "T") (u "/b") (u "2024-01-01") 1]
  /\ (mem_str (lower (strip (u "Al Roy"))) blacklist = false /\ u "Al Roy" <> u "Staff").
Proof.
  assert (E : fst (_finalize_profiles map_with_staff)
              = [mk_profile (u "Al Roy") (u "Sports") (u "T") (u "/b") (u "2024-01-01") 1])
    by (vm_compute; reflexivity).
  split; [exact E|].
  apply (finalize_drops_blacklisted map_with_staff
           (mk_profile (u "Al Roy") (u "Sports") (u "T") (u "/b") (u "2024-01-01") 1)).
  rewrite E. left. reflexivity.
Defined.

(* ================================================================== *)
(** * Further properties of the code *)

(* ------------------------------------------------------------------ *)
(** ** [_prefer_newer] *)

Lemma date_gtb_irrefl (d : Z * Z * Z) : date_gtb d d = false.
Proof.
  destruct d as [[y m] dd]. unfold date_gtb.
  rewrite !Z.ltb_irrefl, !Z.eqb_refl. reflexivity.
Qed.

Lemma date_gtb_asym (a b : Z * Z * Z) : date_gtb a b = true -> date_gtb b a = false.
Proof.
  destruct a as [[y1 m1] d1], b as [[y2 m2] d2]. unfold date_gtb.
  destruct (Z.ltb_spec y2 y1), (Z.ltb_spec y1 y2), (Z.eqb_spec y1 y2), (Z.eqb_spec y2 y1),
           (Z.ltb_spec m2 m1), (Z.ltb_spec m1 m2), (Z.eqb_spec m1 m2), (Z.eqb_spec m2 m1),
           (Z.ltb_spec d2 d1), (Z.ltb_spec d1 d2);
    simpl; intro Hg; try discriminate; try reflexivity; lia.
Qed.

(** A date never replaces itself: [_prefer_newer d d] is [false]. *)
Theorem prefer_newer_irrefl (d : str) : _prefer_newer d d = false.
Proof.
  unfold _prefer_newer.
  destruct (is_empty d || str_eqb d UNKNOWN); [reflexivity|].
  destruct (parse_iso d) as [cd|]; [apply date_gtb_irrefl | apply Nat.ltb_irrefl].
Qed.

(** [_prefer_newer] is asymmetric: if [b] would replace [a], then [a]
    would not replace [b], so two observations never keep replacing each
    other. *)
Theorem prefer_newer_asym (a b : str) : _prefer_newer a b = true -> _prefer_newer b a = false.
Proof.
  unfold _prefer_newer.
  destruct (is_empty b || str_eqb b UNKNOWN) eqn:Hb; [discriminate|].
  destruct (is_empty a || str_eqb a UNKNOWN) eqn:Ha; [reflexivity|].
  destruct (parse_iso b) as [cb|], (parse_iso a) as [ca|].
  - apply date_gtb_asym.
  - intro H. apply Nat.ltb_lt in H. apply Nat.ltb_ge. lia.
  - intro H. apply Nat.ltb_lt in H. apply Nat.ltb_ge. lia.
  - intro H. apply Nat.ltb_lt in H. apply Nat.ltb_ge. lia.
Qed.

(** Witness for [prefer_newer_asym]. *)
Lemma prefer_newer_asym_witness :
  _prefer_newer (u "2024-01-01") (u "2024-02-01") = true
  /\ _prefer_newer (u "2024-02-01") (u "2024-01-01") = false.
Proof.
  assert (H : _prefer_newer (u "2024-01-01") (u "2024-02-01") = true) by reflexivity.
  exact (conj H (prefer_newer_asym _ _ H)).
Defined.

(* ------------------------------------------------------------------ *)
(** ** [normalize_beat] *)

Lemma N_range (lo : N) (k : nat) (f : N -> bool) :
  (forall n, (n < k)%nat -> f (lo + N.of_nat n) = true) ->
  forall c, lo <= c -> c < lo + N.of_nat k -> f c = true.
Proof.
  intros H c H1 H2. replace c with (lo + N.of_nat (N.to_nat (c - lo))) by lia.
  apply H. lia.
Qed.

Lemma word_char_ok_spec (c : N) : word_char c = true -> word_char_ok c = true.
Proof.
  unfold word_char, is_lower, is_digit. intro H.
  apply orb_true_iff in H as [H | H]; apply andb_prop in H as [H1 H2];
    apply N.leb_le in H1; apply N.leb_le in H2.
  - apply (N_range 97 26); try lia.
    intros n Hn. do 26 (destruct n as [|n]; [reflexivity|]). lia.
  - apply (N_range 48 10); try lia.
    intros n Hn. do 10 (destruct n as [|n]; [reflexivity|]). lia.
Qed.

Lemma prefixb_spec (p s : str) : prefixb p s = true <-> exists t, s = p ++ t.
Proof.
  revert s. induction p as [|x p IH]; intros [|y s]; simpl.
  - split; [intros _; exists []; reflexivity | reflexivity].
  - split; [intros _; exists (y :: s); reflexivity | reflexivity].
  - split; [discriminate | intros [t Ht]; discriminate].
  - rewrite andb_true_iff, N.eqb_eq, IH. split.
    + intros [-> [t ->]]. exists t. reflexivity.
    + intros [t Ht]. injection Ht as -> Ht. split; [reflexivity | exists t; exact Ht].
Qed.

Lemma containsb_spec (h k : str) : containsb h k = true <-> exists a b, h = a ++ k ++ b.
Proof.
  induction h as [|c h IH]; simpl.
  - rewrite prefixb_spec. split.
    + intros [t Ht]. destruct k; [|discriminate]. exists [], []. reflexivity.
    + intros (a & b & Hab). destruct a, k; try discriminate. exists []. reflexivity.
  - rewrite orb_true_iff, prefixb_spec, IH. split.
    + intros [[t Ht] | (a & b & ->)].
      * exists [], t. exact Ht.
      * exists (c :: a), b. reflexivity.
    + intros ([|x a] & b & Hab).
      * left. exists b. exact Hab.
      * injection Hab as -> Hab. right. exists a, b. exact Hab.
Qed.

Lemma containsb_infix (pre t post k : str) :
  containsb t k = true -> containsb (pre ++ t ++ post) k = true.
Proof.
  rewrite !containsb_spec. intros (a & b & ->).
  exists (pre ++ a), (b ++ post). rewrite <- !app_assoc. reflexivity.
Qed.

Lemma split_ws_aux_first (s cur t : str) (ts : list str) :
  Forall nonspace cur -> split_ws_aux cur s = t :: ts ->
  t <> [] /\ Forall nonspace t /\ exists pre post, rev cur ++ s = pre ++ t ++ post.
Proof.
  revert cur. induction s as [|c r IH]; intros cur Hcur H; simpl in H.
  - destruct cur as [|x cur]; [discriminate|]. injection H as <- _.
    split; [intro E; apply (f_equal (@List.length N)) in E; rewrite ?length_app, ?length_rev in E; simpl in E; lia|].
    split; [change (Forall nonspace (rev (x :: cur))); apply Forall_rev; exact Hcur|]. exists [], []. rewrite !app_nil_r. reflexivity.
  - destruct (is_space c) eqn:Ec.
    + destruct cur as [|x cur'].
      * destruct (IH [] (Forall_nil _) H) as (Ht & Hf & pre & post & E).
        split; [exact Ht|]. split; [exact Hf|]. exists (c :: pre), post. simpl in *. rewrite E. reflexivity.
      * injection H as <- _.
        split; [intro E; apply (f_equal (@List.length N)) in E; rewrite ?length_app, ?length_rev in E; simpl in E; lia|].
        split; [change (Forall nonspace (rev (x :: cur'))); apply Forall_rev; exact Hcur|]. exists [], (c :: r). reflexivity.
    + destruct (IH (c :: cur) (Forall_cons _ Ec Hcur) H) as (Ht & Hf & pre & post & E).
      split; [exact Ht|]. split; [exact Hf|]. exists pre, post. simpl in E. rewrite <- app_assoc in E. exact E.
Qed.

Lemma split_ws_aux_word (t cur : str) :
  Forall nonspace t -> rev cur ++ t <> [] -> split_ws_aux cur t = [rev cur ++ t].
Proof.
  revert cur. induction t as [|c r IH]; intros cur Ht Hne; simpl.
  - destruct cur as [|x cur]; [contradiction|]. rewrite app_nil_r. reflexivity.
  - inversion Ht as [|? ? Hc Hr]; subst. unfold nonspace in Hc. rewrite Hc.
    rewrite IH; [|exact Hr|intro E; apply (f_equal (@List.length N)) in E; rewrite ?length_app, ?length_rev in E; simpl in E; lia].
    simpl. rewrite <- app_assoc. reflexivity.
Qed.

Lemma strip_nonspace (x : str) : Forall nonspace x -> strip x = x.
Proof.
  intro H. unfold strip.
  assert (L : forall l, Forall nonspace l -> lstrip l = l).
  { intros [|c l] Hl; [reflexivity|]. inversion Hl as [|? ? Hc _]; subst. simpl. unfold nonspace in Hc. rewrite Hc. reflexivity. }
  rewrite (L x H), (L (rev x) (Forall_rev H)), rev_involutive. reflexivity.
Qed.

Lemma forall_below (f : N -> bool) (k : nat) :
  forallb f (map N.of_nat (seq 0 k)) = true -> forall c, c < N.of_nat k -> f c = true.
Proof.
  intros H c Hc. rewrite forallb_forall in H. apply H.
  replace c with (N.of_nat (N.to_nat c)) by apply N2Nat.id.
  apply in_map, in_seq. lia.
Qed.

(** On ASCII, the Unicode case mappings are the ASCII ones. *)
Lemma lower_full_ascii (c : N) : c < 128 -> lower_full c = [lower_c c].
Proof.
  intro H. apply str_eqb_eq.
  exact (forall_below (fun c => str_eqb (lower_full c) [lower_c c]) 128 ltac:(vm_compute; reflexivity) c H).
Qed.

Lemma title_full_ascii (c : N) : c < 128 -> title_full c = [upper_c c].
Proof.
  intro H. apply str_eqb_eq.
  exact (forall_below (fun c => str_eqb (title_full c) [upper_c c]) 128 ltac:(vm_compute; reflexivity) c H).
Qed.

Lemma lower_from_ascii (before s : str) :
  Forall (fun c => c < 128) s -> lower_from before s = map lower_c s.
Proof.
  intro H. revert before. induction H as [|c r Hc _ IH]; intro bf; [reflexivity|].
  simpl. rewrite IH. unfold lower_at.
  replace (c =? 931) with false by (symmetry; apply N.eqb_neq; lia).
  rewrite lower_full_ascii by exact Hc. reflexivity.
Qed.

Lemma lower_ascii (s : str) : Forall (fun c => c < 128) s -> lower s = map lower_c s.
Proof. apply lower_from_ascii. Qed.

Lemma normalize_beat_eq (raw : str) :
  raw <> [] -> normalize_beat raw = beat_choice (filter beat_keep (collapse_beat_sep false (lower (strip raw)))).
Proof. destruct raw; [contradiction | reflexivity]. Qed.

Lemma mapping_values_fixed (kv : str * str) : In kv beat_mapping -> normalize_beat (snd kv) = snd kv.
Proof. intro H. repeat (destruct H as [<- | H]; [reflexivity|]). destruct H. Qed.

Lemma mapping_values_nonempty (kv : str * str) : In kv beat_mapping -> snd kv <> [].
Proof. intro H. repeat (destruct H as [<- | H]; [discriminate|]). destruct H. Qed.

Lemma special_lookup_In (sp : list (N * list N)) (c : N) (v : list N) :
  special_lookup sp c = Some v -> In (c, v) sp.
Proof.
  induction sp as [|[k w] sp IH]; simpl; [discriminate|].
  destruct (c =? k) eqn:E; intro H.
  - apply N.eqb_eq in E. subst k. injection H as <-. left. reflexivity.
  - right. exact (IH H).
Qed.

Lemma case_map_nonempty (runs : list (N * N * N * N)) (sp : list (N * list N)) (c : N) :
  forallb (fun kv => negb (is_empty (snd kv))) sp = true -> case_map runs sp c <> [].
Proof.
  intro H. unfold case_map. destruct (special_lookup sp c) as [v|] eqn:E.
  - apply special_lookup_In in E. rewrite forallb_forall in H. specialize (H _ E).
    simpl in H. destruct v; [discriminate | intro; discriminate].
  - destruct (run_lookup runs c); discriminate.
Qed.

Lemma title_full_nonempty (c : N) : title_full c <> [].
Proof. apply case_map_nonempty. vm_compute. reflexivity. Qed.

Lemma lower_full_nonempty (c : N) : lower_full c <> [].
Proof. apply case_map_nonempty. vm_compute. reflexivity. Qed.

(** [normalize_beat] never returns the empty string, so the [if section:]
    tests of [extract_profiles] always hold. *)
Theorem normalize_beat_nonempty (raw : str) : normalize_beat raw <> [].
Proof.
  destruct raw as [|c r]; [discriminate|].
  rewrite normalize_beat_eq by discriminate. unfold beat_choice.
  destruct (find _ beat_mapping) as [[k v]|] eqn:F.
  - apply find_some in F as [F _]. exact (mapping_values_nonempty _ F).
  - destruct (split_ws _) as [|t ts] eqn:S; [discriminate|].
    destruct (split_ws_aux_first _ [] t ts (Forall_nil _) S) as (Ht & _).
    destruct t as [|n t]; [contradiction|]. unfold capitalize.
    pose proof (title_full_nonempty n) as Hn. destruct (title_full n); [contradiction | discriminate].
Qed.

(** [normalize_beat] is idempotent, so applying it a second time to the
    result of [extract_section] (line 379) changes nothing. *)
Theorem normalize_beat_idem (raw : str) : normalize_beat (normalize_beat raw) = normalize_beat raw.
Proof.
  destruct raw as [|c r]; [reflexivity|].
  rewrite (normalize_beat_eq (c :: r)) by discriminate.
  set (s := filter beat_keep (collapse_beat_sep false (lower (strip (c :: r))))).
  unfold beat_choice.
  destruct (find (fun kv => containsb s (fst kv)) beat_mapping) as [[k v]|] eqn:F.
  { apply find_some in F as [F _]. exact (mapping_values_fixed _ F). }
  destruct (split_ws s) as [|t ts] eqn:S; [reflexivity|].
  destruct (split_ws_aux_first s [] t ts (Forall_nil _) S) as (Ht & Hsp & pre & post & E).
  simpl in E.
  assert (Hw : Forall (fun x => word_char_ok x = true) t).
  { apply Forall_forall. intros x Hx. apply word_char_ok_spec.
    assert (Hk : beat_keep x = true).
    { assert (Hin : In x s) by (rewrite E; apply in_or_app; right; apply in_or_app; left; exact Hx).
      unfold s in Hin. apply filter_In in Hin as [_ Hin]. exact Hin. }
    pose proof (proj1 (Forall_forall _ t) Hsp x Hx) as Hns. unfold nonspace in Hns.
    unfold beat_keep in Hk. unfold word_char.
    apply orb_true_iff in Hk as [Hk | Hk]; [exact Hk|].
    apply N.eqb_eq in Hk. subst x. discriminate. }
  destruct t as [|t0 tr]; [contradiction|].
  inversion Hw as [|? ? Hw0 Hwr]; subst.
  assert (Wok : forall x, word_char_ok x = true ->
                is_space x = false /\ beat_sep x = false /\ beat_keep x = true /\ lower_c x = x
                /\ is_space (upper_c x) = false /\ lower_c (upper_c x) = x /\ x < 128 /\ upper_c x < 128).
  { intros x Hx. unfold word_char_ok in Hx.
    repeat match type of Hx with ?a && ?b = true => apply andb_prop in Hx as [Hx ?] end.
    repeat match goal with H : negb _ = true |- _ => apply negb_true_iff in H end.
    repeat match goal with H : N.eqb _ _ = true |- _ => apply N.eqb_eq in H end.
    repeat match goal with H : N.ltb _ _ = true |- _ => apply N.ltb_lt in H end.
    repeat split; assumption. }
  assert (Hlow : forall bf, lower_from bf tr = tr).
  { intro bf. rewrite lower_from_ascii.
    - clear -Hwr Wok. induction Hwr as [|x l Hx _ IH]; [reflexivity|]. simpl. rewrite IH.
      f_equal. apply (Wok x Hx).
    - eapply Forall_impl; [|exact Hwr]. intros x Hx. apply (Wok x Hx). }
  destruct (Wok t0 Hw0) as (W1 & W2 & W3 & W4 & W5 & W6 & W7 & W8).
  assert (Hcap : capitalize (t0 :: tr) = upper_c t0 :: tr).
  { unfold capitalize. rewrite title_full_ascii by exact W7. rewrite Hlow. reflexivity. }
  rewrite Hcap.
  rewrite normalize_beat_eq by discriminate.
  assert (Hns : Forall nonspace (upper_c t0 :: tr)).
  { constructor; [exact W5|]. eapply Forall_impl; [|exact Hwr]. intros x Hx. apply (Wok x Hx). }
  rewrite strip_nonspace by exact Hns.
  assert (Hl2 : lower (upper_c t0 :: tr) = t0 :: tr).
  { unfold lower. simpl. unfold lower_at.
    replace (upper_c t0 =? 931) with false by (symmetry; apply N.eqb_neq; lia).
    rewrite lower_full_ascii by exact W8. rewrite W6, Hlow. reflexivity. }
  rewrite Hl2.
  assert (Hcl : collapse_beat_sep false (t0 :: tr) = t0 :: tr /\ filter beat_keep (t0 :: tr) = t0 :: tr).
  { assert (Hall : Forall (fun x => word_char_ok x = true) (t0 :: tr)) by (constructor; assumption).
    clear -Hall Wok. split.
    - generalize false. induction Hall as [|x l Hx _ IH]; intro b; [reflexivity|].
      simpl. rewrite (proj1 (proj2 (Wok x Hx))). rewrite IH. reflexivity.
    - induction Hall as [|x l Hx _ IH]; [reflexivity|].
      simpl. rewrite (proj1 (proj2 (proj2 (Wok x Hx)))). rewrite IH. reflexivity. }
  destruct Hcl as [-> ->].
  unfold beat_choice.
  assert (Fn : find (fun kv => containsb (t0 :: tr) (fst kv)) beat_mapping = None).
  { destruct (find (fun kv => containsb (t0 :: tr) (fst kv)) beat_mapping) as [kv|] eqn:F2; [|reflexivity].
    apply find_some in F2 as [F2 H2].
    pose proof (find_none _ _ F kv F2) as H3. simpl in H3.
    rewrite E, (containsb_infix pre (t0 :: tr) post (fst kv) H2) in H3. discriminate. }
  rewrite Fn. unfold split_ws.
  rewrite (split_ws_aux_word (t0 :: tr) [] Hsp) by discriminate.
  simpl. exact Hcap.
Qed.

(* ------------------------------------------------------------------ *)
(** ** [extract_authors]: the cleaning step *)

Lemma lstrip_split (l : str) :
  exists p, l = p ++ lstrip l /\ Forall (fun c => is_space c = true) p.
Proof.
  induction l as [|c r IH]; simpl.
  - exists []. split; [reflexivity | constructor].
  - destruct (is_space c) eqn:E.
    + destruct IH as (p & Hp & Hs). exists (c :: p). split; [simpl; f_equal; exact Hp | constructor; assumption].
    + exists []. split; [reflexivity | constructor].
Qed.

Lemma lstrip_head (l : str) (c : N) (r : str) : lstrip l = c :: r -> is_space c = false.
Proof.
  induction l as [|x l IH]; simpl; [discriminate|].
  destruct (is_space x) eqn:E; [exact IH|]. intro H. injection H as <- _. exact E.
Qed.

Lemma lstrip_fix (l : str) : (forall c r, l = c :: r -> is_space c = false) -> lstrip l = l.
Proof.
  destruct l as [|c r]; intro H; [reflexivity|]. simpl. rewrite (H c r eq_refl). reflexivity.
Qed.

(** [s.strip()] is idempotent. *)
Lemma strip_idem (x : str) : strip (strip x) = strip x.
Proof.
  unfold strip. set (y := lstrip x). set (z := lstrip (rev y)).
  assert (Hz : forall c r, z = c :: r -> is_space c = false)
    by (intros c r E; exact (lstrip_head _ c r E)).
  destruct (lstrip_split (rev y)) as (p & E & _). fold z in E.
  assert (Ey : y = rev z ++ rev p) by (rewrite <- rev_app_distr, <- E, rev_involutive; reflexivity).
  rewrite (lstrip_fix (rev z)).
  - rewrite rev_involutive, (lstrip_fix z Hz). reflexivity.
  - intros c r Er. apply (lstrip_head x c (r ++ rev p)). fold y. rewrite Ey, Er. reflexivity.
Qed.

(* ------------------------------------------------------------------ *)
(** ** Pages without a usable author *)

Lemma dict_get_set_same {V} (k : str) (v : V) (m : list (str * V)) :
  dict_get k (dict_set k v m) = Some v.
Proof.
  induction m as [|[k' v'] r IH]; simpl.
  - rewrite str_eqb_refl. reflexivity.
  - destruct (str_eqb k k') eqn:E; simpl.
    + rewrite E. reflexivity.
    + rewrite E. exact IH.
Qed.

Lemma dict_set_new_length {V} (k : str) (v : V) (m : list (str * V)) :
  dict_get k m = None -> List.length (dict_set k v m) = S (List.length m).
Proof.
  induction m as [|[k' v'] r IH]; simpl; [reflexivity|].
  destruct (str_eqb k k'); [discriminate|]. simpl. intro H. rewrite (IH H). reflexivity.
Qed.

(** When cleaning leaves no author (no byline at all, or only placeholders
    such as "Staff"), [extract_authors] returns ["Unknown"] and the page
    adds a map entry under the key "unknown": the page raises nothing and
    the map grows by one key, which counts towards [min_profiles] although
    [_finalize_profiles] never outputs it. *)
Theorem authorless_page_adds_unknown (m : profiles_map) (url : str) (pg : page) :
  clean_authors (pg_authors pg) = [UNKNOWN] ->
  dict_get (u "unknown") m = None ->
  snd (process_page m url pg) = false
  /\ List.length (fst (process_page m url pg)) = S (List.length m)
  /\ exists e, dict_get (u "unknown") (fst (process_page m url pg)) = Some e
               /\ e_name e = UNKNOWN
               /\ fst (finalize_entry e) = None.
Proof.
  intros Ha Hm.
  assert (E : process_page m url pg
              = (dict_set (u "unknown")
                   (new_entry UNKNOWN (normalize_beat (normalize_beat (pg_section pg)))
                      (pg_title pg) url (pg_pub_date pg)) m, false)).
  { unfold process_page. rewrite Ha. simpl merge_authors. unfold merge_author.
    change (normalize_name UNKNOWN) with UNKNOWN. change (is_empty UNKNOWN) with false.
    change (lower UNKNOWN) with (u "unknown"). cbv iota beta. rewrite Hm. reflexivity. }
  rewrite E. simpl fst. simpl snd.
  split; [reflexivity|]. split; [apply dict_set_new_length; exact Hm|].
  eexists. split; [apply dict_get_set_same|]. split; reflexivity.
Qed.

Lemma authorless_page_adds_unknown_witness :
  clean_authors (pg_authors (mk_page [u "Staff"] (u "T") (u "2024-01-01") (u "World"))) = [UNKNOWN]
  /\ dict_get (u "unknown") ([] : profiles_map) = None
  /\ List.length (fst (process_page [] (u "/a") (mk_page [u "Staff"] (u "T") (u "2024-01-01") (u "World")))) = 1%nat.
Proof.
  assert (H1 : clean_authors (pg_authors (mk_page [u "Staff"] (u "T") (u "2024-01-01") (u "World"))) = [UNKNOWN])
    by (vm_compute; reflexivity).
  assert (H2 : dict_get (u "unknown") ([] : profiles_map) = None) by reflexivity.
  split; [exact H1|]. split; [exact H2|].
  exact (proj1 (proj2 (authorless_page_adds_unknown [] (u "/a") _ H1 H2))).
Defined.

(* ------------------------------------------------------------------ *)
(** ** [_finalize_profiles]: what it keeps, and a second run *)

Lemma insert_profile_length (x : profile) (l : list profile) :
  List.length (insert_profile x l) = S (List.length l).
Proof. induction l as [|y r IH]; simpl; [reflexivity|]. destruct (key_ltb y x); simpl; rewrite ?IH; reflexivity. Qed.

Lemma sort_profiles_length (l : list profile) : List.length (sort_profiles l) = List.length l.
Proof. unfold sort_profiles. induction l as [|y r IH]; simpl; [reflexivity|]. rewrite insert_profile_length, IH. reflexivity. Qed.

Lemma finalize_entry_fst (v : entry) (k : str) :
  match fst (finalize_entry v) with Some _ => true | None => false end = kept_entry (k, v).
Proof.
  unfold finalize_entry, kept_entry, kept_name. cbn [snd].
  destruct (is_empty (lower (strip (e_name v))) || mem_str (lower (strip (e_name v))) blacklist); reflexivity.
Qed.

Lemma finalize_entries_length (m : profiles_map) :
  List.length (fst (finalize_entries m)) = List.length (filter kept_entry m).
Proof.
  induction m as [|[k v] r IH]; simpl; [reflexivity|].
  pose proof (finalize_entry_fst v k) as Hk.
  destruct (finalize_entry v) as [po v'] eqn:Ev. destruct (finalize_entries r) as [ps r'] eqn:Er.
  simpl in *. rewrite <- Hk. destruct po; simpl; rewrite IH; reflexivity.
Qed.

Lemma finalize_profiles_kept_length (m : profiles_map) :
  List.length (fst (_finalize_profiles m)) = List.length (filter kept_entry m).
Proof. rewrite finalize_profiles_all, sort_profiles_length. apply finalize_entries_length. Qed.

Lemma insert_profile_perm (x : profile) (l : list profile) : Permutation (insert_profile x l) (x :: l).
Proof.
  induction l as [|y r IH]; simpl; [reflexivity|].
  destruct (key_ltb y x); [|reflexivity].
  eapply perm_trans; [apply perm_skip; exact IH | apply perm_swap].
Qed.

Lemma sort_profiles_perm (l : list profile) : Permutation (sort_profiles l) l.
Proof.
  unfold sort_profiles. induction l as [|y r IH]; simpl; [reflexivity|].
  eapply perm_trans; [apply insert_profile_perm | apply perm_skip; exact IH].
Qed.

Lemma finalize_entries_kept (m : profiles_map) :
  Forall2 (fun kv p => fst (finalize_entry (snd kv)) = Some p
                       /\ name p = e_name (snd kv) /\ articles_count p = e_articles_count (snd kv))
          (filter kept_entry m) (fst (finalize_entries m)).
Proof.
  induction m as [|[k v] r IH]; simpl; [constructor|].
  pose proof (finalize_entry_fst v k) as Hk. pose proof (finalize_entry_some v) as Hs.
  destruct (finalize_entry v) as [po v'] eqn:Ev. destruct (finalize_entries r) as [ps r'] eqn:Er.
  cbn [fst] in *. rewrite <- Hk. destruct po as [p|]; cbv iota; [|exact IH].
  constructor; [|exact IH]. cbn [snd].
  destruct (Hs p eq_refl) as (_ & H1 & H2). rewrite Ev. auto.
Qed.

(** [_finalize_profiles] returns exactly one profile for each map entry
    whose stripped, lower-cased name is neither empty nor blacklisted, and
    nothing else: up to the order of the sort, the returned list matches
    the kept entries one to one, each profile being the one built from its
    entry, with its name and article count. The cut
    [profiles[:max(30, len(profiles))]] never drops one. *)
Theorem finalize_profiles_one_per_entry (m : profiles_map) :
  exists ps, Permutation (fst (_finalize_profiles m)) ps
    /\ Forall2 (fun kv p => fst (finalize_entry (snd kv)) = Some p
                            /\ name p = e_name (snd kv) /\ articles_count p = e_articles_count (snd kv))
               (filter kept_entry m) ps.
Proof.
  exists (fst (finalize_entries m)). split; [|apply finalize_entries_kept].
  rewrite finalize_profiles_all. apply sort_profiles_perm.
Qed.

Lemma finalize_entry_form (v : entry) :
  finalize_entry v = (None, v)
  \/ ((is_empty (lower (strip (e_name v))) || mem_str (lower (strip (e_name v))) blacklist) = false
      /\ exists w, finalize_entry v
                   = (Some (mk_profile (e_name w) (e_beat w) (or_unknown (e_latest_article w))
                                       (e_article_url w) (e_publication_date w) (e_articles_count w)), w)
                 /\ e_beat_counts w = None /\ e_name w = e_name v).
Proof.
  unfold finalize_entry.
  destruct (is_empty (lower (strip (e_name v))) || mem_str (lower (strip (e_name v))) blacklist) eqn:E;
    [left; reflexivity | right].
  split; [reflexivity|]. eexists. split; [reflexivity|]. split; [reflexivity|].
  destruct (e_beat_counts v) as [[|kv bc]|]; [reflexivity| |reflexivity].
  destruct (best_beat (kv :: bc)) as [[b c]|]; reflexivity.
Qed.

Lemma finalize_entry_again (v : entry) :
  finalize_entry (snd (finalize_entry v)) = (fst (finalize_entry v), snd (finalize_entry v)).
Proof.
  destruct (finalize_entry_form v) as [H | (Hc & w & H & Hb & Hn)]; rewrite H; cbn [fst snd]; [exact H|].
  rewrite <- Hn in Hc. unfold finalize_entry. rewrite Hc, Hb. destruct w. cbn in Hb. subst. reflexivity.
Qed.

Lemma finalize_entries_again (m : profiles_map) :
  finalize_entries (snd (finalize_entries m)) = finalize_entries m.
Proof.
  induction m as [|[k v] r IH]; simpl; [reflexivity|].
  pose proof (finalize_entry_again v) as Hv.
  destruct (finalize_entry v) as [po v'] eqn:Ev. destruct (finalize_entries r) as [ps r'] eqn:Er.
  simpl in *. rewrite Hv, IH. reflexivity.
Qed.

(** [_finalize_profiles] pops [beat_counts] and stores the chosen beat in
    the map it is given, so a second call on the map the first call left
    returns the same profiles and leaves the same map: a checkpoint taken
    after the last processed page is what the final call returns. *)
Theorem finalize_profiles_again (m : profiles_map) :
  _finalize_profiles (snd (_finalize_profiles m)) = _finalize_profiles m.
Proof.
  unfold _finalize_profiles.
  pose proof (finalize_entries_again m) as H.
  destruct (finalize_entries m) as [ps m'] eqn:E. cbn [snd] in H |- *. rewrite H. reflexivity.
Qed.

(* ------------------------------------------------------------------ *)
(** ** The loop of [extract_profiles]: requests and checkpoints *)

(** An invariant of the state is kept by [profiles_loop] when each of the
    four transitions of an iteration keeps it. *)
Lemma profiles_loop_inv (I : run_state -> Prop) (min_profiles : nat) (fetch : str -> option page) :
  (forall st url, I st -> I (mk_run (rs_map st) (rs_processed st) (rs_requested st ++ [url]) (rs_checkpoints st))) ->
  (forall st url pg, I st -> snd (process_page (rs_map st) url pg) = true ->
     I (mk_run (fst (process_page (rs_map st) url pg)) (rs_processed st) (rs_requested st ++ [url]) (rs_checkpoints st))) ->
  (forall st url pg, I st -> snd (process_page (rs_map st) url pg) = false ->
     Nat.eqb (Nat.modulo (S (rs_processed st)) WRITE_PROGRESS_EVERY) 0 = false ->
     I (mk_run (fst (process_page (rs_map st) url pg)) (S (rs_processed st)) (rs_requested st ++ [url]) (rs_checkpoints st))) ->
  (forall st url pg, I st -> snd (process_page (rs_map st) url pg) = false ->
     Nat.eqb (Nat.modulo (S (rs_processed st)) WRITE_PROGRESS_EVERY) 0 = true ->
     I (mk_run (snd (_finalize_profiles (fst (process_page (rs_map st) url pg)))) (S (rs_processed st))
               (rs_requested st ++ [url])
               (rs_checkpoints st ++ [fst (_finalize_profiles (fst (process_page (rs_map st) url pg)))]))) ->
  forall urls st, I st -> I (profiles_loop min_profiles fetch urls st).
Proof.
  intros Hn Hr Hp Hc urls. induction urls as [|url rest IH]; intros st Hst; simpl; [exact Hst|].
  destruct (Nat.leb min_profiles (List.length (rs_map st))); [exact Hst|].
  destruct (fetch url) as [pg|]; [|apply IH, Hn, Hst].
  specialize (Hr st url pg Hst). specialize (Hp st url pg Hst). specialize (Hc st url pg Hst).
  destruct (process_page (rs_map st) url pg) as [m1 raised]. cbn [fst snd] in *.
  destruct raised; [apply IH, Hr; reflexivity|].
  destruct (Nat.eqb _ 0) eqn:E.
  - specialize (Hc eq_refl eq_refl). destruct (_finalize_profiles m1) as [ps m2]. apply IH, Hc.
  - apply IH, Hp; reflexivity.
Qed.

Lemma profiles_loop_requested (min_profiles : nat) (fetch : str -> option page) (urls : list str) (st : run_state) :
  exists rest, rs_requested st ++ urls = rs_requested (profiles_loop min_profiles fetch urls st) ++ rest
               /\ (rest = [] \/ (min_profiles <= List.length (rs_map (profiles_loop min_profiles fetch urls st)))%nat).
Proof.
  revert st. induction urls as [|url rest IH]; intro st; simpl.
  - exists []. split; [reflexivity | left; reflexivity].
  - destruct (Nat.leb min_profiles (List.length (rs_map st))) eqn:Em.
    + exists (url :: rest). split; [reflexivity|]. right. apply Nat.leb_le. exact Em.
    + rewrite (app_assoc _ [url] rest).
      destruct (fetch url) as [pg|];
        [destruct (process_page (rs_map st) url pg) as [m1 raised];
         destruct raised; [|destruct (Nat.eqb _ 0); [destruct (_finalize_profiles m1)|]]|];
        match goal with |- context [profiles_loop _ _ _ ?s] => exact (IH s) end.
Qed.

(** [extract_profiles] issues the robots check and the GET of the URLs in
    the order [find_article_links] returned them, each once: the URLs
    requested are a prefix of the list, and when some URL is left out the
    map has reached [min_profiles] keys. *)
Theorem extract_profiles_requests_prefix (min_profiles : nat) (fetch : str -> option page) (urls : list str) :
  exists rest, urls = rs_requested (profiles_loop min_profiles fetch urls init_run) ++ rest
               /\ (rest = [] \/ (min_profiles <= List.length (rs_map (profiles_loop min_profiles fetch urls init_run)))%nat).
Proof. exact (profiles_loop_requested min_profiles fetch urls init_run). Qed.

(** One partial [data.json] is written for every fifth page processed
    without an exception: pages skipped by the robots check or a failed
    GET, and pages whose processing raised, are not counted. *)
Theorem checkpoints_every_five (min_profiles : nat) (fetch : str -> option page) (urls : list str) :
  List.length (rs_checkpoints (profiles_loop min_profiles fetch urls init_run))
  = Nat.div (rs_processed (profiles_loop min_profiles fetch urls init_run)) WRITE_PROGRESS_EVERY.
Proof.
  apply (profiles_loop_inv (fun st => List.length (rs_checkpoints st) = Nat.div (rs_processed st) WRITE_PROGRESS_EVERY));
    unfold WRITE_PROGRESS_EVERY; cbn [rs_checkpoints rs_processed]; auto.
  - intros st url pg H _ E. cbn [rs_checkpoints rs_processed]. apply Nat.eqb_neq in E. rewrite H.
    pose proof (Nat.div_mod_eq (rs_processed st) 5). pose proof (Nat.mod_upper_bound (rs_processed st) 5).
    pose proof (Nat.div_mod_eq (S (rs_processed st)) 5). pose proof (Nat.mod_upper_bound (S (rs_processed st)) 5).
    lia.
  - intros st url pg H _ E. cbn [rs_checkpoints rs_processed]. apply Nat.eqb_eq in E. rewrite length_app, H. cbn [List.length].
    pose proof (Nat.div_mod_eq (rs_processed st) 5). pose proof (Nat.mod_upper_bound (rs_processed st) 5).
    pose proof (Nat.div_mod_eq (S (rs_processed st)) 5). lia.
Qed.

(* ------------------------------------------------------------------ *)
(** ** Partial results never shrink *)

Lemma dict_set_names_new (k : str) (v : entry) (m : profiles_map) :
  dict_get k m = None -> map_names (dict_set k v m) = map_names m ++ [e_name v].
Proof.
  induction m as [|[k' v'] r IH]; simpl; [reflexivity|].
  destruct (str_eqb k k'); [discriminate|]. intro H. unfold map_names in *. simpl. rewrite (IH H). reflexivity.
Qed.

Lemma dict_set_names_upd (k : str) (v e : entry) (m : profiles_map) :
  dict_get k m = Some e -> e_name v = e_name e -> map_names (dict_set k v m) = map_names m.
Proof.
  induction m as [|[k' v'] r IH]; simpl; [discriminate|].
  destruct (str_eqb k k'); intros H Hn.
  - injection H as <-. unfold map_names. simpl. rewrite Hn. reflexivity.
  - unfold map_names in *. simpl. rewrite (IH H Hn). reflexivity.
Qed.

Lemma merge_author_names (m : profiles_map) (url title pub_date section author : str) :
  exists t, map_names (fst (merge_author m url title pub_date section author)) = map_names m ++ t.
Proof.
  unfold merge_author.
  destruct (is_empty (normalize_name author)); [exists []; rewrite app_nil_r; reflexivity|].
  destruct (dict_get (lower (normalize_name author)) m) as [e|] eqn:E.
  - exists []. rewrite app_nil_r.
    destruct (is_empty section).
    + destruct (_prefer_newer _ pub_date); simpl; eapply dict_set_names_upd; eauto.
    + destruct (e_beat_counts (with_count e (S (e_articles_count e)))) as [bc|].
      * destruct (_prefer_newer _ pub_date); simpl; eapply dict_set_names_upd; eauto.
      * simpl. eapply dict_set_names_upd; eauto.
  - eexists. simpl. apply dict_set_names_new. exact E.
Qed.

Lemma merge_authors_names (m : profiles_map) (url title pub_date section : str) (authors : list str) :
  exists t, map_names (fst (merge_authors m url title pub_date section authors)) = map_names m ++ t.
Proof.
  revert m. induction authors as [|a r IH]; intro m; simpl; [exists []; rewrite app_nil_r; reflexivity|].
  destruct (merge_author_names m url title pub_date section a) as [t1 H1].
  destruct (merge_author m url title pub_date section a) as [m1 raised]. simpl in H1.
  destruct raised; [exists t1; exact H1|].
  destruct (IH m1) as [t2 H2]. exists (t1 ++ t2). rewrite H2, H1, app_assoc. reflexivity.
Qed.

Lemma finalize_entries_names (m : profiles_map) : map_names (snd (finalize_entries m)) = map_names m.
Proof.
  induction m as [|[k v] r IH]; simpl; [reflexivity|].
  assert (Hn : e_name (snd (finalize_entry v)) = e_name v).
  { destruct (finalize_entry_form v) as [H | (_ & w & H & _ & Hn)]; rewrite H; [reflexivity | exact Hn]. }
  destruct (finalize_entry v) as [po v']. destruct (finalize_entries r) as [ps r'].
  unfold map_names in *. simpl in *. rewrite IH, Hn. reflexivity.
Qed.

Lemma kept_count_names (m : profiles_map) :
  List.length (filter kept_entry m) = List.length (filter kept_name (map_names m)).
Proof.
  induction m as [|[k v] r IH]; simpl; [reflexivity|].
  unfold kept_entry at 1. simpl. destruct (kept_name (e_name v)); simpl; rewrite IH; reflexivity.
Qed.

Lemma kept_count_grow (m m' : profiles_map) (t : list str) :
  map_names m' = map_names m ++ t ->
  (List.length (filter kept_entry m) <= List.length (filter kept_entry m'))%nat.
Proof.
  intro H. rewrite !kept_count_names, H, filter_app, length_app. lia.
Qed.

Lemma Sorted_snoc {A} (R : A -> A -> Prop) (l : list A) (x : A) :
  Sorted R l -> (forall y, In y l -> R y x) -> Sorted R (l ++ [x]).
Proof.
  induction l as [|y r IH]; simpl; intros Hs Hx; [repeat constructor|].
  apply Sorted_inv in Hs as [Hr Hd]. constructor.
  - apply IH; [exact Hr | intros z Hz; apply Hx; right; exact Hz].
  - destruct r as [|z r']; simpl.
    + constructor. apply Hx. left. reflexivity.
    + constructor. apply HdRel_inv in Hd. exact Hd.
Qed.

(** The profile lists written to [data.json] during the run, followed by
    the list [extract_profiles] returns, have non-decreasing lengths: a
    key, once in the map, is never removed and keeps its name, so a later
    write never lists fewer profiles than an earlier one. *)
Theorem checkpoints_never_shrink (min_profiles : nat) (fetch : str -> option page) (urls : list str) :
  Sorted (fun ps qs => (List.length ps <= List.length qs)%nat)
         (rs_checkpoints (profiles_loop min_profiles fetch urls init_run)
          ++ [extract_profiles_urls min_profiles fetch urls]).
Proof.
  set (Inv := fun st : run_state =>
         Sorted (fun ps qs : list profile => (List.length ps <= List.length qs)%nat) (rs_checkpoints st)
         /\ forall ps, In ps (rs_checkpoints st) -> (List.length ps <= List.length (filter kept_entry (rs_map st)))%nat).
  assert (Hpp : forall st url pg, Inv st -> forall ps, In ps (rs_checkpoints st) ->
                  (List.length ps <= List.length (filter kept_entry (fst (process_page (rs_map st) url pg))))%nat).
  { intros st url pg [_ H] ps Hps. eapply Nat.le_trans; [exact (H ps Hps)|].
    destruct (merge_authors_names (rs_map st) url (pg_title pg) (pg_pub_date pg)
                (normalize_beat (normalize_beat (pg_section pg))) (clean_authors (pg_authors pg))) as [t Ht].
    exact (kept_count_grow _ _ t Ht). }
  assert (Hinv : Inv (profiles_loop min_profiles fetch urls init_run)).
  { apply profiles_loop_inv.
    - intros st url H. exact H.
    - intros st url pg H _. split; [exact (proj1 H)|]. exact (Hpp st url pg H).
    - intros st url pg H _ _. split; [exact (proj1 H)|]. exact (Hpp st url pg H).
    - intros st url pg H _ _. unfold Inv. cbn [rs_checkpoints rs_map].
      set (m1 := fst (process_page (rs_map st) url pg)).
      assert (Hl : List.length (fst (_finalize_profiles m1)) = List.length (filter kept_entry (snd (_finalize_profiles m1)))).
      { rewrite finalize_profiles_kept_length, !kept_count_names.
        unfold _finalize_profiles. pose proof (finalize_entries_names m1) as Hn.
        destruct (finalize_entries m1) as [ps m']. simpl in *. rewrite Hn. reflexivity. }
      split.
      + apply Sorted_snoc; [exact (proj1 H)|]. intros y Hy.
        rewrite finalize_profiles_kept_length. exact (Hpp st url pg H y Hy).
      + intros ps Hps. apply in_app_or in Hps as [Hps | [<- | []]].
        * rewrite <- Hl, finalize_profiles_kept_length. exact (Hpp st url pg H ps Hps).
        * rewrite Hl. reflexivity.
    - split; [constructor | intros ps []]. }
  destruct Hinv as [Hs Hle]. apply Sorted_snoc; [exact Hs|].
  intros y Hy. unfold extract_profiles_urls. rewrite finalize_profiles_kept_length. exact (Hle y Hy).
Qed.

(* ------------------------------------------------------------------ *)
(** ** [find_article_links]: the links returned and the pages visited *)

Lemma url_eqb_eq (a b : url) : url_eqb a b = true <-> a = b.
Proof.
  destruct a as [s1 n1 p1 q1], b as [s2 n2 p2 q2]. unfold url_eqb. simpl.
  rewrite !andb_true_iff, !str_eqb_eq. split.
  - intros [[[-> ->] ->] ->]. reflexivity.
  - intro H. injection H as -> -> -> ->. tauto.
Qed.

Lemma mem_url_false (x : url) (l : list url) : mem_url x l = false -> ~ In x l.
Proof.
  unfold mem_url. intros H Hx. assert (existsb (url_eqb x) l = true) as H'.
  { apply existsb_exists. exists x. split; [exact Hx | apply url_eqb_eq; reflexivity]. }
  rewrite H in H'. discriminate.
Qed.

Lemma NoDup_snoc {A} (l : list A) (x : A) : NoDup l -> ~ In x l -> NoDup (l ++ [x]).
Proof.
  induction l as [|y r IH]; simpl; intros Hl Hx; [repeat constructor; intros []|].
  apply NoDup_cons_iff in Hl as [Hy Hr]. constructor.
  - intro H. apply in_app_or in H as [H | [<- | []]]; [exact (Hy H) | apply Hx; left; reflexivity].
  - apply IH; [exact Hr | intro H; apply Hx; right; exact H].
Qed.

Lemma NoDup_app_l {A} (l l' : list A) : NoDup (l ++ l') -> NoDup l.
Proof.
  induction l as [|y r IH]; simpl; intro H; [constructor|].
  apply NoDup_cons_iff in H as [Hy Hr]. constructor; [|exact (IH Hr)].
  intro H. apply Hy. apply in_or_app. left. exact H.
Qed.

Lemma crawl_loop_links_inv (I : list url -> Prop) (fuel : nat) (robots : url -> bool)
  (fetch : url -> option (list url)) (domain : str) (c : crawl) :
  (forall seen acc full, I (fst acc) -> I (fst (process_link domain seen acc full))) ->
  I (cr_links c) -> I (cr_links (crawl_loop fuel robots fetch domain c)).
Proof.
  intro Hp. revert c. induction fuel as [|fuel IH]; intros c H; simpl; [exact H|].
  destruct (cr_to_visit c) as [|x rest]; [exact H|].
  destruct (negb (Nat.ltb (List.length (cr_links c)) MAX_ARTICLE_URLS)); [exact H|].
  destruct (mem_url x (cr_seen c)); [apply IH; exact H|].
  destruct (negb (robots x)); [apply IH; exact H|].
  destruct (fetch x) as [hrefs|]; [|apply IH; exact H].
  assert (Hf : I (fst (fold_left (process_link domain (cr_seen c ++ [x])) hrefs (cr_links c, rest)))).
  { assert (G : forall hs acc, I (fst acc) -> I (fst (fold_left (process_link domain (cr_seen c ++ [x])) hs acc))).
    { induction hs as [|h r IHh]; intros acc Ha; simpl; [exact Ha|]. apply IHh. apply Hp. exact Ha. }
    apply G. exact H. }
  destruct (fold_left _ hrefs _) as [links tv]. apply IH. exact Hf.
Qed.

(** [find_article_links] returns at most [MAX_ARTICLE_URLS] = 800 URLs, no
    URL twice, each without its query string and with a lower-cased path
    that passes the article-path test (a [/yyyy/m/d/] date or one of the
    article markers). *)
Theorem article_links_shape (fuel : nat) (robots : url -> bool) (fetch : url -> option (list url))
  (base_url : url) :
  NoDup (find_article_links fuel robots fetch base_url)
  /\ (List.length (find_article_links fuel robots fetch base_url) <= MAX_ARTICLE_URLS)%nat
  /\ Forall article_link_ok (find_article_links fuel robots fetch base_url).
Proof.
  unfold find_article_links.
  set (c := crawl_loop fuel robots fetch (lower (url_netloc base_url))
              (mk_crawl (base_url :: map (join_seed base_url) seeds) [] [])).
  assert (H : NoDup (cr_links c) /\ Forall article_link_ok (cr_links c)).
  { apply crawl_loop_links_inv; [|split; constructor].
    intros seen [links tv] full [Hn Hf]. unfold process_link. cbn [fst].
    destruct (negb (containsb (lower (url_netloc full)) (lower (url_netloc base_url)))); [split; assumption|].
    cbn [fst]. destruct (is_article_path (lower (url_path full))) eqn:Ea; [|split; assumption].
    destruct (mem_url (drop_query full) links) eqn:Em; [split; assumption|].
    split.
    - apply NoDup_snoc; [exact Hn | apply mem_url_false; exact Em].
    - apply Forall_app. split; [exact Hf|]. constructor; [|constructor]. split; [reflexivity | exact Ea]. }
  destruct H as [Hn Hf]. rewrite <- (firstn_skipn MAX_ARTICLE_URLS (cr_links c)) in Hn, Hf.
  apply Forall_app in Hf as [Hf _].
  split; [exact (NoDup_app_l _ _ Hn)|]. split; [apply firstn_le_length | exact Hf].
Qed.

Lemma crawl_loop_seen_nodup (fuel : nat) (robots : url -> bool) (fetch : url -> option (list url))
  (domain : str) (c : crawl) :
  NoDup (cr_seen c) -> NoDup (cr_seen (crawl_loop fuel robots fetch domain c)).
Proof.
  revert c. induction fuel as [|fuel IH]; intros c H; simpl; [exact H|].
  destruct (cr_to_visit c) as [|x rest]; [exact H|].
  destruct (negb (Nat.ltb (List.length (cr_links c)) MAX_ARTICLE_URLS)); [exact H|].
  destruct (mem_url x (cr_seen c)) eqn:Em; [apply IH; exact H|].
  assert (Hs : NoDup (cr_seen c ++ [x])) by (apply NoDup_snoc; [exact H | apply mem_url_false; exact Em]).
  destruct (negb (robots x)); [apply IH; exact Hs|].
  destruct (fetch x) as [hrefs|]; [|apply IH; exact Hs].
  destruct (fold_left _ hrefs _) as [links tv]. apply IH. exact Hs.
Qed.

(** The crawl of [find_article_links] fetches each page at most once: the
    URLs it marks as seen, each checked against [robots.txt] and requested
    at most once, hold no duplicate. *)
Theorem crawl_visits_once (fuel : nat) (robots : url -> bool) (fetch : url -> option (list url))
  (base_url : url) :
  NoDup (cr_seen (crawl_loop fuel robots fetch (lower (url_netloc base_url))
                    (mk_crawl (base_url :: map (join_seed base_url) seeds) [] []))).
Proof. apply crawl_loop_seen_nodup. constructor. Qed.

(* ------------------------------------------------------------------ *)
(** ** [_atomic_write_json]: other files, and the temporary file *)

Section AtomicWriteFrame.

Variable fails : nat -> bool.

Lemma keeps_ret {A} (P : wstate -> Prop) (a : A) : keeps P (ret a).
Proof. intros w H. exact H. Qed.

Lemma keeps_bind {A B} (P : wstate -> Prop) (m : M A) (k : A -> M B) :
  keeps P m -> (forall a, keeps P (k a)) -> keeps P (bind m k).
Proof.
  intros Hm Hk w H. rewrite bind_split.
  destruct (fst (m w)) as [a|]; [apply Hk|]; apply Hm; exact H.
Qed.

Lemma keeps_try {A} (P : wstate -> Prop) (m h : M A) :
  keeps P m -> keeps P h -> keeps P (try_except m h).
Proof.
  intros Hm Hh w H. unfold try_except.
  pose proof (Hm w H) as H1. destruct (m w) as [[a|] w']; [exact H1 | apply Hh; exact H1].
Qed.

Lemma keeps_on_fail_bind {A B} (P : wstate -> Prop) (m : M A) (k : A -> M B) :
  keeps P m -> (forall a, keeps_on_fail P (k a)) -> keeps_on_fail P (bind m k).
Proof.
  intros Hm Hk w H. rewrite bind_split.
  destruct (fst (m w)) as [a|]; [apply Hk; apply Hm; exact H|]. intros _. apply Hm. exact H.
Qed.

Lemma keeps_on_fail_os_call (P : wstate -> Prop) (eff : fs -> fs) :
  (forall w, P w -> P (mk_ws (ws_fs w) (S (ws_tick w)) (ws_trace w))) ->
  keeps_on_fail P (os_call fails eff).
Proof.
  intros Hf w H. unfold os_call. destruct (fails (ws_tick w)); [intros _; apply Hf; exact H | discriminate].
Qed.

Lemma keeps_os_call (P : wstate -> Prop) (eff : fs -> fs) :
  (forall w, P w -> P (mk_ws (ws_fs w) (S (ws_tick w)) (ws_trace w))) ->
  (forall w, P w -> P (mk_ws (eff (ws_fs w)) (S (ws_tick w)) (ws_trace w ++ [eff (ws_fs w)]))) ->
  keeps P (os_call fails eff).
Proof. intros Hf Hs w H. unfold os_call. destruct (fails (ws_tick w)); [apply Hf | apply Hs]; exact H. Qed.

Lemma keeps_write_chunks (P : wstate -> Prop) (p : str) (chunks : list str) :
  (forall c, keeps P (os_call fails (append_file p c))) -> keeps P (write_chunks fails p chunks).
Proof.
  intro Hc. induction chunks as [|c r IH]; simpl; [apply keeps_ret|].
  apply keeps_bind; [apply Hc | intros _; exact IH].
Qed.

(** A call whose effect leaves [q] as it is keeps [path_fixed q v]. *)
Lemma keeps_fixed_os_call (q : str) (v : option str) (eff : fs -> fs) :
  (forall f, eff f q = f q) -> keeps (path_fixed q v) (os_call fails eff).
Proof.
  intro He. apply keeps_os_call; intros w [H1 H2]; split; simpl; auto.
  - rewrite He. exact H1.
  - intros f Hf. apply in_app_or in Hf as [Hf | [<- | []]]; [auto|]. rewrite He. exact H1.
Qed.

Lemma append_file_other (p q c : str) (f : fs) : q <> p -> append_file p c f q = f q.
Proof. intro H. unfold append_file, fs_set. rewrite str_eqb_neq; auto. Qed.

Lemma fs_set_other (p q : str) (c : option str) (f : fs) : q <> p -> fs_set f p c q = f q.
Proof. intro H. unfold fs_set. rewrite str_eqb_neq; auto. Qed.

(** [_atomic_write_json] touches no file other than the destination and
    its temporary file: any other path keeps its contents in every state
    the file system passes through, whichever operating-system calls
    raise. *)
Theorem atomic_write_frame (path tmp q : str) (chunks : list str) (f0 : fs) :
  q <> path -> q <> tmp ->
  ws_fs (snd (_atomic_write_json fails path tmp chunks (init_ws f0))) q = f0 q
  /\ forall f, In f (ws_trace (snd (_atomic_write_json fails path tmp chunks (init_ws f0)))) -> f q = f0 q.
Proof.
  intros Hp Ht.
  assert (K : keeps (path_fixed q (f0 q)) (_atomic_write_json fails path tmp chunks)).
  { unfold _atomic_write_json. apply keeps_try.
    - unfold atomic_attempt.
      apply keeps_bind; [apply keeps_fixed_os_call; intro f; apply fs_set_other; exact Ht | intros _].
      apply keeps_bind;
        [apply keeps_write_chunks; intro c; apply keeps_fixed_os_call; intro f; apply append_file_other; exact Ht
        | intros _].
      apply keeps_bind; [apply keeps_fixed_os_call; intro f; reflexivity | intros _].
      apply keeps_bind; [apply keeps_fixed_os_call; intro f; reflexivity | intros _].
      apply keeps_fixed_os_call. intro f. unfold os_replace. rewrite !str_eqb_neq by assumption. reflexivity.
    - unfold direct_write. apply keeps_try; [|apply keeps_ret].
      apply keeps_bind; [apply keeps_fixed_os_call; intro f; apply fs_set_other; exact Hp | intros _].
      apply keeps_write_chunks. intro c. apply keeps_fixed_os_call. intro f. apply append_file_other. exact Hp. }
  apply K. split; [reflexivity|]. intros f [<- | []]. reflexivity.
Qed.

(** When [tempfile.mkstemp] succeeds and a later step of the atomic path
    raises, nothing removes the temporary file: it is still on disk after
    the fallback write, which only opens the destination. *)
Theorem atomic_write_leaves_temp (path tmp : str) (chunks : list str) (f0 : fs) :
  tmp <> path -> fails 0 = false ->
  fst (atomic_attempt fails path tmp chunks (init_ws f0)) = None ->
  ws_fs (snd (_atomic_write_json fails path tmp chunks (init_ws f0))) tmp <> None.
Proof.
  intros Hne H0 Hfail.
  set (P := fun w : wstate => ws_fs w tmp <> None).
  assert (Hp : P (snd (atomic_attempt fails path tmp chunks (init_ws f0)))).
  {
    unfold atomic_attempt. rewrite bind_split.
    assert (E0 : os_call fails (fun f => fs_set f tmp (Some [])) (init_ws f0)
                 = (Some tt, mk_ws (fs_set f0 tmp (Some [])) 1 [f0; fs_set f0 tmp (Some [])]))
      by (unfold os_call; simpl; rewrite H0; reflexivity).
    rewrite E0. cbn [fst snd].
    assert (Hw1 : P (mk_ws (fs_set f0 tmp (Some [])) 1 [f0; fs_set f0 tmp (Some [])])).
    { unfold P. simpl. unfold fs_set. rewrite str_eqb_refl. discriminate. }
    assert (KP : forall eff, (forall f, f tmp <> None -> eff f tmp <> None) -> keeps P (os_call fails eff)).
    { intros eff He. apply keeps_os_call; unfold P; simpl; auto. }
    assert (Kf : keeps_on_fail P
                   (_ <- write_chunks fails tmp chunks ;;
                    _ <- os_call fails (fun f => f) ;;
                    _ <- os_call fails (fun f => f) ;;
                    os_call fails (os_replace tmp path))).
    { apply keeps_on_fail_bind.
      { apply keeps_write_chunks. intro c. apply KP. intros f _.
        unfold append_file, fs_set. rewrite str_eqb_refl. discriminate. }
      intros _. apply keeps_on_fail_bind; [apply KP; auto | intros _].
      apply keeps_on_fail_bind; [apply KP; auto | intros _].
      apply keeps_on_fail_os_call. unfold P. simpl. auto. }
    apply Kf; [exact Hw1|].
    revert Hfail. unfold atomic_attempt. rewrite bind_split, E0. cbn [fst snd]. auto. }
  unfold _atomic_write_json, try_except.
  destruct (atomic_attempt fails path tmp chunks (init_ws f0)) as [r w'] eqn:E.
  simpl in Hfail. subst r. simpl in Hp.
  assert (Kd : keeps P (direct_write fails path chunks)).
  { unfold direct_write. apply keeps_try; [|apply keeps_ret].
    apply keeps_bind; [|intros _; apply keeps_write_chunks; intro c].
    - apply keeps_os_call; unfold P; simpl; auto. intros w Hw. rewrite fs_set_other; auto.
    - apply keeps_os_call; unfold P; simpl; auto. intros w Hw. rewrite append_file_other; auto. }
  exact (Kd w' Hp).
Qed.

End AtomicWriteFrame.

(** Witness for [atomic_write_frame]: with the first chunk write failing,
    a third path stays absent. *)
Lemma atomic_write_frame_witness :
  u "other.json" <> data_json /\ u "other.json" <> tmp_json
  /\ ws_fs (snd (_atomic_write_json (fun k => Nat.eqb k 1) data_json tmp_json [u "{"; u "}"] (init_ws disk0)))
       (u "other.json") = None.
Proof.
  assert (H1 : u "other.json" <> data_json) by discriminate.
  assert (H2 : u "other.json" <> tmp_json) by discriminate.
  split; [exact H1|]. split; [exact H2|].
  exact (proj1 (atomic_write_frame (fun k => Nat.eqb k 1) data_json tmp_json (u "other.json")
                  [u "{"; u "}"] disk0 H1 H2)).
Defined.

(** Witness for [atomic_write_leaves_temp]: [os.replace] (the fifth call)
    fails; the temporary file remains. *)
Lemma atomic_write_leaves_temp_witness :
  tmp_json <> data_json /\ Nat.eqb 0 4 = false
  /\ fst (atomic_attempt (fun k => Nat.eqb k 4) data_json tmp_json [u "{}"] (init_ws disk0)) = None
  /\ ws_fs (snd (_atomic_write_json (fun k => Nat.eqb k 4) data_json tmp_json [u "{}"] (init_ws disk0))) tmp_json <> None.
Proof.
  assert (H1 : tmp_json <> data_json) by discriminate.
  assert (H2 : Nat.eqb 0 4 = false) by reflexivity.
  assert (H3 : fst (atomic_attempt (fun k => Nat.eqb k 4) data_json tmp_json [u "{}"] (init_ws disk0)) = None)
    by (vm_compute; reflexivity).
  split; [exact H1|]. split; [exact H2|]. split; [exact H3|].
  exact (atomic_write_leaves_temp (fun k => Nat.eqb k 4) data_json tmp_json [u "{}"] disk0 H1 H2 H3).
Defined.

(* ------------------------------------------------------------------ *)
(** ** [detect_website]: the candidates *)

Lemma is_alnum_not_space (c : N) : is_alnum c = true -> is_space c = false.
Proof.
  unfold is_alnum, is_upper, is_lower, is_digit. intro H.
  cut (negb (is_space c) = true); [destruct (is_space c); simpl; congruence|].
  apply orb_true_iff in H as [H | H]; [apply orb_true_iff in H as [H | H]|];
    apply andb_prop in H as [H1 H2]; apply N.leb_le in H1; apply N.leb_le in H2.
  - apply (N_range 65 26 (fun c => negb (is_space c))); try lia.
    intros n Hn. do 26 (destruct n as [|n]; [reflexivity|]). lia.
  - apply (N_range 97 26 (fun c => negb (is_space c))); try lia.
    intros n Hn. do 26 (destruct n as [|n]; [reflexivity|]). lia.
  - apply (N_range 48 10 (fun c => negb (is_space c))); try lia.
    intros n Hn. do 10 (destruct n as [|n]; [reflexivity|]). lia.
Qed.

Lemma lower_alnum (c : N) : is_alnum c = true -> word_char (lower_c c) = true.
Proof.
  unfold is_alnum, word_char, lower_c. destruct (is_upper c) eqn:U; simpl.
  - intros _. unfold is_upper in U. apply andb_prop in U as [U1 U2].
    apply N.leb_le in U1. apply N.leb_le in U2.
    unfold is_lower. apply orb_true_iff. left. apply andb_true_intro. split; apply N.leb_le; lia.
  - exact (fun H => H).
Qed.

Lemma In_lstrip (c : N) (l : str) : In c (lstrip l) -> In c l.
Proof.
  destruct (lstrip_split l) as (p & E & _). intro H. rewrite E. apply in_or_app. right. exact H.
Qed.

Lemma In_lstrip_nonspace (c : N) (l : str) : is_space c = false -> In c l -> In c (lstrip l).
Proof.
  destruct (lstrip_split l) as (p & E & Hp). intros Hc H. rewrite E in H.
  apply in_app_or in H as [H | H]; [|exact H].
  rewrite Forall_forall in Hp. rewrite (Hp c H) in Hc. discriminate.
Qed.

Lemma In_strip (c : N) (l : str) : In c (strip l) -> In c l.
Proof. unfold strip. intro H. apply in_rev in H. apply In_lstrip, in_rev, In_lstrip in H. exact H. Qed.

Lemma In_strip_nonspace (c : N) (l : str) : is_space c = false -> In c l -> In c (strip l).
Proof.
  intros Hc H. unfold strip. apply in_rev. rewrite rev_involutive.
  apply In_lstrip_nonspace; [exact Hc|]. apply in_rev. rewrite rev_involutive.
  apply In_lstrip_nonspace; assumption.
Qed.

Lemma lstrip_spaces (l : str) : Forall (fun c => is_space c = true) l -> lstrip l = [].
Proof. induction 1 as [|c r Hc _ IH]; simpl; [reflexivity|]. rewrite Hc. exact IH. Qed.

Lemma split_ws_aux_nil (s cur : str) :
  split_ws_aux cur s = [] -> cur = [] /\ Forall (fun c => is_space c = true) s.
Proof.
  revert cur. induction s as [|c r IH]; intros cur H; simpl in H.
  - destruct cur; [split; constructor | discriminate].
  - destruct (is_space c) eqn:E.
    + destruct cur; [|discriminate]. destruct (IH [] H) as [_ Hr]. split; [reflexivity | constructor; assumption].
    + destruct (IH (c :: cur) H) as [Hc _]. discriminate.
Qed.

Lemma split_ws_aux_chars (s cur t : str) :
  Forall nonspace cur -> In t (split_ws_aux cur s) ->
  forall c, In c t -> (In c cur \/ In c s) /\ is_space c = false.
Proof.
  revert cur. induction s as [|x r IH]; intros cur Hcur Ht c Hc; simpl in Ht.
  - destruct cur as [|y cur]; [contradiction|]. destruct Ht as [<- | []].
    apply in_rev in Hc. split; [left; exact Hc|]. rewrite Forall_forall in Hcur. exact (Hcur c Hc).
  - destruct (is_space x) eqn:E.
    + assert (Hr : In t (split_ws_aux [] r) -> (In c cur \/ In c (x :: r)) /\ is_space c = false).
      { intro H. destruct (IH [] (Forall_nil _) H c Hc) as [[[] | H1] H2]. split; [right; right; exact H1 | exact H2]. }
      destruct cur as [|y cur]; [exact (Hr Ht)|].
      destruct Ht as [<- | Ht]; [|exact (Hr Ht)].
      apply in_rev in Hc. split; [left; exact Hc|]. rewrite Forall_forall in Hcur. exact (Hcur c Hc).
    + destruct (IH (x :: cur) (Forall_cons _ E Hcur) Ht c Hc) as [[[<- | H1] | H1] H2].
      * split; [right; left; reflexivity | exact H2].
      * split; [left; exact H1 | exact H2].
      * split; [right; right; exact H1 | exact H2].
Qed.

Lemma alnum_or_space_ascii (c : N) : alnum_or_space c = true -> c < 128.
Proof.
  unfold alnum_or_space, is_upper, is_lower, is_digit. intro H.
  repeat match type of H with
         | _ || _ = true => apply orb_true_iff in H as [H | H]
         end;
    try (apply andb_prop in H as [_ H]; apply N.leb_le in H; lia).
  apply N.eqb_eq in H. lia.
Qed.

(** [name_clean] lower-cases a string of ASCII characters, where [str.lower]
    is the ASCII case change. *)
Lemma name_clean_eq (query : str) : name_clean query = map lower_c (strip (filter alnum_or_space query)).
Proof.
  unfold name_clean. apply lower_ascii, Forall_forall. intros c Hc.
  apply In_strip, filter_In in Hc as [_ Hc]. exact (alnum_or_space_ascii c Hc).
Qed.

Lemma token_chars (query t : str) (c : N) :
  In t (split_ws (name_clean query)) -> In c t -> word_char c = true.
Proof.
  intros Ht Hc. destruct (split_ws_aux_chars _ [] t (Forall_nil _) Ht c Hc) as [[[] | H1] H2].
  rewrite name_clean_eq in H1. apply in_map_iff in H1 as (c' & <- & H1).
  apply In_strip, filter_In in H1 as [_ H1].
  unfold alnum_or_space in H1. apply orb_true_iff in H1 as [H1 | H1].
  - apply lower_alnum. exact H1.
  - apply N.eqb_eq in H1. subst c'. discriminate.
Qed.

Lemma tokens_nonempty (query : str) :
  split_ws (name_clean query) <> [] <-> existsb is_alnum query = true.
Proof.
  split.
  - intro H. destruct (existsb is_alnum query) eqn:E; [reflexivity|]. exfalso. apply H.
    assert (Hs : Forall (fun c => is_space c = true) (filter alnum_or_space query)).
    { apply Forall_forall. intros c Hc. apply filter_In in Hc as [Hq Hc].
      assert (Ha : is_alnum c = false).
      { destruct (is_alnum c) eqn:Ea; [|reflexivity].
        assert (existsb is_alnum query = true) by (apply existsb_exists; exists c; auto).
        congruence. }
      unfold alnum_or_space in Hc. unfold is_alnum in Ha. rewrite Ha in Hc. simpl in Hc.
      apply N.eqb_eq in Hc. subst c. reflexivity. }
    unfold name_clean, strip. rewrite (lstrip_spaces _ Hs). reflexivity.
  - intro H. apply existsb_exists in H as (c & Hq & Hc). intro Hn.
    apply split_ws_aux_nil in Hn as [_ Hn]. rewrite Forall_forall in Hn.
    assert (Hin : In (lower_c c) (name_clean query)).
    { rewrite name_clean_eq. apply in_map. apply In_strip_nonspace; [apply is_alnum_not_space; exact Hc|].
      apply filter_In. split; [exact Hq|]. unfold alnum_or_space. unfold is_alnum in Hc. rewrite Hc. reflexivity. }
    pose proof (Hn _ Hin) as Hs.
    pose proof (word_char_ok_spec _ (lower_alnum c Hc)) as Hw. unfold word_char_ok in Hw.
    rewrite Hs in Hw. discriminate.
Qed.

Lemma forallb_concat (f : N -> bool) (l : list str) :
  (forall t, In t l -> forallb f t = true) -> forallb f (List.concat l) = true.
Proof.
  induction l as [|t r IH]; simpl; intro H; [reflexivity|].
  rewrite forallb_app, H, IH; auto.
Qed.

Lemma forallb_join (f : N -> bool) (sep : str) (l : list str) :
  forallb f sep = true -> (forall t, In t l -> forallb f t = true) -> forallb f (join sep l) = true.
Proof.
  intro Hs. induction l as [|t r IH]; intro H; [reflexivity|].
  destruct r as [|t' r']; [apply H; left; reflexivity|].
  change (forallb f (t ++ sep ++ join sep (t' :: r')) = true).
  rewrite !forallb_app, (H t (or_introl eq_refl)), Hs, IH; [reflexivity|].
  intros x Hx. apply H. right. exact Hx.
Qed.

(** The heuristic stage of [detect_website] tries 28 URLs when the outlet
    name has an ASCII letter or digit and none otherwise (then only the
    search engines are asked); each is [https://] followed by a host made
    of lower-case letters, digits, dots and dashes. *)
Theorem detect_candidates (query : str) :
  List.length (candidates query) = (if existsb is_alnum query then 28 else 0)%nat
  /\ forall c, In c (candidates query) -> exists host, c = u "https://" ++ host /\ forallb host_char host = true.
Proof.
  assert (Hb : forall b, In b [List.concat (split_ws (name_clean query)); join (u "-") (split_ws (name_clean query))] ->
                         forallb host_char b = true).
  { assert (Ht : forall t, In t (split_ws (name_clean query)) -> forallb host_char t = true).
    { intros t Ht. apply forallb_forall. intros c Hc. pose proof (token_chars query t c Ht Hc) as H.
      unfold host_char. unfold word_char in H. rewrite H. reflexivity. }
    intros b [<- | [<- | []]]; [apply forallb_concat | apply forallb_join; [reflexivity|]]; exact Ht. }
  unfold candidates. destruct (split_ws (name_clean query)) as [|t ts] eqn:E.
  - assert (existsb is_alnum query = false)
      by (destruct (existsb is_alnum query) eqn:Ex; [apply tokens_nonempty in Ex; contradiction | reflexivity]).
    rewrite H. split; [reflexivity | intros c []].
  - assert (Hx : existsb is_alnum query = true) by (apply tokens_nonempty; rewrite E; discriminate).
    rewrite Hx. split; [reflexivity|].
    intros c Hc. apply in_flat_map in Hc as (b & Hbin & Hc). apply in_flat_map in Hc as (t' & Htl & Hc).
    assert (Htld : forallb host_char t' = true)
      by (repeat (destruct Htl as [<- | Htl]; [reflexivity|]); destruct Htl).
    pose proof (Hb b Hbin) as Hbb.
    destruct Hc as [<- | [<- | []]].
    + exists (u "www." ++ b ++ t'). split; [reflexivity|]. rewrite !forallb_app, Hbb, Htld. reflexivity.
    + exists (b ++ t'). split; [reflexivity|]. rewrite !forallb_app, Hbb, Htld. reflexivity.
Qed.

(* ------------------------------------------------------------------ *)
(** ** [api_scrape]: what the endpoint returns *)

(** [api_scrape] returns the profile list of a payload the scraper wrote
    (periodic or final) and the empty list for the placeholder [main]
    writes first. *)
Theorem api_returns_written_profiles (outlet website : str) (ps : list profile) :
  api_data (Some (payload_json outlet website ps)) = map profile_json ps
  /\ api_data (Some (initial_json outlet)) = [].
Proof. split; reflexivity. Qed.

(* ------------------------------------------------------------------ *)
(** ** [normalize_name]: the shape of its output *)

Lemma strip_infix (x : str) : exists p q, x = p ++ strip x ++ q.
Proof.
  destruct (lstrip_split x) as (p & E1 & _).
  destruct (lstrip_split (rev (lstrip x))) as (p2 & E2 & _).
  exists p, (rev p2). rewrite E1 at 1. f_equal. unfold strip.
  rewrite <- rev_app_distr, <- E2, rev_involutive. reflexivity.
Qed.

Lemma strip_head (x : str) (c : N) (r : str) : strip x = c :: r -> is_space c = false.
Proof.
  unfold strip. set (y := lstrip x). set (z := lstrip (rev y)). intro E.
  destruct (lstrip_split (rev y)) as (p & Ey & _). fold z in Ey.
  assert (Ey' : y = rev z ++ rev p) by (rewrite <- rev_app_distr, <- Ey, rev_involutive; reflexivity).
  apply (lstrip_head x c (r ++ rev p)). fold y. rewrite Ey', E. reflexivity.
Qed.

Lemma strip_last (x : str) (c : N) (r : str) : strip x = r ++ [c] -> is_space c = false.
Proof.
  unfold strip. intro E. apply (f_equal (@rev N)) in E. rewrite rev_involutive, rev_app_distr in E.
  exact (lstrip_head _ c (rev r) E).
Qed.

Lemma collapse_ws_aux_In (b : bool) (m : str) (c : N) :
  In c (collapse_ws_aux b m) -> c = 32 \/ (In c m /\ is_space c = false).
Proof.
  revert b. induction m as [|x r IH]; intros b H; simpl in H; [contradiction|].
  destruct (is_space x) eqn:E.
  - destruct b; [destruct (IH true H) as [H1 | [H1 H2]]; [left; exact H1 | right; split; [right; exact H1 | exact H2]]|].
    destruct H as [<- | H]; [left; reflexivity|].
    destruct (IH true H) as [H1 | [H1 H2]]; [left; exact H1 | right; split; [right; exact H1 | exact H2]].
  - destruct H as [<- | H]; [right; split; [left; reflexivity | exact E]|].
    destruct (IH false H) as [H1 | [H1 H2]]; [left; exact H1 | right; split; [right; exact H1 | exact H2]].
Qed.

Lemma no_ws_run_cons (c : N) (t : str) :
  no_ws_run t = true -> (is_space c = false \/ forall d r, t = d :: r -> is_space d = false) ->
  no_ws_run (c :: t) = true.
Proof.
  intros Ht Hc. destruct t as [|d r]; [reflexivity|].
  change (negb (is_space c && is_space d) && no_ws_run (d :: r) = true). rewrite Ht.
  destruct Hc as [Hc | Hc]; [rewrite Hc | rewrite (Hc d r eq_refl), andb_false_r]; reflexivity.
Qed.

Lemma collapse_ws_aux_run (b : bool) (m : str) :
  no_ws_run (collapse_ws_aux b m) = true
  /\ (b = true -> forall d r, collapse_ws_aux b m = d :: r -> is_space d = false).
Proof.
  revert b. induction m as [|x r IH]; intro b; simpl; [split; [reflexivity | discriminate]|].
  destruct (is_space x) eqn:E.
  - destruct (IH true) as [H1 H2]. destruct b; [split; [exact H1 | intros _; exact (H2 eq_refl)]|].
    split; [|discriminate]. apply no_ws_run_cons; [exact H1 | right; exact (H2 eq_refl)].
  - destruct (IH false) as [H1 _]. split.
    + apply no_ws_run_cons; [exact H1 | left; exact E].
    + intros _ d r' H. injection H as <- _. exact E.
Qed.

Lemma no_ws_run_app_l (l q : str) : no_ws_run (l ++ q) = true -> no_ws_run l = true.
Proof.
  induction l as [|a l IH]; intro H; [reflexivity|].
  destruct l as [|b l']; [reflexivity|].
  simpl in H |- *. apply andb_prop in H as [H1 H2]. rewrite H1. simpl. apply IH. exact H2.
Qed.

Lemma no_ws_run_app_r (p l : str) : no_ws_run (p ++ l) = true -> no_ws_run l = true.
Proof.
  induction p as [|a p IH]; intro H; [exact H|]. apply IH.
  simpl in H. destruct (p ++ l) as [|b r]; [reflexivity|].
  apply andb_prop in H as [_ H]. exact H.
Qed.

Lemma run_lookup_range (rs : list (N * N * N * N)) (c d : N) :
  run_lookup rs c = Some d ->
  exists lo hi st t, In (lo, hi, st, t) rs /\ t <= d /\ d - t <= hi - lo.
Proof.
  induction rs as [|[[[lo hi] st] t] rs IH]; simpl; [discriminate|].
  destruct ((lo <=? c) && (c <=? hi) && ((c - lo) mod st =? 0)) eqn:E; intro H.
  - injection H as <-. apply andb_prop in E as [E _]. apply andb_prop in E as [E1 E2].
    apply N.leb_le in E1. apply N.leb_le in E2.
    exists lo, hi, st, t. split; [left; reflexivity | lia].
  - destruct (IH H) as (lo' & hi' & st' & t' & H1 & H2).
    exists lo', hi', st', t'. split; [right; exact H1 | exact H2].
Qed.

Lemma case_map_ok (f : N -> bool) (runs : list (N * N * N * N)) (sp : list (N * list N)) (c : N) :
  run_images_ok f runs = true -> forallb (fun kv => forallb f (snd kv)) sp = true ->
  f c = true -> forallb f (case_map runs sp c) = true.
Proof.
  intros Hr Hs Hc. unfold case_map. destruct (special_lookup sp c) as [v|] eqn:E.
  - apply special_lookup_In in E. rewrite forallb_forall in Hs. exact (Hs _ E).
  - destruct (run_lookup runs c) as [d|] eqn:R; simpl; [|rewrite Hc; reflexivity].
    destruct (run_lookup_range _ _ _ R) as (lo & hi & st & t & Hin & H1 & H2).
    unfold run_images_ok in Hr. rewrite forallb_forall in Hr. specialize (Hr _ Hin). cbv beta iota in Hr.
    rewrite forallb_forall in Hr.
    assert (Hd : f (t + N.of_nat (N.to_nat (d - t))) = true) by (apply Hr; apply in_seq; lia).
    replace (t + N.of_nat (N.to_nat (d - t))) with d in Hd by lia. rewrite Hd. reflexivity.
Qed.

Lemma lower_full_solid (c : N) : name_char_solid c = true -> forallb name_char_solid (lower_full c) = true.
Proof. apply case_map_ok; vm_compute; reflexivity. Qed.

Lemma title_full_solid (c : N) : name_char_solid c = true -> forallb name_char_solid (title_full c) = true.
Proof. apply case_map_ok; vm_compute; reflexivity. Qed.

Lemma lower_at_solid (bf af : str) (c : N) :
  name_char_solid c = true -> forallb name_char_solid (lower_at bf c af) = true.
Proof.
  intro H. unfold lower_at. destruct (c =? 931); [destruct (final_sigma bf af); reflexivity|].
  exact (lower_full_solid c H).
Qed.

Lemma lower_at_nonempty (bf af : str) (c : N) : lower_at bf c af <> [].
Proof. unfold lower_at. destruct (c =? 931); [discriminate | apply lower_full_nonempty]. Qed.

Lemma name_char_ok_cases (c : N) : name_char_ok c = true -> c = 32 \/ name_char_solid c = true.
Proof.
  unfold name_char_ok, name_char_solid. intro H.
  apply andb_prop in H as [H H3]. rewrite H. simpl.
  apply orb_true_iff in H3 as [H3 | H3]; [right; exact H3 | left; apply N.eqb_eq; exact H3].
Qed.

Lemma solid_not_space (c : N) : name_char_solid c = true -> is_space c = false.
Proof.
  unfold name_char_solid. intro H. apply andb_prop in H as [_ H]. apply negb_true_iff. exact H.
Qed.

Lemma solid_name_char_ok (c : N) : name_char_solid c = true -> name_char_ok c = true.
Proof.
  unfold name_char_solid, name_char_ok. intro H. apply andb_prop in H as [H1 H2].
  rewrite H1, H2. reflexivity.
Qed.

Lemma title_from_expands (b : bool) (bf s : str) :
  forallb name_char_ok s = true -> expands s (title_from b bf s).
Proof.
  revert b bf. induction s as [|c r IH]; intros b bf H; [constructor|].
  change (expands (c :: r) ((if b then lower_at bf c r else title_full c) ++ title_from (is_cased c) (c :: bf) r)).
  simpl in H. apply andb_prop in H as [Hc Hr].
  destruct (name_char_ok_cases c Hc) as [-> | Hs].
  - destruct b; [replace (lower_at bf 32 r) with [32] by reflexivity
                 | replace (title_full 32) with [32] by reflexivity];
      apply expands_space, IH, Hr.
  - apply expands_char.
    + exact (solid_not_space c Hs).
    + destruct b; [apply lower_at_nonempty | apply title_full_nonempty].
    + destruct b; [apply lower_at_solid | apply title_full_solid]; exact Hs.
    + apply IH, Hr.
Qed.

Lemma expands_length (s t : str) : expands s t -> (List.length s <= List.length t)%nat.
Proof.
  induction 1 as [|r t _ IH|c p r t _ Hp _ _ IH]; simpl; [lia | lia|].
  rewrite length_app. destruct p; [contradiction | simpl; lia].
Qed.

Lemma expands_chars (s t : str) : expands s t -> forallb name_char_ok t = true.
Proof.
  induction 1 as [|r t _ IH|c p r t _ _ Hp _ IH]; simpl; [reflexivity | exact IH|].
  rewrite forallb_app, IH, andb_true_r. rewrite forallb_forall in Hp |- *.
  intros x Hx. apply solid_name_char_ok, Hp, Hx.
Qed.

Lemma expands_head (s t : str) : expands s t ->
  (forall d r, s = d :: r -> is_space d = false) -> forall d r, t = d :: r -> is_space d = false.
Proof.
  intros HE H d r' E. destruct HE as [|r t _|c p r t _ Hp Hs _]; [discriminate| |].
  - specialize (H 32 r eq_refl). discriminate.
  - destruct p as [|x p]; [contradiction|]. injection E as <- _.
    apply solid_not_space. simpl in Hs. apply andb_prop in Hs as [Hs _]. exact Hs.
Qed.

Lemma no_ws_run_solid_app (p t : str) :
  forallb name_char_solid p = true -> no_ws_run t = true -> no_ws_run (p ++ t) = true.
Proof.
  induction p as [|x p IH]; intros Hp Ht; [exact Ht|].
  simpl in Hp. apply andb_prop in Hp as [Hx Hp].
  simpl. apply no_ws_run_cons; [exact (IH Hp Ht) | left; exact (solid_not_space x Hx)].
Qed.

Lemma expands_run (s t : str) : expands s t -> no_ws_run s = true -> no_ws_run t = true.
Proof.
  induction 1 as [|r t Hrt IH|c p r t _ _ Hp Hrt IH]; intro H; [reflexivity| |].
  - assert (Hr : no_ws_run r = true) by (apply (no_ws_run_app_r [32]); exact H).
    apply no_ws_run_cons; [exact (IH Hr)|]. right. apply (expands_head r t Hrt).
    intros d r' E. subst r. simpl in H. apply andb_prop in H as [H _].
    destruct (is_space d); [discriminate | reflexivity].
  - apply no_ws_run_solid_app; [exact Hp|]. apply IH. apply (no_ws_run_app_r [c]). exact H.
Qed.

Lemma expands_nil_r (s : str) : expands s [] -> s = [].
Proof.
  intro H. remember (@nil N) as t eqn:Et in H.
  destruct H as [|r t' _|c p r t' _ Hp _ _]; [reflexivity | discriminate|].
  destruct p; [contradiction | discriminate].
Qed.

Lemma expands_last (s t : str) : expands s t ->
  forall c r, t = r ++ [c] -> is_space c = true -> exists r0, s = r0 ++ [32].
Proof.
  induction 1 as [|rs t Hrt IH|c0 p rs t _ _ Hp Hrt IH]; intros c r E Hc.
  - destruct r; discriminate.
  - destruct r as [|x r].
    + injection E as <- Et. subst t. rewrite (expands_nil_r _ Hrt). exists []. reflexivity.
    + injection E as _ Et. destruct (IH c r Et Hc) as (r0 & ->). exists (32 :: r0). reflexivity.
  - destruct t as [|x t'] using rev_ind.
    + rewrite app_nil_r in E. subst p. rewrite forallb_app in Hp. apply andb_prop in Hp as [_ Hp].
      simpl in Hp. rewrite andb_true_r in Hp. rewrite (solid_not_space c Hp) in Hc. discriminate.
    + rewrite app_assoc in E. apply app_inj_tail in E as [_ <-].
      destruct (IH x t' eq_refl Hc) as (r0 & ->). exists (c0 :: r0). reflexivity.
Qed.

(** What [normalize_name] returns is empty or a string of at least two
    characters with none of the punctuation of line 64, no zero-width
    character, no whitespace but single spaces, and no space at either end:
    [str.title()] keeps each space and turns each other character into a
    non-empty run of characters that are neither whitespace, nor that
    punctuation, nor zero-width. *)
Theorem normalize_name_shape (name0 : str) :
  normalize_name name0 = []
  \/ ((2 <= List.length (normalize_name name0))%nat
      /\ forallb name_char_ok (normalize_name name0) = true
      /\ no_ws_run (normalize_name name0) = true
      /\ (forall c r, normalize_name name0 = c :: r -> is_space c = false)
      /\ (forall c r, normalize_name name0 = r ++ [c] -> is_space c = false)).
Proof.
  destruct name0 as [|x0 r0]; [left; reflexivity|].
  unfold normalize_name.
  set (m := map (fun c => if name_punct c then 32 else c)
              (filter (fun c => negb (zero_width c)) (strip_by_prefix (strip (x0 :: r0))))).
  set (s := strip (collapse_ws m)).
  destruct (Nat.leb (List.length s) 1) eqn:L; [left; reflexivity|right].
  apply Nat.leb_gt in L.
  assert (Hgood : forallb name_char_ok s = true).
  { apply forallb_forall. intros c Hc. apply In_strip, collapse_ws_aux_In in Hc as [-> | [Hc Hs]]; [reflexivity|].
    unfold m in Hc. apply in_map_iff in Hc as (c0 & E & Hc0).
    destruct (name_punct c0) eqn:P; [subst c; reflexivity|]. subst c0.
    apply filter_In in Hc0 as [_ Z]. unfold name_char_ok. rewrite P, Z, Hs. reflexivity. }
  assert (Hrun : no_ws_run s = true).
  { destruct (strip_infix (collapse_ws m)) as (p & q & E). fold s in E.
    pose proof (proj1 (collapse_ws_aux_run false m)) as H. fold (collapse_ws m) in H. rewrite E in H.
    apply no_ws_run_app_r, no_ws_run_app_l in H. exact H. }
  pose proof (title_from_expands false [] s Hgood) as HE. fold (title s) in HE.
  split; [pose proof (expands_length _ _ HE); lia|]. split; [|split; [|split]].
  - exact (expands_chars _ _ HE).
  - exact (expands_run _ _ HE Hrun).
  - apply (expands_head _ _ HE). intros d r E. exact (strip_head _ d r E).
  - intros c r E. destruct (is_space c) eqn:Hc; [|reflexivity].
    destruct (expands_last _ _ HE c r E Hc) as (r1 & Er).
    pose proof (strip_last _ 32 r1 Er). discriminate.
Qed.

(* ------------------------------------------------------------------ *)
(** ** [extract_authors]: the cleaned names *)

Lemma collapse_ws_aux_true (r : str) :
  (forall d r', r = d :: r' -> is_space d = false) -> collapse_ws_aux true r = collapse_ws_aux false r.
Proof.
  destruct r as [|d r']; intro H; [reflexivity|]. simpl. rewrite (H d r' eq_refl). reflexivity.
Qed.

(** A string whose whitespace is single spaces is left unchanged by
    [re.sub(r'\s+', ' ', .)]. *)
Lemma collapse_ws_fix (t : str) :
  forallb (fun c => negb (is_space c) || (c =? 32)) t = true -> no_ws_run t = true -> collapse_ws t = t.
Proof.
  unfold collapse_ws. induction t as [|c r IH]; intros H1 H2; [reflexivity|].
  simpl in H1. apply andb_prop in H1 as [Hc Hr].
  assert (Hr2 : no_ws_run r = true) by (apply (no_ws_run_app_r [c]); exact H2).
  simpl. destruct (is_space c) eqn:E.
  - simpl in Hc. apply N.eqb_eq in Hc. subst c. f_equal.
    rewrite collapse_ws_aux_true; [exact (IH Hr Hr2)|].
    intros d r' Er. subst r. simpl in H2.
    destruct (is_space d); [simpl in H2; discriminate | reflexivity].
  - f_equal. exact (IH Hr Hr2).
Qed.

(** The cleaning loop of [extract_authors] (lines 219-230) never returns an
    empty list, and each name it returns is the placeholder "Unknown" or a
    whitespace-collapsed string (one that [re.sub(r'\s+', ' ', .)] leaves
    unchanged), stripped, of at least two characters, whose lower-cased
    form is none of the placeholders. *)
Theorem clean_authors_shape (raw : list str) :
  clean_authors raw <> []
  /\ forall a, In a (clean_authors raw) ->
       a = UNKNOWN
       \/ ((2 <= List.length a)%nat /\ mem_str (lower a) author_placeholders = false
           /\ strip a = a /\ collapse_ws a = a).
Proof.
  unfold clean_authors.
  destruct (filter _ _) as [|c r] eqn:E.
  - split; [discriminate|]. intros a [<- | []]. left. reflexivity.
  - split; [discriminate|]. intros a Ha. right. rewrite <- E in Ha.
    apply filter_In in Ha as [Ha Hp].
    apply in_map_iff in Ha as (x & <- & _).
    apply andb_prop in Hp as [H1 H2].
    apply negb_true_iff in H1, H2. apply Nat.ltb_ge in H1.
    split; [exact H1|]. split; [exact H2|]. split; [apply strip_idem|].
    apply collapse_ws_fix.
    + apply forallb_forall. intros d Hd. apply In_strip, collapse_ws_aux_In in Hd as [-> | [_ Hd]].
      * apply orb_true_iff. right. reflexivity.
      * rewrite Hd. reflexivity.
    + destruct (strip_infix (collapse_ws x)) as (p & q & Ex).
      pose proof (proj1 (collapse_ws_aux_run false x)) as H. fold (collapse_ws x) in H. rewrite Ex in H.
      apply no_ws_run_app_r, no_ws_run_app_l in H. exact H.
Qed.

(* ------------------------------------------------------------------ *)
(** ** [extract_profiles]: one profile per author *)

Lemma dict_get_In {V} (k : str) (v : V) (m : list (str * V)) : dict_get k m = Some v -> In (k, v) m.
Proof.
  induction m as [|[k' v'] r IH]; simpl; [discriminate|].
  destruct (str_eqb k k') eqn:E; intro H.
  - apply str_eqb_eq in E. subst k'. injection H as <-. left. reflexivity.
  - right. apply IH. exact H.
Qed.

Lemma dict_set_In {V} (k x : str) (v w : V) (m : list (str * V)) :
  In (x, w) (dict_set k v m) -> (x = k /\ w = v) \/ In (x, w) m.
Proof.
  induction m as [|[k' v'] r IH]; simpl.
  - intros [H | []]. injection H as <- <-. left. split; reflexivity.
  - destruct (str_eqb k k') eqn:E; simpl.
    + apply str_eqb_eq in E. subst k'. intros [H | H].
      * injection H as <- <-. left. split; reflexivity.
      * right. right. exact H.
    + intros [H | H]; [right; left; exact H|]. destruct (IH H) as [H1 | H1]; [left | right; right]; assumption.
Qed.

Lemma dict_set_keys {V} (k x : str) (v : V) (m : list (str * V)) :
  In x (map fst (dict_set k v m)) -> x = k \/ In x (map fst m).
Proof.
  intro H. apply in_map_iff in H as ([x' w] & Hx & H). simpl in Hx. subst x'.
  destruct (dict_set_In k x v w m H) as [[-> _] | H1]; [left; reflexivity|].
  right. apply in_map_iff. exists (x, w). split; [reflexivity | exact H1].
Qed.

Lemma dict_set_nodup {V} (k : str) (v : V) (m : list (str * V)) :
  NoDup (map fst m) -> NoDup (map fst (dict_set k v m)).
Proof.
  induction m as [|[k' v'] r IH]; simpl; intro H; [repeat constructor; intros []|].
  apply NoDup_cons_iff in H as [Hk Hr].
  destruct (str_eqb k k') eqn:E; simpl; constructor; auto.
  intro Hin. destruct (dict_set_keys k k' v r Hin) as [Hkk | Hin']; [|contradiction].
  subst k'. rewrite str_eqb_refl in E. discriminate.
Qed.

Lemma dict_set_keyed (k : str) (v : entry) (m : profiles_map) :
  keyed m -> lower (e_name v) = k -> keyed (dict_set k v m).
Proof.
  intros [Hn Hf] Hv. split; [apply dict_set_nodup; exact Hn|].
  apply Forall_forall. intros [x w] H. simpl.
  destruct (dict_set_In k x v w m H) as [[-> ->] | H1]; [exact Hv|].
  rewrite Forall_forall in Hf. exact (Hf _ H1).
Qed.

Lemma merge_author_keyed (m : profiles_map) (url title pub_date section author : str) :
  keyed m -> keyed (fst (merge_author m url title pub_date section author)).
Proof.
  intro Hm. unfold merge_author.
  destruct (is_empty (normalize_name author)); [exact Hm|].
  destruct (dict_get (lower (normalize_name author)) m) as [e|] eqn:E.
  - apply dict_get_In in E.
    assert (He : lower (e_name e) = lower (normalize_name author)).
    { destruct Hm as [_ Hf]. rewrite Forall_forall in Hf. exact (Hf _ E). }
    destruct (is_empty section).
    + destruct (_prefer_newer _ pub_date); simpl; apply dict_set_keyed; assumption.
    + destruct (e_beat_counts (with_count e (S (e_articles_count e)))) as [bc|].
      * destruct (_prefer_newer _ pub_date); simpl; apply dict_set_keyed; assumption.
      * simpl. apply dict_set_keyed; assumption.
  - simpl. apply dict_set_keyed; [exact Hm | reflexivity].
Qed.

Lemma merge_authors_keyed (m : profiles_map) (url title pub_date section : str) (authors : list str) :
  keyed m -> keyed (fst (merge_authors m url title pub_date section authors)).
Proof.
  revert m. induction authors as [|a r IH]; intros m Hm; simpl; [exact Hm|].
  pose proof (merge_author_keyed m url title pub_date section a Hm) as H1.
  destruct (merge_author m url title pub_date section a) as [m1 raised]. simpl in H1.
  destruct raised; [exact H1 | apply IH; exact H1].
Qed.

Lemma finalize_entries_snd (m : profiles_map) :
  snd (finalize_entries m) = map (fun kv => (fst kv, snd (finalize_entry (snd kv)))) m.
Proof.
  induction m as [|[k v] r IH]; simpl; [reflexivity|].
  destruct (finalize_entry v) as [po v']. destruct (finalize_entries r) as [ps r']. simpl in *. rewrite IH. reflexivity.
Qed.

Lemma finalize_entry_name (v : entry) : e_name (snd (finalize_entry v)) = e_name v.
Proof. destruct (finalize_entry_form v) as [H | (_ & w & H & _ & Hn)]; rewrite H; [reflexivity | exact Hn]. Qed.

Lemma finalize_keyed (m : profiles_map) : keyed m -> keyed (snd (_finalize_profiles m)).
Proof.
  intros [Hn Hf].
  assert (E : snd (_finalize_profiles m) = snd (finalize_entries m))
    by (unfold _finalize_profiles; destruct (finalize_entries m); reflexivity).
  rewrite E, finalize_entries_snd. split.
  - rewrite map_map. simpl. exact Hn.
  - apply Forall_map. eapply Forall_impl; [|exact Hf]. intros [k v] H. simpl in *. rewrite finalize_entry_name. exact H.
Qed.

Lemma finalize_entries_keys (m : profiles_map) :
  keyed m -> map (fun p => lower (name p)) (fst (finalize_entries m)) = map fst (filter kept_entry m).
Proof.
  intros [_ Hf]. induction Hf as [|[k v] r Hkv _ IH]; simpl; [reflexivity|].
  pose proof (finalize_entry_fst v k) as Hk.
  destruct (finalize_entry_form v) as [H | (_ & w & H & _ & Hn)].
  - rewrite H in Hk |- *. simpl in Hk. rewrite <- Hk.
    destruct (finalize_entries r) as [ps r']. simpl in *. exact IH.
  - rewrite H in Hk |- *. simpl in Hk. rewrite <- Hk.
    destruct (finalize_entries r) as [ps r']. simpl in *. rewrite IH, Hn. simpl in Hkv. rewrite Hkv. reflexivity.
Qed.

Lemma nodup_keys_filter (f : str * entry -> bool) (m : profiles_map) :
  NoDup (map fst m) -> NoDup (map fst (filter f m)).
Proof.
  induction m as [|[k v] r IH]; simpl; intro H; [constructor|].
  apply NoDup_cons_iff in H as [Hk Hr]. destruct (f (k, v)); simpl; [|apply IH; exact Hr].
  constructor; [|apply IH; exact Hr].
  intro Hin. apply Hk. apply in_map_iff in Hin as ([k' v'] & Hx & Hin). simpl in Hx. subst k'.
  apply filter_In in Hin as [Hin _]. apply in_map_iff. exists (k, v'). split; [reflexivity | exact Hin].
Qed.


(** [extract_profiles] lists each author once: no two returned profiles
    have names equal up to case, as the map is keyed by the lower-cased
    normalized name and [_finalize_profiles] emits one profile per key. *)
Theorem extract_profiles_unique_names (min_profiles : nat) (fetch : str -> option page) (urls : list str) :
  NoDup (map (fun p => lower (name p)) (extract_profiles_urls min_profiles fetch urls))
  /\ NoDup (map name (extract_profiles_urls min_profiles fetch urls)).
Proof.
  assert (Hk : keyed (rs_map (profiles_loop min_profiles fetch urls init_run))).
  { apply (profiles_loop_inv (fun st => keyed (rs_map st))).
    - intros st url H. exact H.
    - intros st url pg H _. apply merge_authors_keyed. exact H.
    - intros st url pg H _ _. apply merge_authors_keyed. exact H.
    - intros st url pg H _ _. apply finalize_keyed, merge_authors_keyed. exact H.
    - split; constructor. }
  assert (H1 : NoDup (map (fun p => lower (name p)) (extract_profiles_urls min_profiles fetch urls))).
  { unfold extract_profiles_urls. rewrite finalize_profiles_all.
    eapply Permutation_NoDup; [symmetry; apply Permutation_map, sort_profiles_perm|].
    rewrite (finalize_entries_keys _ Hk). apply nodup_keys_filter. exact (proj1 Hk). }
  split; [exact H1|].
  rewrite <- (map_map name lower) in H1. exact (NoDup_map_inv _ _ H1).
Qed.

(* ------------------------------------------------------------------ *)
(** ** [extract_profiles]: byline variants on one page *)

Lemma is_empty_false (s : str) : s <> [] -> is_empty s = false.
Proof. destruct s; [contradiction | reflexivity]. Qed.

Lemma lower_nonempty (s : str) : s <> [] -> lower s <> [].
Proof.
  destruct s as [|c r]; [contradiction|]. intros _. unfold lower. simpl.
  pose proof (lower_at_nonempty [] r c) as H. destruct (lower_at [] c r); [contradiction | discriminate].
Qed.

(** One author string whose key is absent, or whose entry still has its
    [beat_counts], adds one to the count of its key without raising. *)
Lemma merge_author_bumps (m : profiles_map) (url title pub_date section author : str) :
  normalize_name author <> [] ->
  (forall e, dict_get (lower (normalize_name author)) m = Some e -> e_beat_counts e <> None) ->
  snd (merge_author m url title pub_date section author) = false
  /\ exists e, dict_get (lower (normalize_name author)) (fst (merge_author m url title pub_date section author)) = Some e
     /\ e_beat_counts e <> None
     /\ e_articles_count e
        = S (match dict_get (lower (normalize_name author)) m with Some e0 => e_articles_count e0 | None => 0 end).
Proof.
  intros Hn Hb. unfold merge_author. rewrite (is_empty_false _ Hn).
  set (key := lower (normalize_name author)) in *.
  destruct (dict_get key m) as [e|] eqn:E.
  - specialize (Hb e eq_refl).
    assert (Hfin : forall e2 : entry, e_beat_counts e2 <> None -> e_articles_count e2 = S (e_articles_count e) ->
              let r := (if _prefer_newer (e_publication_date e2) pub_date
                        then (dict_set key (with_latest e2 pub_date title url) m, false)
                        else (dict_set key e2 m, false)) in
              snd r = false /\ exists e', dict_get key (fst r) = Some e' /\ e_beat_counts e' <> None
                                      /\ e_articles_count e' = S (e_articles_count e)).
    { intros e2 H1 H2. destruct (_prefer_newer (e_publication_date e2) pub_date); cbn [fst snd];
        (split; [reflexivity|]); eexists; (split; [apply dict_get_set_same|]); split; assumption. }
    destruct (is_empty section).
    + apply Hfin; [exact Hb | reflexivity].
    + destruct (e_beat_counts e) as [bc|] eqn:Ebc; [|contradiction].
      change (e_beat_counts (with_count e (S (e_articles_count e)))) with (e_beat_counts e).
      rewrite Ebc. apply Hfin; [discriminate | reflexivity].
  - cbn [fst snd]. split; [reflexivity|]. eexists. split; [apply dict_get_set_same|].
    split; [unfold new_entry; simpl; destruct (is_empty section); discriminate | reflexivity].
Qed.

(** [articles_count] counts author strings, not pages: when one page lists
    two author strings that [normalize_name] maps to the same key (say
    "Al Roy" and "By Al Roy", both kept in the raw author set), and that
    key is new or its entry still has its [beat_counts] (no checkpoint has
    finalized it), the count of that author rises by two and nothing is
    raised. *)
Theorem byline_variants_count_twice (m : profiles_map) (url title pub_date section a b : str) :
  normalize_name a <> [] -> lower (normalize_name a) = lower (normalize_name b) ->
  (forall e, dict_get (lower (normalize_name a)) m = Some e -> e_beat_counts e <> None) ->
  snd (merge_authors m url title pub_date section [a; b]) = false
  /\ exists e, dict_get (lower (normalize_name a)) (fst (merge_authors m url title pub_date section [a; b])) = Some e
     /\ e_articles_count e
        = (match dict_get (lower (normalize_name a)) m with Some e0 => e_articles_count e0 | None => 0 end + 2)%nat.
Proof.
  intros Ha Hk Hbc.
  assert (Hb : normalize_name b <> []).
  { intro E. rewrite E in Hk. apply (lower_nonempty _ Ha). exact Hk. }
  destruct (merge_author_bumps m url title pub_date section a Ha Hbc) as (R1 & e1 & G1 & B1 & C1).
  simpl merge_authors.
  destruct (merge_author m url title pub_date section a) as [m1 r1]. cbn [fst snd] in R1, G1. subst r1.
  rewrite Hk in G1.
  assert (Hbc2 : forall e, dict_get (lower (normalize_name b)) m1 = Some e -> e_beat_counts e <> None)
    by (intros e E; rewrite G1 in E; injection E as <-; exact B1).
  destruct (merge_author_bumps m1 url title pub_date section b Hb Hbc2) as (R2 & e2 & G2 & _ & C2).
  destruct (merge_author m1 url title pub_date section b) as [m2 r2]. cbn [fst snd] in R2, G2. subst r2.
  cbn [fst snd]. split; [reflexivity|]. exists e2. rewrite Hk. split; [exact G2|].
  rewrite C2, G1, C1, <- Hk. lia.
Qed.

(** Witness for [byline_variants_count_twice]: "Al Roy" already has an
    entry with its [beat_counts]. *)
Lemma byline_variants_count_twice_witness :
  normalize_name (u "Al Roy") <> [] /\ lower (normalize_name (u "Al Roy")) = lower (normalize_name (u "By Al Roy"))
  /\ (forall e, dict_get (lower (normalize_name (u "Al Roy"))) map_with_staff = Some e -> e_beat_counts e <> None)
  /\ snd (merge_authors map_with_staff (u "/a") (u "T") (u "2024-01-01") (u "Sports") [u "Al Roy"; u "By Al Roy"]) = false.
Proof.
  assert (H1 : normalize_name (u "Al Roy") <> []) by (vm_compute; discriminate).
  assert (H2 : lower (normalize_name (u "Al Roy")) = lower (normalize_name (u "By Al Roy"))) by (vm_compute; reflexivity).
  assert (H3 : forall e, dict_get (lower (normalize_name (u "Al Roy"))) map_with_staff = Some e -> e_beat_counts e <> None)
    by (intros e E; vm_compute in E; injection E as <-; discriminate).
  split; [exact H1|]. split; [exact H2|]. split; [exact H3|].
  exact (proj1 (byline_variants_count_twice map_with_staff (u "/a") (u "T") (u "2024-01-01") (u "Sports") _ _ H1 H2 H3)).
Defined.
